(** * YAAA: the client-side graph and session engine of [page.tsx]

    A shallow embedding of the state and data logic of the [Home] component
    (graph builder, filter, context dock, parse-job effect, chat, search)
    together with the properties of that logic.

    Sources: [frontend/src/app/page.tsx] for the graph builder, the filter
    and the search handler; the revision of the same component that adds
    the context dock, the parse jobs and the chat is the second document
    kept in [terraform/gcp/variables.tf] (its lines are cited as "dock
    revision"). The builder, the filter and the search handler are the same
    text in both.

    Conventions of the embedding.
    - A JS [string] is a Rocq [string]; [===] on strings is [bool_decide (_ = _)].
    - [T | null] and optional fields are [option T].
    - A JS [Set<string>] is a [gset string], a [Map<number, string>] a
      [gmap Z string] (cluster ids are integers).
    - Counts ([citation_count], [max_citations]) are natural numbers [N];
      coordinates and ratios are exact rationals [Q].
    - React state is an explicit record; every [setX] call is a function on
      that record, and an [await] splits a handler in two functions.
    - The running component is an event loop: one event is one synchronous
      run of a handler, of the effect or of the continuation of an [await].
      React applies the state updates of such a run together, so the states
      between two events are the states a render or a later callback can
      see. *)

From Stdlib Require Import QArith Qminmax.
From stdpp Require Import gmap strings list fin_maps pretty.

Open Scope string_scope.
Open Scope list_scope.
Open Scope nat_scope.

(** ** JavaScript helpers *)

Module JS.

(** Truthiness of a [string | null | undefined] value. *)
Definition truthy (v : option string) : bool :=
  match v with
  | Some s => negb (bool_decide (s = ""))
  | None => false
  end.

(** [a || b] where both sides may be undefined. *)
Definition or (a b : option string) : option string :=
  if truthy a then a else b.

(** [a || "literal"]. *)
Definition or_lit (a : option string) (d : string) : string :=
  match a with
  | Some s => if bool_decide (s = "") then d else s
  | None => d
  end.

(** White space and line terminators among the code units below 256. *)
Definition is_space (c : Ascii.ascii) : bool :=
  let n := Ascii.nat_of_ascii c in
  ((9 <=? n)%nat && (n <=? 13)%nat) || (n =? 32)%nat || (n =? 160)%nat.

Fixpoint trimStart (s : string) : string :=
  match s with
  | EmptyString => EmptyString
  | String c s' => if is_space c then trimStart s' else s
  end.

(** [trimEnd] keeps a character when it is not a space or when something
    survives to its right. *)
Fixpoint trimEnd (s : string) : string :=
  match s with
  | EmptyString => EmptyString
  | String c s' =>
      match trimEnd s' with
      | EmptyString => if is_space c then EmptyString else String c EmptyString
      | t => String c t
      end
  end.

Definition trim (s : string) : string := trimEnd (trimStart s).

(** [!s.trim()] *)
Definition blank (s : string) : bool := bool_decide (trim s = "").

End JS.

(** ** Types *)

Record Paper := {
  arxiv_id : string;
  p_title : string;
  p_abstract : string;
  p_authors : list string;
  p_published : string;
  pdf_url : string;
  p_categories : list string;
  p_cluster : option Z;
  p_cluster_name : option string;
  p_x : option Q;
  p_y : option Q;
  neighbors : option (list string);
  p_citation_count : N;
  references : option (list string)
}.

Record Category := {
  c_id : Z;
  c_name : string;
  c_description : string;
  c_color : string;
  c_count : N
}.

Record CitationLink := {
  cl_source : string;
  cl_target : string
}.

(** [cluster] is declared [number] but is filled with [p.cluster!], which
    is [null] at run time for a paper without a cluster. *)
Record GraphNode := {
  n_id : string;
  n_title : string;
  n_abstract : string;
  n_authors : list string;
  n_published : string;
  n_cluster : option Z;
  n_cluster_name : string;
  n_color : string;
  n_x : Q;
  n_y : Q;
  n_citation_count : N;
  pulse_intensity : Q
}.

(** [source: string | GraphNode]: the renderer replaces ids by node
    references in place. *)
Inductive Endpoint :=
| EpId (id : string)
| EpNode (n : GraphNode).

Record GraphLink := {
  l_source : Endpoint;
  l_target : Endpoint;
  isCitation : option bool
}.

Record GraphData := {
  nodes : list GraphNode;
  links : list GraphLink
}.

(** [typeof e === 'string' ? e : e.id] *)
Definition endpointId (e : Endpoint) : string :=
  match e with
  | EpId s => s
  | EpNode n => n_id n
  end.

(** ** Graph data builder

    [buildGraphData], page.tsx 114-170 (dock revision 946-1002). *)

Definition scale : Q := 600.

(** [new Map(categories.map(c => [c.id, c.color]))]: entries are set in
    order, a later one replaces an earlier one with the same key. *)
Definition colorMap (categories : list Category) : gmap Z string :=
  foldl (fun m c => <[c_id c := c_color c]> m) ∅ categories.

Definition nameMap (categories : list Category) : gmap Z string :=
  foldl (fun m c => <[c_id c := c_name c]> m) ∅ categories.

(** [m.get(p.cluster!)] *)
Definition mapGet (m : gmap Z string) (k : option Z) : option string :=
  match k with
  | Some c => m !! c
  | None => None
  end.

Definition hasCoords (p : Paper) : bool :=
  match p_x p, p_y p with
  | Some _, Some _ => true
  | _, _ => false
  end.

Definition N2Q (n : N) : Q := inject_Z (Z.of_N n).

(** [maxCitations > 0 ? Math.min(1, c / maxCitations) : 0] *)
Definition pulse (c maxCitations : N) : Q :=
  if (0 <? maxCitations)%N then Qmin 1 (N2Q c / N2Q maxCitations) else 0.

Definition mkNode (categories : list Category) (maxCitations : N) (p : Paper)
  : GraphNode :=
  {| n_id := arxiv_id p;
     n_title := p_title p;
     n_abstract := p_abstract p;
     n_authors := p_authors p;
     n_published := p_published p;
     n_cluster := p_cluster p;
     n_cluster_name :=
       JS.or_lit (JS.or (p_cluster_name p)
                        (mapGet (nameMap categories) (p_cluster p)))
                 "Unknown";
     n_color := JS.or_lit (mapGet (colorMap categories) (p_cluster p)) "#666";
     n_x := (default 0 (p_x p) * scale)%Q;
     n_y := (default 0 (p_y p) * scale)%Q;
     n_citation_count := p_citation_count p;
     pulse_intensity := pulse (p_citation_count p) maxCitations |}.

Definition buildNodes (papers : list Paper) (categories : list Category)
    (maxCitations : N) : list GraphNode :=
  map (mkNode categories maxCitations) (List.filter hasCoords papers).

(** The predicate handed to [links.find]. *)
Definition connects (a b : string) (l : GraphLink) : bool :=
  let srcId := endpointId (l_source l) in
  let tgtId := endpointId (l_target l) in
  (bool_decide (srcId = a) && bool_decide (tgtId = b))
  || (bool_decide (srcId = b) && bool_decide (tgtId = a)).

(** Body of [paper.neighbors.forEach]. *)
Definition addNeighbor (nodeIds : gset string) (paper : Paper)
    (links : list GraphLink) (neighborId : string) : list GraphLink :=
  if negb (bool_decide (neighborId ∈ nodeIds)) then links
  else match List.find (connects (arxiv_id paper) neighborId) links with
       | None =>
           links ++ [ {| l_source := EpId (arxiv_id paper);
                         l_target := EpId neighborId;
                         isCitation := Some false |} ]
       | Some _ => links
       end.

(** Body of [papers.forEach]. *)
Definition addSimilarity (nodeIds : gset string) (links : list GraphLink)
    (paper : Paper) : list GraphLink :=
  match neighbors paper with
  | None => links
  | Some ns => foldl (addNeighbor nodeIds paper) links ns
  end.

(** Body of [citationLinks.forEach]. *)
Definition addCitation (nodeIds : gset string) (links : list GraphLink)
    (cl : CitationLink) : list GraphLink :=
  if bool_decide (cl_source cl ∈ nodeIds) && bool_decide (cl_target cl ∈ nodeIds)
  then links ++ [ {| l_source := EpId (cl_source cl);
                     l_target := EpId (cl_target cl);
                     isCitation := Some true |} ]
  else links.

Definition idSet (ns : list GraphNode) : gset string :=
  list_to_set (map n_id ns).

Definition similarityLinks (nodeIds : gset string) (papers : list Paper)
  : list GraphLink :=
  foldl (addSimilarity nodeIds) [] papers.

Definition buildGraphData (papers : list Paper) (categories : list Category)
    (citationLinks : list CitationLink) (maxCitations : N) : GraphData :=
  let nodes := buildNodes papers categories maxCitations in
  let nodeIds := idSet nodes in
  let links := similarityLinks nodeIds papers in
  let links := foldl (addCitation nodeIds) links citationLinks in
  {| nodes := nodes; links := links |}.

(** A link counts as a similarity edge unless its flag is [true]. *)
Definition isSimilarity (l : GraphLink) : bool :=
  match isCitation l with
  | Some true => false
  | _ => true
  end.

(** ** Filter engine

    The [filteredGraphData] memo, page.tsx 231-254 (dock revision 1188-1211). *)

Section FilterEngine.

(** [new Date(s).valueOf()]: milliseconds since the epoch, [None] for an
    invalid date ([NaN]). The parser is the host's. *)
Variable parseDate : string -> option Z.

(** [paperDate < dateFilterCutoff]; a comparison with [NaN] is false. *)
Definition beforeCutoff (published : string) (cutoff : Z) : bool :=
  match parseDate published with
  | Some t => (t <? cutoff)%Z
  | None => false
  end.

(** [visibleClusters.has(node.cluster)] *)
Definition clusterVisible (visibleClusters : gset Z) (c : option Z) : bool :=
  match c with
  | Some z => bool_decide (z ∈ visibleClusters)
  | None => false
  end.

(** The predicate of [graphData.nodes.filter]. *)
Definition nodeVisible (visibleClusters : gset Z) (dateFilterCutoff : option Z)
    (papers : list Paper) (node : GraphNode) : bool :=
  if negb (clusterVisible visibleClusters (n_cluster node)) then false
  else match dateFilterCutoff with
       | Some cutoff =>
           match List.find (fun p => bool_decide (arxiv_id p = n_id node)) papers with
           | Some paper =>
               if beforeCutoff (p_published paper) cutoff then false else true
           | None => true
           end
       | None => true
       end.

(** The predicate of [graphData.links.filter]. *)
Definition linkVisible (nodeIds : gset string) (link : GraphLink) : bool :=
  let sourceId := endpointId (l_source link) in
  let targetId := endpointId (l_target link) in
  bool_decide (sourceId ∈ nodeIds) && bool_decide (targetId ∈ nodeIds).

Definition filteredGraphData (graphData : option GraphData)
    (visibleClusters : gset Z) (dateFilterCutoff : option Z)
    (papers : list Paper) : option GraphData :=
  match graphData with
  | None => None
  | Some g =>
      let filteredNodes :=
        List.filter (nodeVisible visibleClusters dateFilterCutoff papers) (nodes g) in
      let nodeIds := idSet filteredNodes in
      let filteredLinks := List.filter (linkVisible nodeIds) (links g) in
      Some {| nodes := filteredNodes; links := filteredLinks |}
  end.

End FilterEngine.

(** ** Component state *)

Inductive Role := user | assistant.

Record ChatMessage := {
  role : Role;
  content : string
}.

Record ScreenPos := {
  sx : Q;
  sy : Q
}.

(** Search and filter state. *)
Record SearchState := {
  query : string;
  paperCount : N;
  isLoading : bool;
  loadingStatus : string;
  graphData : option GraphData;
  papers : list Paper;
  categories : list Category;
  expandedQueries : list string;
  maxCitations : N;
  dateFilter : string;
  visibleClusters : gset Z
}.

(** Context dock state, with the refs that mirror it. *)
Record DockState := {
  contextPapers : list GraphNode;
  draggingNode : option GraphNode;
  dragScreenPos : option ScreenPos;
  isNearDock : bool;
  dragStartPos : option ScreenPos;
  draggingNodeRef : option GraphNode;
  isNearDockRef : bool
}.

Record ParseState := {
  parsedPapers : gset string;
  parsingPapers : gset string;
  prevContextPapersRef : list string
}.

Record ChatState := {
  chatOpen : bool;
  chatMessages : list ChatMessage;
  chatInput : string;
  chatLoading : bool;
  webSearchEnabled : bool
}.

(** The state of [Home]; [console] collects the [console.error] lines. *)
Record Home := {
  search : SearchState;
  dock : DockState;
  parse : ParseState;
  chat : ChatState;
  console : list string
}.

Definition withSearch (f : SearchState -> SearchState) (h : Home) : Home :=
  {| search := f (search h); dock := dock h; parse := parse h;
     chat := chat h; console := console h |}.

Definition withDock (f : DockState -> DockState) (h : Home) : Home :=
  {| search := search h; dock := f (dock h); parse := parse h;
     chat := chat h; console := console h |}.

Definition withParse (f : ParseState -> ParseState) (h : Home) : Home :=
  {| search := search h; dock := dock h; parse := f (parse h);
     chat := chat h; console := console h |}.

Definition withChat (f : ChatState -> ChatState) (h : Home) : Home :=
  {| search := search h; dock := dock h; parse := parse h;
     chat := f (chat h); console := console h |}.

Definition consoleError (msg : string) (h : Home) : Home :=
  {| search := search h; dock := dock h; parse := parse h;
     chat := chat h; console := console h ++ [msg] |}.

Definition initialHome : Home :=
  {| search := {| query := ""; paperCount := 200; isLoading := false;
                  loadingStatus := ""; graphData := None; papers := [];
                  categories := []; expandedQueries := []; maxCitations := 0;
                  dateFilter := "all"; visibleClusters := ∅ |};
     dock := {| contextPapers := []; draggingNode := None; dragScreenPos := None;
                isNearDock := false; dragStartPos := None;
                draggingNodeRef := None; isNearDockRef := false |};
     parse := {| parsedPapers := ∅; parsingPapers := ∅;
                 prevContextPapersRef := [] |};
     chat := {| chatOpen := false; chatMessages := []; chatInput := "";
                chatLoading := false; webSearchEnabled := true |};
     console := [] |}.

(** ** Search coordinator

    [handleSearch], page.tsx 273-339 (dock revision 1230-1296). The two
    [setTimeout] calls that configure the forces and the zoom only talk to
    the renderer and are left out. *)

Record SearchResult := {
  r_papers : list Paper;
  r_categories : list Category;
  r_citation_links : list CitationLink;
  r_expanded_queries : list string;
  r_max_citations : N
}.

(** What [await searchPapers(...)] does: it throws or yields a result. *)
Inductive SearchOutcome :=
| SearchThrew (error : string)
| SearchResolved (result : SearchResult).

(** The setter calls of [handleSearch] before its [try] block:
    [setIsLoading(true); setGraphData(null); setPapers([]);
     setCategories([]); setExpandedQueries([]); setDateFilter("all")]. *)
Definition searchReset (s : SearchState) : SearchState :=
  {| query := query s; paperCount := paperCount s;
     isLoading := true;
     loadingStatus := loadingStatus s;
     graphData := None;
     papers := [];
     categories := [];
     expandedQueries := [];
     maxCitations := maxCitations s;
     dateFilter := "all";
     visibleClusters := visibleClusters s |}.

Definition setLoadingStatus (msg : string) (s : SearchState) : SearchState :=
  {| query := query s; paperCount := paperCount s; isLoading := isLoading s;
     loadingStatus := msg;
     graphData := graphData s; papers := papers s; categories := categories s;
     expandedQueries := expandedQueries s; maxCitations := maxCitations s;
     dateFilter := dateFilter s; visibleClusters := visibleClusters s |}.

Definition setIsLoading (b : bool) (s : SearchState) : SearchState :=
  {| query := query s; paperCount := paperCount s; isLoading := b;
     loadingStatus := loadingStatus s;
     graphData := graphData s; papers := papers s; categories := categories s;
     expandedQueries := expandedQueries s; maxCitations := maxCitations s;
     dateFilter := dateFilter s; visibleClusters := visibleClusters s |}.

(** The setter calls on a non-empty result. *)
Definition searchStore (r : SearchResult) (s : SearchState) : SearchState :=
  {| query := query s; paperCount := paperCount s; isLoading := isLoading s;
     loadingStatus := "";
     graphData := Some (buildGraphData (r_papers r) (r_categories r)
                          (r_citation_links r) (r_max_citations r));
     papers := r_papers r;
     categories := r_categories r;
     expandedQueries := r_expanded_queries r;
     maxCitations := r_max_citations r;
     dateFilter := dateFilter s;
     visibleClusters := list_to_set (map c_id (r_categories r)) |}.

(** The guard of [handleSearch]. *)
Definition searchRefused (h : Home) : bool :=
  JS.blank (query (search h)) || isLoading (search h).

(** [handleSearch] from its first statement to the call of the search
    collaborator: the state in which [searchPapers] is invoked. *)
Definition handleSearch_before (h : Home) : Home :=
  withSearch (fun s => setLoadingStatus "Expanding search queries..."
                         (setLoadingStatus "Searching the web..." (searchReset s))) h.

(** [handleSearch] from the answer of the collaborator to its end. *)
Definition handleSearch_after (o : SearchOutcome) (h : Home) : Home :=
  match o with
  | SearchResolved r =>
      if (length (r_papers r) =? 0)%nat
      then withSearch (fun s => setIsLoading false
                                  (setIsLoading false
                                     (setLoadingStatus "No papers found" s))) h
      else withSearch (fun s => setIsLoading false (searchStore r s)) h
  | SearchThrew e =>
      withSearch (fun s => setIsLoading false (setLoadingStatus "Search failed" s))
        (consoleError ("Search failed: " +:+ e) h)
  end.

Definition handleSearch (searchPapers : string -> N -> SearchOutcome) (h : Home)
  : Home :=
  if searchRefused h then h
  else handleSearch_after
         (searchPapers (query (search h)) (paperCount (search h)))
         (handleSearch_before h).

(** ** Context dock

    Dock revision: [onNodeDrag] 2215-2230, [onNodeDragEnd] 2232-2252, the
    [mouseup] listener 1312-1332, [removeFromContext] 1338-1340. *)

Definition dockZoneHeight : Q := 100.

Definition Qltb (a b : Q) : bool :=
  (Qnum a * Zpos (Qden b) <? Qnum b * Zpos (Qden a))%Z.

(** [coords.y < dockZoneHeight + 50] *)
Definition nearDock (coords : ScreenPos) : bool :=
  Qltb (sy coords) (dockZoneHeight + 50)%Q.

(** The updater given to [setContextPapers] on a drop:
    [prev => prev.find(p => p.id === node.id) ? prev : [...prev, node]]. *)
Definition addToContext (node : GraphNode) (prev : list GraphNode)
  : list GraphNode :=
  match List.find (fun p => bool_decide (n_id p = n_id node)) prev with
  | Some _ => prev
  | None => prev ++ [node]
  end.

Definition setContextPapers (f : list GraphNode -> list GraphNode)
    (d : DockState) : DockState :=
  {| contextPapers := f (contextPapers d);
     draggingNode := draggingNode d; dragScreenPos := dragScreenPos d;
     isNearDock := isNearDock d; dragStartPos := dragStartPos d;
     draggingNodeRef := draggingNodeRef d; isNearDockRef := isNearDockRef d |}.

(** [onNodeDrag]; [coords] is [None] when the graph is not mounted or has
    no screen coordinates for the node. *)
Definition onNodeDrag (node : GraphNode) (coords : option ScreenPos)
    (h : Home) : Home :=
  withDock (fun d =>
    match coords with
    | Some c =>
        {| contextPapers := contextPapers d;
           draggingNode := Some node;
           dragScreenPos := Some c;
           isNearDock := nearDock c;
           dragStartPos := dragStartPos d;
           draggingNodeRef := Some node;
           isNearDockRef := nearDock c |}
    | None =>
        {| contextPapers := contextPapers d;
           draggingNode := Some node;
           dragScreenPos := dragScreenPos d;
           isNearDock := isNearDock d;
           dragStartPos := dragStartPos d;
           draggingNodeRef := Some node;
           isNearDockRef := isNearDockRef d |}
    end) h.

(** The [mouseup] listener. *)
Definition handleMouseUp (h : Home) : Home :=
  match draggingNodeRef (dock h) with
  | None => h
  | Some node =>
      withDock (fun d =>
        let d := if isNearDockRef d
                 then setContextPapers (addToContext node) d
                 else d in
        {| contextPapers := contextPapers d;
           draggingNode := None;
           dragScreenPos := None;
           isNearDock := false;
           dragStartPos := None;
           draggingNodeRef := None;
           isNearDockRef := false |}) h
  end.

(** The [onNodeDragEnd] callback of the graph. *)
Definition onNodeDragEnd (node : GraphNode) (coords : option ScreenPos)
    (h : Home) : Home :=
  withDock (fun d =>
    let d := match coords with
             | Some c => if nearDock c
                         then setContextPapers (addToContext node) d
                         else d
             | None => d
             end in
    {| contextPapers := contextPapers d;
       draggingNode := None;
       dragScreenPos := None;
       isNearDock := false;
       dragStartPos := dragStartPos d;
       draggingNodeRef := None;
       isNearDockRef := false |}) h.

Definition removeFromContext (paperId : string) (h : Home) : Home :=
  withDock (setContextPapers
              (List.filter (fun p => negb (bool_decide (n_id p = paperId))))) h.

(** ** Context effect: membership diff, announcements, parse jobs

    The effect on [contextPapers], dock revision 1075-1174. *)

(** [ids.includes(id)] *)
Definition includes (ids : list string) (id : string) : bool :=
  bool_decide (id ∈ ids).

(** [contextPapers.filter(p => !prevIds.includes(p.id))] *)
Definition added (contextPapers : list GraphNode) (prevIds : list string)
  : list GraphNode :=
  List.filter (fun p => negb (includes prevIds (n_id p))) contextPapers.

(** [prevIds.filter(id => !currentIds.includes(id))] *)
Definition removed (prevIds currentIds : list string) : list string :=
  List.filter (fun id => negb (includes currentIds id)) prevIds.

Definition findPaper (papers : list Paper) (id : string) : option Paper :=
  List.find (fun p => bool_decide (arxiv_id p = id)) papers.

(** [fullPaper?.pdf_url || `https://arxiv.org/pdf/${id}.pdf`] *)
Definition pdfUrlFor (papers : list Paper) (id : string) : string :=
  JS.or_lit (pdf_url <$> findPaper papers id)
            ("https://arxiv.org/pdf/" +:+ id +:+ ".pdf").

Definition pushMessage (m : ChatMessage) (c : ChatState) : ChatState :=
  {| chatOpen := chatOpen c; chatMessages := chatMessages c ++ [m];
     chatInput := chatInput c; chatLoading := chatLoading c;
     webSearchEnabled := webSearchEnabled c |}.

(** The transcript entries of one run of the effect. *)
Definition announcements (h : Home) (added : list GraphNode)
    (removed : list string) : list ChatMessage :=
  if (0 <? length (chatMessages (chat h)))%nat || chatOpen (chat h) then
    map (fun paper =>
           {| role := assistant;
              content := "📄 **Paper added to context:** " +:+ n_title paper |})
        added
    ++ omap (fun id =>
               match findPaper (papers (search h)) id with
               | Some paper =>
                   Some {| role := assistant;
                           content := "📄 **Paper removed from context:** "
                                      +:+ p_title paper |}
               | None => None
               end)
         removed
  else [].

(** *** Parse jobs *)

Definition pollInterval : N := 2000.
Definition maxPolls : nat := 300.

(** Where a job is suspended: at the [await] of the submission, or at the
    [await]s of iteration [i] of the polling loop. *)
Inductive JobPhase :=
| AwaitSubmit
| Polling (jobId : string) (i : nat).

Record Job := {
  job_paper : string;
  job_phase : JobPhase
}.

(** What the submission [fetch] and [response.json()] yield. *)
Inductive SubmitResponse :=
| SubmitThrew (error : string)
| SubmitNotOk
| SubmitJson (cached : bool) (status : string) (job_id : string).

(** What one poll yields. *)
Inductive PollResponse :=
| PollThrew (error : string)
| PollNotOk
| PollJson (status : string) (error : string).

(** The state updates a job issues. *)
Inductive Update :=
| SetParsingAdd (id : string)
| SetParsedAdd (id : string)
| SetParsingDelete (id : string)
| ConsoleError (msg : string).

Definition applyUpdate (h : Home) (u : Update) : Home :=
  match u with
  | SetParsingAdd id =>
      withParse (fun p => {| parsedPapers := parsedPapers p;
                             parsingPapers := parsingPapers p ∪ {[id]};
                             prevContextPapersRef := prevContextPapersRef p |}) h
  | SetParsedAdd id =>
      withParse (fun p => {| parsedPapers := parsedPapers p ∪ {[id]};
                             parsingPapers := parsingPapers p;
                             prevContextPapersRef := prevContextPapersRef p |}) h
  | SetParsingDelete id =>
      withParse (fun p => {| parsedPapers := parsedPapers p;
                             parsingPapers := parsingPapers p ∖ {[id]};
                             prevContextPapersRef := prevContextPapersRef p |}) h
  | ConsoleError msg => consoleError msg h
  end.

Definition applyUpdates (us : list Update) (h : Home) : Home :=
  foldl applyUpdate h us.

(** The [catch] and [finally] blocks. *)
Definition jobCatch (id error : string) : list Update :=
  [ConsoleError ("Failed to pre-parse paper " +:+ id +:+ ": " +:+ error)].

Definition jobFinally (id : string) : list Update :=
  [SetParsingDelete id].

(** From the start of the async callback to its first [await]: the guard
    reads the sets of the render the effect belongs to. *)
Definition jobStart (h : Home) (paper : GraphNode)
  : list Update * option JobPhase :=
  if bool_decide (n_id paper ∈ parsedPapers (parse h))
     || bool_decide (n_id paper ∈ parsingPapers (parse h))
  then ([], None)
  else ([SetParsingAdd (n_id paper)], Some AwaitSubmit).

(** From the answer to the submission to the next [await] or the end. *)
Definition onSubmit (id : string) (r : SubmitResponse)
  : list Update * option JobPhase :=
  match r with
  | SubmitThrew e => ((jobCatch id e ++ jobFinally id)%list, None)
  | SubmitNotOk =>
      ((jobCatch id "Error: Failed to start parse job" ++ jobFinally id)%list, None)
  | SubmitJson cached status job_id =>
      if cached || bool_decide (status = "completed")
      then (([SetParsedAdd id; SetParsingDelete id] ++ jobFinally id)%list, None)
      else if (0 <? maxPolls)%nat
           then ([], Some (Polling job_id 0))
           else (jobFinally id, None)
  end.

(** From the answer to poll [i] to the next [await] or the end. *)
Definition onPoll (id jobId : string) (i : nat) (r : PollResponse)
  : list Update * option JobPhase :=
  match r with
  | PollThrew e => ((jobCatch id e ++ jobFinally id)%list, None)
  | PollNotOk =>
      ((jobCatch id "Error: Failed to get parse status" ++ jobFinally id)%list, None)
  | PollJson status error =>
      if bool_decide (status = "completed")
      then (([SetParsedAdd id] ++ jobFinally id)%list, None)
      else if bool_decide (status = "failed")
           then (([ConsoleError ("Parse failed for " +:+ id +:+ ": " +:+ error)]
                    ++ jobFinally id)%list, None)
           else if (S i <? maxPolls)%nat
                then ([], Some (Polling jobId (S i)))
                else (jobFinally id, None)
  end.

(** *** The effect *)

Definition setPrevContextPapersRef (ids : list string) (p : ParseState)
  : ParseState :=
  {| parsedPapers := parsedPapers p; parsingPapers := parsingPapers p;
     prevContextPapersRef := ids |}.

Definition mkJob (id : string) (ph : JobPhase) : Job :=
  {| job_paper := id; job_phase := ph |}.

(** The async callbacks one run of the effect starts, each taken to its
    first [await]: the guard reads the sets of the render [h]. *)
Definition effectStarts (h : Home) : list (string * (list Update * option JobPhase)) :=
  map (fun paper => (n_id paper, jobStart h paper))
      (added (contextPapers (dock h)) (prevContextPapersRef (parse h))).

Definition effectUpdates (h : Home) : list Update :=
  concat (map (fun s => fst (snd s)) (effectStarts h)).

(** One run of the effect up to the first [await] of every callback it
    starts: the announcements, then for each added paper the guard and the
    [setParsingPapers] call, then the update of the ref. It returns the new
    state and the jobs now suspended at their submission. *)
Definition contextEffect (h : Home) : Home * list Job :=
  let currentIds := map n_id (contextPapers (dock h)) in
  let prevIds := prevContextPapersRef (parse h) in
  let add := added (contextPapers (dock h)) prevIds in
  let rem := removed prevIds currentIds in
  let h1 := withChat (fun c => foldl (fun c m => pushMessage m c) c
                                 (announcements h add rem)) h in
  let h2 := applyUpdates (effectUpdates h) h1 in
  let h3 := withParse (setPrevContextPapersRef currentIds) h2 in
  (h3, omap (fun s => mkJob (fst s) <$> snd (snd s)) (effectStarts h)).

(** No id is in both status sets. *)
Definition statusDisjoint (h : Home) : Prop :=
  ∀ id : string,
    ¬ (id ∈ parsingPapers (parse h) ∧ id ∈ parsedPapers (parse h)).

(** ** Chat session

    [sendChatMessage], dock revision 1343-1390. *)

Record PaperContext := {
  pc_arxiv_id : string;
  pc_title : string;
  pc_abstract : string;
  pc_pdf_url : string
}.

Record ChatRequest := {
  req_message : string;
  req_papers : list PaperContext;
  req_history : list ChatMessage;
  req_parse_pdfs : bool;
  req_use_web_search : bool
}.

(** What the chat [fetch] and [response.json()] yield. *)
Inductive ChatOutcome :=
| ChatThrew (error : string)
| ChatNotOk (status : N)
| ChatJson (response : string).

Definition fallbackReply : string :=
  "Sorry, there was an error processing your request. Please try again.".

(** [l.slice(-n)] *)
Definition sliceLast {A} (n : nat) (l : list A) : list A :=
  drop (length l - n) l.

Definition chatRequest (message : string) (h : Home) : ChatRequest :=
  {| req_message := message;
     req_papers :=
       map (fun cp => {| pc_arxiv_id := n_id cp;
                         pc_title := n_title cp;
                         pc_abstract := n_abstract cp;
                         pc_pdf_url := pdfUrlFor (papers (search h)) (n_id cp) |})
           (contextPapers (dock h));
     req_history := sliceLast 10 (chatMessages (chat h));
     req_parse_pdfs := true;
     req_use_web_search := webSearchEnabled (chat h) |}.

(** The guard of [sendChatMessage]. *)
Definition chatRefused (message : string) (h : Home) : bool :=
  JS.blank message
  || (length (contextPapers (dock h)) =? 0)%nat
  || chatLoading (chat h).

Definition setChatLoading (b : bool) (c : ChatState) : ChatState :=
  {| chatOpen := chatOpen c; chatMessages := chatMessages c;
     chatInput := chatInput c; chatLoading := b;
     webSearchEnabled := webSearchEnabled c |}.

Definition setChatInput (v : string) (c : ChatState) : ChatState :=
  {| chatOpen := chatOpen c; chatMessages := chatMessages c;
     chatInput := v; chatLoading := chatLoading c;
     webSearchEnabled := webSearchEnabled c |}.

(** From the first statement to the [await fetch]. *)
Definition sendChatMessage_before (message : string) (h : Home) : Home :=
  withChat (fun c => setChatLoading true
                       (setChatInput ""
                          (pushMessage {| role := user; content := message |} c))) h.

(** From the answer of the backend to the end. *)
Definition sendChatMessage_after (o : ChatOutcome) (h : Home) : Home :=
  match o with
  | ChatJson response =>
      withChat (fun c => setChatLoading false
                           (pushMessage {| role := assistant; content := response |} c)) h
  | ChatNotOk status =>
      withChat (fun c => setChatLoading false
                           (pushMessage {| role := assistant; content := fallbackReply |} c))
        (consoleError ("Chat error: Error: Chat failed: " +:+ pretty status) h)
  | ChatThrew e =>
      withChat (fun c => setChatLoading false
                           (pushMessage {| role := assistant; content := fallbackReply |} c))
        (consoleError ("Chat error: " +:+ e) h)
  end.

Definition sendChatMessage (backend : ChatRequest -> ChatOutcome)
    (message : string) (h : Home) : Home :=
  if chatRefused message h then h
  else sendChatMessage_after (backend (chatRequest message h))
         (sendChatMessage_before message h).

(** A backend call that fails: a thrown error or a non-success response. *)
Definition chatFailed (o : ChatOutcome) : bool :=
  match o with
  | ChatJson _ => false
  | _ => true
  end.

(** ** Inputs and filter controls

    The handlers of the controls the dock revision renders: the query box
    (2642), the paper-count slider (2677), the chat button and the close
    button of the chat panel (1792, 2975), the web-search toggle (2950),
    the chat input (3115, [setChatInput] above), the time-filter buttons
    (2765) and the cluster rows (2811-2822). *)

Definition setQuery (q : string) (s : SearchState) : SearchState :=
  {| query := q; paperCount := paperCount s; isLoading := isLoading s;
     loadingStatus := loadingStatus s;
     graphData := graphData s; papers := papers s; categories := categories s;
     expandedQueries := expandedQueries s; maxCitations := maxCitations s;
     dateFilter := dateFilter s; visibleClusters := visibleClusters s |}.

Definition setPaperCount (n : N) (s : SearchState) : SearchState :=
  {| query := query s; paperCount := n; isLoading := isLoading s;
     loadingStatus := loadingStatus s;
     graphData := graphData s; papers := papers s; categories := categories s;
     expandedQueries := expandedQueries s; maxCitations := maxCitations s;
     dateFilter := dateFilter s; visibleClusters := visibleClusters s |}.

Definition setChatOpen (b : bool) (c : ChatState) : ChatState :=
  {| chatOpen := b; chatMessages := chatMessages c;
     chatInput := chatInput c; chatLoading := chatLoading c;
     webSearchEnabled := webSearchEnabled c |}.

Definition setWebSearchEnabled (b : bool) (c : ChatState) : ChatState :=
  {| chatOpen := chatOpen c; chatMessages := chatMessages c;
     chatInput := chatInput c; chatLoading := chatLoading c;
     webSearchEnabled := b |}.

(** [onClick={() => setWebSearchEnabled(!webSearchEnabled)}] *)
Definition onWebSearchToggle (h : Home) : Home :=
  withChat (fun c => setWebSearchEnabled (negb (webSearchEnabled c)) c) h.

Definition setVisibleClusters (vc : gset Z) (s : SearchState) : SearchState :=
  {| query := query s; paperCount := paperCount s; isLoading := isLoading s;
     loadingStatus := loadingStatus s;
     graphData := graphData s; papers := papers s; categories := categories s;
     expandedQueries := expandedQueries s; maxCitations := maxCitations s;
     dateFilter := dateFilter s; visibleClusters := vc |}.

Definition setDateFilter (v : string) (s : SearchState) : SearchState :=
  {| query := query s; paperCount := paperCount s; isLoading := isLoading s;
     loadingStatus := loadingStatus s;
     graphData := graphData s; papers := papers s; categories := categories s;
     expandedQueries := expandedQueries s; maxCitations := maxCitations s;
     dateFilter := v; visibleClusters := visibleClusters s |}.

(** The click handler of a cluster row, page.tsx 1118-1127 (dock revision
    2811-2822): a copy of the set with the id flipped. *)
Definition toggleCluster (id : Z) (vc : gset Z) : gset Z :=
  if bool_decide (id ∈ vc) then vc ∖ {[id]} else vc ∪ {[id]}.

Definition onClusterClick (id : Z) (h : Home) : Home :=
  withSearch (fun s => setVisibleClusters (toggleCluster id (visibleClusters s)) s) h.

(** The time-filter buttons, dock revision 2765. *)
Definition onDateFilterClick (v : string) (h : Home) : Home :=
  withSearch (setDateFilter v) h.

(** ** The event loop

    The running component. Every handler, the effect and every continuation
    of an [await] is an event; the answers of the search collaborator, of
    the parse backend and of the chat backend are events too, with any
    answer and in any order. The states that only the renderer reads (the
    hovered node and its tooltip, the window dimensions, the animation
    frame, the collapsed sidebar) are not part of [Home] and have no
    event. *)

(** [handleSearch] from its first statement to the 300 ms timer. *)
Definition handleSearch_start (h : Home) : Home :=
  withSearch (fun s => setLoadingStatus "Searching the web..." (searchReset s)) h.

(** [handleSearch] from the timer to the call of the search collaborator. *)
Definition handleSearch_call (h : Home) : Home :=
  withSearch (setLoadingStatus "Expanding search queries...") h.

(** Where a search is suspended: at the timer, or at the call of the
    collaborator. Both carry the query and the paper count the handler
    read when it started. *)
Inductive SearchPhase :=
| AwaitTimer (query : string) (paperCount : N)
| AwaitSearch (query : string) (paperCount : N).

(** The state of the component, the parse jobs suspended at an [await], the
    search suspended at an [await] and the chat request in flight. *)
Record System := {
  home : Home;
  jobs : list Job;
  searching : option SearchPhase;
  chatting : option ChatRequest
}.

Definition initialSystem : System :=
  {| home := initialHome; jobs := []; searching := None; chatting := None |}.

Definition withHome (f : Home -> Home) (s : System) : System :=
  {| home := f (home s); jobs := jobs s;
     searching := searching s; chatting := chatting s |}.

(** What the event loop can run next. [EvSubmit k r] and [EvPoll k r]
    resume job [k] with the answer [r] of the parse backend;
    [EvSearchTimer] and [EvSearchAnswer o] resume the search, [EvChatAnswer o]
    the chat request; [EvSend] is [sendChatMessage(chatInput)] (3118, 3135).
    A disabled control is not modelled: every event may come in every
    state, which can only add states. *)
Inductive Event :=
| EvDrag (node : GraphNode) (coords : option ScreenPos)
| EvMouseUp
| EvDragEnd (node : GraphNode) (coords : option ScreenPos)
| EvRemove (paperId : string)
| EvEffect
| EvSubmit (k : nat) (r : SubmitResponse)
| EvPoll (k : nat) (r : PollResponse)
| EvSetQuery (q : string)
| EvSetPaperCount (n : N)
| EvSearch
| EvSearchTimer
| EvSearchAnswer (o : SearchOutcome)
| EvClusterClick (id : Z)
| EvDateFilter (v : string)
| EvSetChatOpen (b : bool)
| EvWebSearchToggle
| EvSetChatInput (v : string)
| EvSend
| EvChatAnswer (o : ChatOutcome).

(** Resume job [k] with the updates and the next phase of its continuation. *)
Definition resume (s : System) (k : nat) (id : string)
    (c : list Update * option JobPhase) : System :=
  {| home := applyUpdates (fst c) (home s);
     jobs := match snd c with
             | Some ph => <[k := mkJob id ph]> (jobs s)
             | None => delete k (jobs s)
             end;
     searching := searching s;
     chatting := chatting s |}.

(** One turn of the event loop: a whole synchronous run, from one
    suspension point to the next. [None]: the event cannot happen, there
    is no such continuation to resume. A handler whose guard refuses
    returns at once and leaves the state as it is. *)
Definition step (e : Event) (s : System) : option System :=
  match e with
  | EvDrag node coords => Some (withHome (onNodeDrag node coords) s)
  | EvMouseUp => Some (withHome handleMouseUp s)
  | EvDragEnd node coords => Some (withHome (onNodeDragEnd node coords) s)
  | EvRemove paperId => Some (withHome (removeFromContext paperId) s)
  | EvEffect =>
      let r := contextEffect (home s) in
      Some {| home := fst r; jobs := (jobs s ++ snd r)%list;
              searching := searching s; chatting := chatting s |}
  | EvSubmit k r =>
      match jobs s !! k with
      | Some {| job_paper := id; job_phase := AwaitSubmit |} =>
          Some (resume s k id (onSubmit id r))
      | _ => None
      end
  | EvPoll k r =>
      match jobs s !! k with
      | Some {| job_paper := id; job_phase := Polling jobId i |} =>
          Some (resume s k id (onPoll id jobId i r))
      | _ => None
      end
  | EvSetQuery q => Some (withHome (withSearch (setQuery q)) s)
  | EvSetPaperCount n => Some (withHome (withSearch (setPaperCount n)) s)
  | EvSearch =>
      if searchRefused (home s) then Some s
      else Some {| home := handleSearch_start (home s); jobs := jobs s;
                   searching := Some (AwaitTimer (query (search (home s)))
                                        (paperCount (search (home s))));
                   chatting := chatting s |}
  | EvSearchTimer =>
      match searching s with
      | Some (AwaitTimer q n) =>
          Some {| home := handleSearch_call (home s); jobs := jobs s;
                  searching := Some (AwaitSearch q n); chatting := chatting s |}
      | _ => None
      end
  | EvSearchAnswer o =>
      match searching s with
      | Some (AwaitSearch q n) =>
          Some {| home := handleSearch_after o (home s); jobs := jobs s;
                  searching := None; chatting := chatting s |}
      | _ => None
      end
  | EvClusterClick id => Some (withHome (onClusterClick id) s)
  | EvDateFilter v => Some (withHome (onDateFilterClick v) s)
  | EvSetChatOpen b => Some (withHome (withChat (setChatOpen b)) s)
  | EvWebSearchToggle => Some (withHome onWebSearchToggle s)
  | EvSetChatInput v => Some (withHome (withChat (setChatInput v)) s)
  | EvSend =>
      let message := chatInput (chat (home s)) in
      if chatRefused message (home s) then Some s
      else Some {| home := sendChatMessage_before message (home s);
                   jobs := jobs s; searching := searching s;
                   chatting := Some (chatRequest message (home s)) |}
  | EvChatAnswer o =>
      match chatting s with
      | Some _ =>
          Some {| home := sendChatMessage_after o (home s); jobs := jobs s;
                  searching := searching s; chatting := None |}
      | None => None
      end
  end.

(** The states the component can be in at a suspension point. *)
Inductive reachable : System -> Prop :=
| reachable_init : reachable initialSystem
| reachable_step e s s' : reachable s -> step e s = Some s' -> reachable s'.

(** The events of the search, of the chat and of the controls: those that
    are not a drag, a removal, a run of the effect or the answer to a parse
    job. *)
Definition sessionEvent (e : Event) : bool :=
  match e with
  | EvDrag _ _ | EvMouseUp | EvDragEnd _ _ | EvRemove _ | EvEffect
  | EvSubmit _ _ | EvPoll _ _ => false
  | _ => true
  end.

(** The flags that guard [handleSearch] and [sendChatMessage] are up
    exactly while a continuation of the handler is suspended. *)
Definition flagsInv (s : System) : Prop :=
  (isLoading (search (home s)) = true ↔ searching s ≠ None)
  ∧ (chatLoading (chat (home s)) = true ↔ chatting s ≠ None).

(** ** Sample data and vocabulary of the properties *)

Definition samplePaper (id : string) (cl : option Z) (name : option string)
    (xy : option (Q * Q)) (ns : option (list string)) (cites : N) : Paper :=
  {| arxiv_id := id; p_title := "Title of " +:+ id; p_abstract := "";
     p_authors := []; p_published := "2024-01-01"; pdf_url := "";
     p_categories := []; p_cluster := cl; p_cluster_name := name;
     p_x := fst <$> xy; p_y := snd <$> xy; neighbors := ns;
     p_citation_count := cites; references := None |}.

Definition sampleCategory (id : Z) (name color : string) : Category :=
  {| c_id := id; c_name := name; c_description := ""; c_color := color;
     c_count := 0 |}.

(** Papers 1 and 2 are mutual neighbours, paper 3 cites paper 1. *)
Definition threePapers : list Paper :=
  [ samplePaper "p1" (Some 0%Z) None (Some (1, 2)%Q) (Some ["p2"]) 4;
    samplePaper "p2" (Some 0%Z) None (Some (3, 4)%Q) (Some ["p1"]) 8;
    samplePaper "p3" (Some 1%Z) None (Some (5, 6)%Q) None 2 ].

Definition twoCategories : list Category :=
  [ sampleCategory 0 "Vision" "#f00"; sampleCategory 1 "Language" "#0f0" ].

Definition threeGraph : GraphData :=
  buildGraphData threePapers twoCategories
    [ {| cl_source := "p3"; cl_target := "p1" |} ] 8.

(** The cluster id of the paper has no entry in the category table. *)
Definition noEntry (categories : list Category) (cl : option Z) : Prop :=
  ∀ c, c ∈ categories → Some (c_id c) ≠ cl.

(** The reading of the fallback rule under which the name of a node comes
    from the category table alone. *)
Definition nameFromTableOnly : Prop :=
  ∀ papers categories citationLinks maxCitations p,
    p ∈ papers → hasCoords p = true → noEntry categories (p_cluster p) →
    let n := mkNode categories maxCitations p in
    n ∈ nodes (buildGraphData papers categories citationLinks maxCitations)
    ∧ n_color n = "#666"
    ∧ n_cluster_name n = "Unknown".

(** Two links join the same unordered pair of node ids. *)
Definition samePair (l1 l2 : GraphLink) : Prop :=
  (endpointId (l_source l1) = endpointId (l_source l2)
   ∧ endpointId (l_target l1) = endpointId (l_target l2))
  ∨ (endpointId (l_source l1) = endpointId (l_target l2)
     ∧ endpointId (l_target l1) = endpointId (l_source l2)).

(** No two links of the list, at different positions, join the same
    unordered pair. *)
Definition pairwiseDistinct (ls : list GraphLink) : Prop :=
  ∀ i j l1 l2, i ≠ j → ls !! i = Some l1 → ls !! j = Some l2 → ¬ samePair l1 l2.

(** What the similarity loop maintains: the links are pairwise distinct and
    all carry [isCitation: false]. *)
Definition simInv (ls : list GraphLink) : Prop :=
  pairwiseDistinct ls ∧ Forall (fun l => isCitation l = Some false) ls.

(** A host date parser for the samples: the year of an ISO date, as a
    number; anything else is an invalid date. *)
Definition sampleParseDate (s : string) : option Z :=
  match s with
  | String a (String b (String c (String d _))) =>
      let digit ch := (Z.of_nat (Ascii.nat_of_ascii ch) - 48)%Z in
      if forallb (fun ch => (0 <=? digit ch)%Z && (digit ch <=? 9)%Z) [a; b; c; d]
      then Some (digit a * 1000 + digit b * 100 + digit c * 10 + digit d)%Z
      else None
  | _ => None
  end.

(** The renderer has replaced the ids of the first link by node
    references. *)
Definition renderedGraph : GraphData :=
  {| nodes := nodes threeGraph;
     links :=
       match nodes threeGraph, links threeGraph with
       | n1 :: n2 :: _, l :: rest =>
           {| l_source := EpNode n1; l_target := EpNode n2;
              isCitation := isCitation l |} :: rest
       | _, ls => ls
       end |}.

Definition sampleNode (id : string) : GraphNode :=
  mkNode twoCategories 8 (samplePaper id (Some 0%Z) None (Some (1, 2)%Q) None 4).

(** A session in which a search has been shown, one paper is in the context
    and one question has been answered. *)
Definition busyHome : Home :=
  {| search := {| query := "graph neural networks"; paperCount := 200;
                  isLoading := false; loadingStatus := "";
                  graphData := Some threeGraph; papers := threePapers;
                  categories := twoCategories; expandedQueries := ["gnn"];
                  maxCitations := 8; dateFilter := "1y";
                  visibleClusters := {[0%Z; 1%Z]} |};
     dock := {| contextPapers := [sampleNode "p1"]; draggingNode := None;
                dragScreenPos := None; isNearDock := false; dragStartPos := None;
                draggingNodeRef := None; isNearDockRef := false |};
     parse := {| parsedPapers := {["p1"]}; parsingPapers := ∅;
                 prevContextPapersRef := ["p1"] |};
     chat := {| chatOpen := true;
                chatMessages := [ {| role := user; content := "Summarise." |};
                                  {| role := assistant; content := "A summary." |} ];
                chatInput := ""; chatLoading := false; webSearchEnabled := true |};
     console := [] |}.

(** The reading under which a new search empties the context set and the
    chat transcript together with the search state. *)
Definition searchClearsSession : Prop :=
  ∀ h, JS.blank (query (search h)) = false → isLoading (search h) = false →
    let h' := handleSearch_before h in
    graphData (search h') = None
    ∧ papers (search h') = []
    ∧ categories (search h') = []
    ∧ expandedQueries (search h') = []
    ∧ dateFilter (search h') = "all"
    ∧ contextPapers (dock h') = []
    ∧ chatMessages (chat h') = [].

Definition sampleResult : SearchResult :=
  {| r_papers := threePapers; r_categories := twoCategories;
     r_citation_links := [ {| cl_source := "p3"; cl_target := "p1" |} ];
     r_expanded_queries := ["gnn"; "message passing"]; r_max_citations := 8 |}.

Definition dockPos : ScreenPos := {| sx := 400; sy := 120 |}.

(** Run a sequence of events from a state. *)
Fixpoint run (es : list Event) (s : System) : option System :=
  match es with
  | [] => Some s
  | e :: es' =>
      match step e s with
      | Some s' => run es' s'
      | None => None
      end
  end.

(** Paper p1 dragged into the dock and released; the effect has run and its
    job waits for the answer to the submission. *)
Definition dropP1 : list Event :=
  [EvDrag (sampleNode "p1") (Some dockPos); EvMouseUp; EvEffect].

Definition cachedAnswer : SubmitResponse := SubmitJson true "completed" "job-1".
Definition queuedAnswer : SubmitResponse := SubmitJson false "processing" "job-1".

Definition statusSets (s : System) : list string * list string :=
  (elements (parsingPapers (parse (home s))),
   elements (parsedPapers (parse (home s)))).

(** ** Further operations of the component *)

(** *** The view shown to the user *)

Section View.

(** [new Date(now.getFullYear() - k, now.getMonth(), now.getDate()).valueOf()]:
    the host's calendar, [k] years before now. *)
Variable yearsAgo : Z -> Z.

Variable parseDate : string -> option Z.

(** The [dateFilterCutoff] memo, page.tsx 220-228 (dock revision
    1177-1185). *)
Definition dateFilterCutoff (dateFilter : string) : option Z :=
  if bool_decide (dateFilter = "1y") then Some (yearsAgo 1)
  else if bool_decide (dateFilter = "2y") then Some (yearsAgo 2)
  else if bool_decide (dateFilter = "5y") then Some (yearsAgo 5)
  else None.

(** The [filteredGraphData] memo on the state of the component. *)
Definition visibleGraph (h : Home) : option GraphData :=
  filteredGraphData parseDate (graphData (search h)) (visibleClusters (search h))
    (dateFilterCutoff (dateFilter (search h))) (papers (search h)).

(** [filteredGraphData?.nodes.length ?? 0], page.tsx 256. *)
Definition visibleCount (h : Home) : nat :=
  match visibleGraph h with
  | Some g => length (nodes g)
  | None => 0
  end.

End View.

(** [graphData?.nodes.length ?? 0], page.tsx 257. *)
Definition totalCount (h : Home) : nat :=
  match graphData (search h) with
  | Some g => length (nodes g)
  | None => 0
  end.

(** *** The cluster checkbox of the first revision *)

(** The checkbox handler of the first revision ([variables.tf] 798-806):
    the id follows [e.target.checked]. *)
Definition onClusterChecked (id : Z) (checked : bool) (h : Home) : Home :=
  withSearch (fun s =>
    setVisibleClusters (if checked then visibleClusters s ∪ {[id]}
                        else visibleClusters s ∖ {[id]}) s) h.

(** *** Neighbours listed in the tooltip

    Dock revision 2266-2290. *)

Record Connected := {
  connectedSimilar : list GraphNode;
  connectedCitations : list GraphNode;
  seenIds : gset string
}.

Definition noConnections : Connected :=
  {| connectedSimilar := []; connectedCitations := []; seenIds := ∅ |}.

(** Body of [filteredGraphData?.links.forEach]. An empty id is falsy, as is
    a missing [isCitation]. *)
Definition connectStep (hoveredNode : GraphNode) (visible : list GraphNode)
    (acc : Connected) (link : GraphLink) : Connected :=
  let sourceId := endpointId (l_source link) in
  let targetId := endpointId (l_target link) in
  let connectedId :=
    if bool_decide (sourceId = n_id hoveredNode) then Some targetId
    else if bool_decide (targetId = n_id hoveredNode) then Some sourceId
    else None in
  match connectedId with
  | Some cid =>
      if JS.truthy (Some cid) && negb (bool_decide (cid ∈ seenIds acc)) then
        let seen := seenIds acc ∪ {[cid]} in
        match List.find (fun n => bool_decide (n_id n = cid)) visible with
        | Some node =>
            match isCitation link with
            | Some true =>
                {| connectedSimilar := connectedSimilar acc;
                   connectedCitations := connectedCitations acc ++ [node];
                   seenIds := seen |}
            | _ =>
                {| connectedSimilar := connectedSimilar acc ++ [node];
                   connectedCitations := connectedCitations acc;
                   seenIds := seen |}
            end
        | None =>
            {| connectedSimilar := connectedSimilar acc;
               connectedCitations := connectedCitations acc;
               seenIds := seen |}
        end
      else acc
  | None => acc
  end.

Definition connectedNodes (hoveredNode : GraphNode) (filtered : option GraphData)
  : Connected :=
  match filtered with
  | Some g => foldl (connectStep hoveredNode (nodes g)) noConnections (links g)
  | None => noConnections
  end.

(** *** The first revision of the builder

    [buildGraphData(papers, categories)], [variables.tf] 139-183 and
    3269-3313: no citations, pinned positions, links between plain ids. *)

Record GraphNode1 := {
  n1_id : string;
  n1_title : string;
  n1_abstract : string;
  n1_authors : list string;
  n1_published : string;
  n1_cluster : option Z;
  n1_cluster_name : string;
  n1_color : string;
  n1_x : Q;
  n1_y : Q;
  n1_fx : Q;
  n1_fy : Q
}.

Record GraphLink1 := {
  l1_source : string;
  l1_target : string
}.

Record GraphData1 := {
  nodes1 : list GraphNode1;
  links1 : list GraphLink1
}.

Definition scale1 : Q := 300.

Definition mkNode1 (categories : list Category) (p : Paper) : GraphNode1 :=
  {| n1_id := arxiv_id p;
     n1_title := p_title p;
     n1_abstract := p_abstract p;
     n1_authors := p_authors p;
     n1_published := p_published p;
     n1_cluster := p_cluster p;
     n1_cluster_name :=
       JS.or_lit (JS.or (p_cluster_name p)
                        (mapGet (nameMap categories) (p_cluster p)))
                 "Unknown";
     n1_color := JS.or_lit (mapGet (colorMap categories) (p_cluster p)) "#666";
     n1_x := (default 0 (p_x p) * scale1)%Q;
     n1_y := (default 0 (p_y p) * scale1)%Q;
     n1_fx := (default 0 (p_x p) * scale1)%Q;
     n1_fy := (default 0 (p_y p) * scale1)%Q |}.

Definition connects1 (a b : string) (l : GraphLink1) : bool :=
  (bool_decide (l1_source l = a) && bool_decide (l1_target l = b))
  || (bool_decide (l1_source l = b) && bool_decide (l1_target l = a)).

Definition addNeighbor1 (nodeIds : gset string) (paper : Paper)
    (links : list GraphLink1) (neighborId : string) : list GraphLink1 :=
  if negb (bool_decide (neighborId ∈ nodeIds)) then links
  else match List.find (connects1 (arxiv_id paper) neighborId) links with
       | None => links ++ [ {| l1_source := arxiv_id paper;
                               l1_target := neighborId |} ]
       | Some _ => links
       end.

Definition addSimilarity1 (nodeIds : gset string) (links : list GraphLink1)
    (paper : Paper) : list GraphLink1 :=
  match neighbors paper with
  | None => links
  | Some ns => foldl (addNeighbor1 nodeIds paper) links ns
  end.

Definition buildGraphData1 (papers : list Paper) (categories : list Category)
  : GraphData1 :=
  let nodes := map (mkNode1 categories) (List.filter hasCoords papers) in
  let nodeIds := list_to_set (map n1_id nodes) in
  {| nodes1 := nodes;
     links1 := foldl (addSimilarity1 nodeIds) [] papers |}.

(** *** Vocabulary of the further properties *)

Definition jobIds (s : System) : list string := map job_paper (jobs s).

(** What the event loop maintains about the jobs: one live job per paper at
    most, the parsing set is the set of papers with a live job, no live job
    belongs to a parsed paper, and a polling job is within its budget. *)
Definition jobsInv (s : System) : Prop :=
  NoDup (jobIds s)
  ∧ (∀ id, id ∈ parsingPapers (parse (home s)) ↔ id ∈ jobIds s)
  ∧ (∀ id, id ∈ jobIds s → id ∉ parsedPapers (parse (home s)))
  ∧ (∀ id jobId i, mkJob id (Polling jobId i) ∈ jobs s → i < maxPolls).

(** The drag state is idle. *)
Definition dragIdle (d : DockState) : Prop :=
  draggingNode d = None ∧ dragScreenPos d = None ∧ isNearDock d = false
  ∧ draggingNodeRef d = None ∧ isNearDockRef d = false.

(** The id pair of a link of the current builder. *)
Definition idPair (l : GraphLink) : string * string :=
  (endpointId (l_source l), endpointId (l_target l)).

Definition idPair1 (l : GraphLink1) : string * string :=
  (l1_source l, l1_target l).

(** The citation record is kept by the builder. *)
Definition citationKept (nodeIds : gset string) (cl : CitationLink) : bool :=
  bool_decide (cl_source cl ∈ nodeIds) && bool_decide (cl_target cl ∈ nodeIds).

(** Papers 1 and 2 cite each other. *)
Definition mutualCitations : list CitationLink :=
  [ {| cl_source := "p1"; cl_target := "p2" |};
    {| cl_source := "p2"; cl_target := "p1" |} ].

(** The link pushed for a citation record. *)
Definition mkCitation (cl : CitationLink) : GraphLink :=
  {| l_source := EpId (cl_source cl); l_target := EpId (cl_target cl);
     isCitation := Some true |}.

(** Every similarity link was asked for: its source is a paper, its target
    a node id among the neighbours of that paper. *)
Definition asked (papers : list Paper) (nodeIds : gset string) (l : GraphLink)
  : Prop :=
  ∃ p ns b, p ∈ papers ∧ neighbors p = Some ns ∧ b ∈ ns ∧ b ∈ nodeIds
            ∧ l_source l = EpId (arxiv_id p) ∧ l_target l = EpId b.

(** A paper without coordinates that lists paper 1 as a neighbour. *)
Definition withoutCoords : Paper :=
  samplePaper "q0" (Some 0%Z) None None (Some ["p1"]) 0.

(** The node belongs to one of the categories of the table. *)
Definition categorised (categories : list Category) (n : GraphNode) : Prop :=
  ∃ c, c ∈ categories ∧ n_cluster n = Some (c_id c).

(** A calendar for the samples: years as numbers, now is 2026. *)
Definition sampleYearsAgo (k : Z) : Z := (2026 - k)%Z.

(** A result with a paper whose cluster no category describes. *)
Definition strayResult : SearchResult :=
  {| r_papers := threePapers ++ [samplePaper "p4" (Some 9%Z) None (Some (7, 8)%Q) None 1];
     r_categories := twoCategories;
     r_citation_links := [];
     r_expanded_queries := [];
     r_max_citations := 8 |}.

(** The neighbours listed so far, similar ones first. *)
Definition listed (c : Connected) : list GraphNode :=
  connectedSimilar c ++ connectedCitations c.

(** What the tooltip loop maintains: the listed nodes have distinct ids, all
    seen; each is a visible node joined to the hovered node by one of the
    links; and a seen id that a visible node carries is listed. *)
Definition connInv (hoveredNode : GraphNode) (visible : list GraphNode)
    (all : list GraphLink) (c : Connected) : Prop :=
  NoDup (map n_id (listed c))
  ∧ (∀ n, n ∈ listed c →
       n ∈ visible ∧ n_id n ∈ seenIds c
       ∧ ∃ l, l ∈ all ∧ connects (n_id hoveredNode) (n_id n) l = true)
  ∧ (∀ n, n ∈ visible → n_id n ∈ seenIds c → n_id n ∈ map n_id (listed c)).

(** The sample graph with a second link between papers 1 and 2. *)
Definition doubledGraph : GraphData :=
  {| nodes := nodes threeGraph;
     links := links threeGraph
              ++ [mkCitation {| cl_source := "p2"; cl_target := "p1" |}] |}.

(** The refs of the dock mirror its state, and without a dragged node the
    drag state is idle. *)
Definition dockInv (d : DockState) : Prop :=
  draggingNodeRef d = draggingNode d
  ∧ isNearDockRef d = isNearDock d
  ∧ (draggingNodeRef d = None → dragIdle d).

Definition farPos : ScreenPos := {| sx := 400; sy := 150 |}.



(** [busyHome] after the drop of paper 2 and the removal of paper 1. *)
Definition swappedHome : Home :=
  removeFromContext "p1" (onNodeDragEnd (sampleNode "p2") (Some dockPos) busyHome).

(** The guard of [jobStart], on an id. *)
Definition guarded (h : Home) (id : string) : bool :=
  bool_decide (id ∈ parsedPapers (parse h))
  || bool_decide (id ∈ parsingPapers (parse h)).

(** The ids for which one run of the effect starts a job. *)
Definition startedIds (h : Home) : list string :=
  List.filter (fun id => negb (guarded h id))
    (map n_id (added (contextPapers (dock h)) (prevContextPapersRef (parse h)))).

(** The continuation of a job that ends it: the id leaves the parsing set
    and at most this id joins the parsed set. *)
Definition endsJob (id : string) (us : list Update) (h : Home) : Prop :=
  (∀ x, x ∈ parsingPapers (parse (applyUpdates us h))
        ↔ x ∈ parsingPapers (parse h) ∧ x ≠ id)
  ∧ (∀ x, x ∈ parsedPapers (parse (applyUpdates us h))
          → x ∈ parsedPapers (parse h) ∨ x = id).


(** The event is the failure of job [k]: a thrown or non-success submission
    or poll, or a poll that reports "failed". *)
Definition failureOf (e : Event) : option nat :=
  match e with
  | EvSubmit k (SubmitThrew _) | EvSubmit k SubmitNotOk => Some k
  | EvPoll k (PollThrew _) | EvPoll k PollNotOk => Some k
  | EvPoll k (PollJson status _) =>
      if bool_decide (status = "completed") then None
      else if bool_decide (status = "failed") then Some k else None
  | _ => None
  end.

(** The node the sample graph shows at position [k]. *)
Definition shownNode (k : nat) : GraphNode :=
  nth k (nodes threeGraph) (sampleNode "p1").

(** The first two nodes of the sample graph dropped, the effect run: two
    jobs wait for their submission. *)
Definition dropTwo : list Event :=
  [ EvDragEnd (shownNode 0) (Some dockPos);
    EvDragEnd (shownNode 1) (Some dockPos);
    EvEffect ].

(** The query typed and searched; the sample result is shown. *)
Definition searchShown : list Event :=
  [ EvSetQuery "graph neural networks"; EvSearch; EvSearchTimer;
    EvSearchAnswer (SearchResolved sampleResult) ].

(** A further search with the query as it stands, answered by [o]. *)
Definition searchAgain (o : SearchOutcome) : list Event :=
  [ EvSearch; EvSearchTimer; EvSearchAnswer o ].

(** The chat panel opened, a question typed and sent. *)
Definition askQuestion : list Event :=
  [ EvSetChatOpen true; EvSetChatInput "Summarise."; EvSend ].

(** How wide the time window of a date-filter value is; any value other
    than the three windows means no cutoff. *)
Definition windowRank (v : string) : nat :=
  if bool_decide (v = "1y") then 1
  else if bool_decide (v = "2y") then 2
  else if bool_decide (v = "5y") then 3
  else 4.

(** The cutoff [c'] is not later than the cutoff [c]. *)
Definition cutoffLe (c' c : option Z) : Prop :=
  match c', c with
  | None, _ => True
  | Some a, Some b => (a ≤ b)%Z
  | Some _, None => False
  end.

(** What a finished search leaves in the search state, by outcome. *)
Definition searchLeaves (o : SearchOutcome) (before after : Home) : Prop :=
  match o with
  | SearchThrew _ =>
      loadingStatus (search after) = "Search failed"
      ∧ graphData (search after) = None
      ∧ papers (search after) = []
      ∧ length (console after) = S (length (console before))
  | SearchResolved r =>
      match r_papers r with
      | [] =>
          loadingStatus (search after) = "No papers found"
          ∧ graphData (search after) = None
          ∧ papers (search after) = []
          ∧ visibleClusters (search after) = visibleClusters (search before)
          ∧ console after = console before
      | _ :: _ =>
          loadingStatus (search after) = ""
          ∧ graphData (search after)
            = Some (buildGraphData (r_papers r) (r_categories r)
                      (r_citation_links r) (r_max_citations r))
          ∧ papers (search after) = r_papers r
          ∧ categories (search after) = r_categories r
          ∧ expandedQueries (search after) = r_expanded_queries r
          ∧ maxCitations (search after) = r_max_citations r
          ∧ visibleClusters (search after) = list_to_set (map c_id (r_categories r))
          ∧ console after = console before
      end
  end.

(** * Properties *)

Example threeGraph_links :
  links threeGraph =
  [ {| l_source := EpId "p1"; l_target := EpId "p2"; isCitation := Some false |};
    {| l_source := EpId "p3"; l_target := EpId "p1"; isCitation := Some true |} ].
Proof. vm_compute. reflexivity. Qed.

Example threeGraph_pulse :
  map pulse_intensity (nodes threeGraph) = [Qmin 1 (4 / 8); Qmin 1 (8 / 8); Qmin 1 (2 / 8)].
Proof. reflexivity. Qed.

Example threeGraph_names :
  map n_cluster_name (nodes threeGraph) = ["Vision"; "Vision"; "Language"].
Proof. vm_compute. reflexivity. Qed.

Example trim_sample : JS.trim "  two words  " = "two words".
Proof. reflexivity. Qed.

Example blank_sample : JS.blank "   " = true ∧ JS.blank " q " = false.
Proof. split; reflexivity. Qed.

(** ** Graph builder: nodes *)

Lemma buildNodes_elem papers categories maxCitations p :
  p ∈ papers → hasCoords p = true →
  mkNode categories maxCitations p ∈ buildNodes papers categories maxCitations.
Proof.
  intros Hin Hc. unfold buildNodes.
  apply list_elem_of_In, in_map, filter_In. split; [|exact Hc].
  by apply list_elem_of_In.
Qed.

Lemma buildNodes_inv papers categories maxCitations n :
  n ∈ buildNodes papers categories maxCitations →
  ∃ p, p ∈ papers ∧ hasCoords p = true ∧ n = mkNode categories maxCitations p.
Proof.
  unfold buildNodes. intros Hin.
  apply list_elem_of_In, in_map_iff in Hin as (p & <- & Hp).
  apply filter_In in Hp as [Hp Hc].
  exists p. split; [by apply list_elem_of_In | done].
Qed.

Lemma N2Q_nonneg n : (0 <= N2Q n)%Q.
Proof.
  unfold N2Q. change 0%Q with (inject_Z 0). rewrite <- Zle_Qle. lia.
Qed.

Lemma N2Q_pos n : (0 < n)%N → (0 < N2Q n)%Q.
Proof.
  intros H. unfold N2Q. change 0%Q with (inject_Z 0). rewrite <- Zlt_Qlt. lia.
Qed.

Lemma N2Q_le a b : (a ≤ b)%N → (N2Q a <= N2Q b)%Q.
Proof. intros H. unfold N2Q. rewrite <- Zle_Qle. lia. Qed.

Lemma ratio_nonneg c m : (0 < m)%N → (0 <= N2Q c / N2Q m)%Q.
Proof.
  intros Hm. apply Qle_shift_div_l; [by apply N2Q_pos|].
  rewrite Qmult_0_l. apply N2Q_nonneg.
Qed.

Lemma ratio_le_1 c m : (0 < m)%N → (c ≤ m)%N → (N2Q c / N2Q m <= 1)%Q.
Proof.
  intros Hm Hc. apply Qle_shift_div_r; [by apply N2Q_pos|].
  rewrite Qmult_1_l. by apply N2Q_le.
Qed.

Lemma ratio_ge_1 c m : (0 < m)%N → (m ≤ c)%N → (1 <= N2Q c / N2Q m)%Q.
Proof.
  intros Hm Hc. apply Qle_shift_div_l; [by apply N2Q_pos|].
  rewrite Qmult_1_l. by apply N2Q_le.
Qed.

Lemma pulse_pos c m :
  (0 < m)%N → pulse c m = Qmin 1 (N2Q c / N2Q m).
Proof.
  intros Hm. unfold pulse.
  by destruct (N.ltb_spec 0 m) as [_|?]; [|lia].
Qed.

Lemma pulse_range c m : (0 <= pulse c m <= 1)%Q.
Proof.
  unfold pulse. destruct (N.ltb_spec 0 m) as [Hm|Hm].
  - split.
    + apply Q.min_glb; [discriminate | by apply ratio_nonneg].
    + apply Q.le_min_l.
  - split; discriminate.
Qed.

(** C5. For every paper with a valid coordinate and every maximum citation
    count, the node built for the paper is in the graph and its pulse
    intensity is the citation count divided by the maximum, clamped above at
    1, when the maximum is positive (so it is the ratio itself while the
    count does not exceed the maximum, and 1 from there on), and 0 when the
    maximum is 0; the pulse intensity of every node of the graph lies in
    [0, 1]. *)
Theorem pulse_intensity_normalized
    (papers : list Paper) (categories : list Category)
    (citationLinks : list CitationLink) (maxCitations : N) (p : Paper) :
  p ∈ papers → hasCoords p = true →
  let g := buildGraphData papers categories citationLinks maxCitations in
  let n := mkNode categories maxCitations p in
  let c := p_citation_count p in
  n ∈ nodes g
  ∧ ((0 < maxCitations)%N →
       pulse_intensity n = Qmin 1 (N2Q c / N2Q maxCitations)
       ∧ ((c ≤ maxCitations)%N → (pulse_intensity n == N2Q c / N2Q maxCitations)%Q)
       ∧ ((maxCitations ≤ c)%N → (pulse_intensity n == 1)%Q))
  ∧ (maxCitations = 0%N → pulse_intensity n = 0%Q)
  ∧ (∀ n', n' ∈ nodes g → (0 <= pulse_intensity n' <= 1)%Q).
Proof.
  intros Hin Hc g n c. repeat split.
  - by apply buildNodes_elem.
  - by apply pulse_pos.
  - intros Hle. simpl. rewrite pulse_pos by done.
    apply Q.min_r. by apply ratio_le_1.
  - intros Hle. simpl. rewrite pulse_pos by done.
    apply Q.min_l. by apply ratio_ge_1.
  - intros ->. reflexivity.
  - apply buildNodes_inv in H as (q & _ & _ & ->). apply pulse_range.
  - apply buildNodes_inv in H as (q & _ & _ & ->). apply pulse_range.
Qed.

Lemma pulse_intensity_normalized_witness :
  let n := mkNode twoCategories 8 (samplePaper "p1" (Some 0%Z) None (Some (1, 2)%Q) (Some ["p2"]) 4) in
  n ∈ nodes threeGraph ∧ (pulse_intensity n == 1 / 2)%Q.
Proof.
  destruct (pulse_intensity_normalized threePapers twoCategories
              [ {| cl_source := "p3"; cl_target := "p1" |} ] 8
              (samplePaper "p1" (Some 0%Z) None (Some (1, 2)%Q) (Some ["p2"]) 4))
    as (Hn & Hpos & _).
  - apply list_elem_of_In. simpl. left. reflexivity.
  - reflexivity.
  - split; [exact Hn|].
    destruct Hpos as (_ & Hratio & _); [reflexivity|].
    rewrite Hratio; [reflexivity | discriminate].
Defined.

(** *** Fallbacks for a cluster without a category *)

Lemma foldl_insert_None (f : Category → string) categories (m : gmap Z string) k :
  m !! k = None → (∀ c, c ∈ categories → c_id c ≠ k) →
  foldl (fun m c => <[c_id c := f c]> m) m categories !! k = None.
Proof.
  revert m. induction categories as [|c cs IH]; intros m Hm Hne; simpl; [done|].
  apply IH.
  - rewrite lookup_insert_ne; [done|]. apply Hne. by left.
  - intros c' Hc'. apply Hne. by right.
Qed.

Lemma mapGet_noEntry (f : Category → string) categories cl :
  noEntry categories cl →
  mapGet (foldl (fun m c => <[c_id c := f c]> m) ∅ categories) cl = None.
Proof.
  intros Hno. destruct cl as [k|]; simpl; [|done].
  apply foldl_insert_None; [done|].
  intros c Hc Heq. apply (Hno c Hc). by rewrite Heq.
Qed.

(** A paper that carries its own cluster name keeps it, whatever the table
    holds. *)
Lemma nameFromTableOnly_fails : ¬ nameFromTableOnly.
Proof.
  intros H.
  pose (p := samplePaper "p9" (Some 7%Z) (Some "Robotics") (Some (1, 1)%Q) None 0).
  destruct (H [p] [] [] 0%N p) as (_ & _ & Hname).
  - by left.
  - reflexivity.
  - intros c Hc. by apply elem_of_nil in Hc.
  - discriminate Hname.
Qed.

(** C8, amended. For every paper with a valid coordinate whose cluster id has
    no entry in the category table, the builder still produces a node; its
    color is the fallback "#666", and its cluster name is the paper's own
    cluster name when the paper carries a non-empty one and the label
    "Unknown" otherwise. *)
Theorem missing_category_fallback
    (papers : list Paper) (categories : list Category)
    (citationLinks : list CitationLink) (maxCitations : N) (p : Paper) :
  p ∈ papers → hasCoords p = true → noEntry categories (p_cluster p) →
  let n := mkNode categories maxCitations p in
  n ∈ nodes (buildGraphData papers categories citationLinks maxCitations)
  ∧ n_color n = "#666"
  ∧ n_cluster_name n =
      match p_cluster_name p with
      | Some own => if bool_decide (own = "") then "Unknown" else own
      | None => "Unknown"
      end.
Proof.
  intros Hin Hc Hno n. split; [by apply buildNodes_elem|].
  unfold n, mkNode, colorMap, nameMap; simpl.
  rewrite !mapGet_noEntry by done. split; [done|].
  unfold JS.or, JS.truthy.
  destruct (p_cluster_name p) as [own|]; simpl; [|done].
  case_bool_decide; simpl; [done|]. by rewrite bool_decide_eq_false_2.
Qed.

Lemma missing_category_fallback_witness :
  let p := samplePaper "p9" (Some 7%Z) None (Some (1, 1)%Q) None 0 in
  let n := mkNode twoCategories 0 p in
  n ∈ nodes (buildGraphData [p] twoCategories [] 0)
  ∧ n_color n = "#666" ∧ n_cluster_name n = "Unknown".
Proof.
  apply (missing_category_fallback
           [samplePaper "p9" (Some 7%Z) None (Some (1, 1)%Q) None 0]
           twoCategories [] 0).
  - by left.
  - reflexivity.
  - intros c Hc.
    apply list_elem_of_In in Hc. simpl in Hc.
    destruct Hc as [<-|[<-|[]]]; discriminate.
Defined.

(** ** Graph builder: similarity edges *)

Lemma samePair_sym l1 l2 : samePair l1 l2 → samePair l2 l1.
Proof.
  unfold samePair. intros [[H1 H2]|[H1 H2]]; [left|right]; split; congruence.
Qed.

Lemma connects_spec a b l :
  connects a b l = true ↔
  (endpointId (l_source l) = a ∧ endpointId (l_target l) = b)
  ∨ (endpointId (l_source l) = b ∧ endpointId (l_target l) = a).
Proof.
  unfold connects. rewrite orb_true_iff, !andb_true_iff, !bool_decide_eq_true.
  done.
Qed.

Lemma connects_samePair a b l1 l2 :
  connects a b l1 = true → connects a b l2 = true → samePair l1 l2.
Proof.
  rewrite !connects_spec. unfold samePair.
  intros [[H1 H2]|[H1 H2]] [[H3 H4]|[H3 H4]];
    [left|right|right|left]; split; congruence.
Qed.

Lemma pairwiseDistinct_nil : pairwiseDistinct [].
Proof. intros i j l1 l2 _ Hi. by rewrite lookup_nil in Hi. Qed.

Lemma pairwiseDistinct_snoc ls new :
  pairwiseDistinct ls → (∀ l, l ∈ ls → ¬ samePair l new) →
  pairwiseDistinct (ls ++ [new]).
Proof.
  intros Hls Hnew i j l1 l2 Hij Hi Hj.
  apply lookup_snoc_Some in Hi as [[Hi1 Hi2]|[Hi1 Hi2]];
    apply lookup_snoc_Some in Hj as [[Hj1 Hj2]|[Hj1 Hj2]].
  - by apply (Hls i j).
  - subst l2. apply Hnew. by eapply list_elem_of_lookup_2.
  - subst l1. intros Hs. apply samePair_sym in Hs. revert Hs.
    apply Hnew. by eapply list_elem_of_lookup_2.
  - lia.
Qed.

Lemma pairwiseDistinct_cons_inv x ls :
  pairwiseDistinct (x :: ls) →
  pairwiseDistinct ls ∧ ∀ y, y ∈ ls → ¬ samePair x y.
Proof.
  intros H. split.
  - intros i j l1 l2 Hij Hi Hj. apply (H (S i) (S j)); [lia|done..].
  - intros y Hy. apply list_elem_of_lookup in Hy as [j Hj].
    apply (H 0 (S j)); [lia|done..].
Qed.

Lemma filter_none {A} (f : A → bool) (ls : list A) :
  (∀ y, y ∈ ls → f y = false) → List.filter f ls = [].
Proof.
  induction ls as [|y ls IH]; intros H; simpl; [done|].
  rewrite (H y) by (by left). apply IH. intros z Hz. apply H. by right.
Qed.

(** Among pairwise distinct links at most one joins a given pair. *)
Lemma pairwiseDistinct_at_most_one a b ls :
  pairwiseDistinct ls → (length (List.filter (connects a b) ls) ≤ 1)%nat.
Proof.
  induction ls as [|x ls IH]; intros Hd; simpl; [lia|].
  apply pairwiseDistinct_cons_inv in Hd as [Hd Hx].
  destruct (connects a b x) eqn:Hc; [|by apply IH].
  rewrite filter_none; [simpl; lia|].
  intros y Hy. destruct (connects a b y) eqn:Hcy; [|done].
  exfalso. apply (Hx y Hy). by eapply connects_samePair.
Qed.

Lemma addNeighbor_prefix nodeIds paper ls n :
  ls `prefix_of` addNeighbor nodeIds paper ls n.
Proof.
  unfold addNeighbor. destruct (negb _); [done|].
  destruct (List.find _ ls); [done|]. by apply prefix_app_r.
Qed.

Lemma addNeighbor_inv nodeIds paper ls n :
  simInv ls → simInv (addNeighbor nodeIds paper ls n).
Proof.
  intros [Hd Hf]. unfold addNeighbor. destruct (negb _); [done|].
  destruct (List.find _ ls) eqn:Hfind; [done|]. split.
  - apply pairwiseDistinct_snoc; [done|].
    intros l Hl Hsame.
    pose proof (find_none _ _ Hfind l (proj1 (list_elem_of_In _ _) Hl)) as Hc.
    apply not_true_iff_false in Hc. apply Hc, connects_spec.
    destruct Hsame as [[H1 H2]|[H1 H2]]; simpl in *; [left|right]; done.
  - apply Forall_app. split; [done|]. by constructor.
Qed.

Lemma addNeighbor_joined nodeIds paper ls n :
  n ∈ nodeIds →
  ∃ l, l ∈ addNeighbor nodeIds paper ls n ∧ connects (arxiv_id paper) n l = true.
Proof.
  intros Hn. unfold addNeighbor. rewrite bool_decide_eq_true_2 by done. simpl.
  destruct (List.find _ ls) as [l|] eqn:Hfind.
  - apply find_some in Hfind as [Hl Hc]. exists l. split; [|done].
    by apply list_elem_of_In.
  - eexists. split; [apply elem_of_app; right; by left|].
    apply connects_spec. by left.
Qed.

Lemma foldl_addNeighbor nodeIds paper ns ls :
  let r := foldl (addNeighbor nodeIds paper) ls ns in
  ls `prefix_of` r
  ∧ (simInv ls → simInv r)
  ∧ ∀ n, n ∈ ns → n ∈ nodeIds →
      ∃ l, l ∈ r ∧ connects (arxiv_id paper) n l = true.
Proof.
  revert ls. induction ns as [|n0 ns IH]; intros ls; simpl.
  - split; [done|]. split; [done|]. intros n Hn. by apply elem_of_nil in Hn.
  - destruct (IH (addNeighbor nodeIds paper ls n0)) as (Hp & Hi & Hj).
    split; [|split].
    + etrans; [apply addNeighbor_prefix | exact Hp].
    + intros H. by apply Hi, addNeighbor_inv.
    + intros n Hn Hids. apply elem_of_cons in Hn as [->|Hn]; [|by apply Hj].
      destruct (addNeighbor_joined nodeIds paper ls n0 Hids) as (l & Hl & Hc).
      exists l. split; [|done].
      destruct Hp as [ext ->]. apply elem_of_app. by left.
Qed.

Lemma addSimilarity_spec nodeIds ls paper :
  let r := addSimilarity nodeIds ls paper in
  ls `prefix_of` r
  ∧ (simInv ls → simInv r)
  ∧ ∀ ns n, neighbors paper = Some ns → n ∈ ns → n ∈ nodeIds →
      ∃ l, l ∈ r ∧ connects (arxiv_id paper) n l = true.
Proof.
  unfold addSimilarity. destruct (neighbors paper) as [ns|].
  - destruct (foldl_addNeighbor nodeIds paper ns ls) as (Hp & Hi & Hj).
    split; [done|]. split; [done|]. intros ns' n [= <-]. apply Hj.
  - split; [done|]. split; [done|]. intros ns' n [=].
Qed.

Lemma foldl_addSimilarity nodeIds papers ls :
  let r := foldl (addSimilarity nodeIds) ls papers in
  ls `prefix_of` r
  ∧ (simInv ls → simInv r)
  ∧ ∀ paper ns n, paper ∈ papers → neighbors paper = Some ns → n ∈ ns →
      n ∈ nodeIds → ∃ l, l ∈ r ∧ connects (arxiv_id paper) n l = true.
Proof.
  revert ls. induction papers as [|p0 ps IH]; intros ls; simpl.
  - split; [done|]. split; [done|]. intros p ns n Hp. by apply elem_of_nil in Hp.
  - destruct (IH (addSimilarity nodeIds ls p0)) as (Hp & Hi & Hj).
    destruct (addSimilarity_spec nodeIds ls p0) as (Hp0 & Hi0 & Hj0).
    split; [|split].
    + etrans; [exact Hp0 | exact Hp].
    + intros H. by apply Hi, Hi0.
    + intros p ns n Hin Hns Hn Hids.
      apply elem_of_cons in Hin as [->|Hin]; [|by eapply Hj].
      destruct (Hj0 ns n Hns Hn Hids) as (l & Hl & Hc).
      exists l. split; [|done].
      destruct Hp as [ext ->]. apply elem_of_app. by left.
Qed.

Lemma foldl_addCitation nodeIds cls ls :
  ∃ cits, foldl (addCitation nodeIds) ls cls = ls ++ cits
          ∧ Forall (fun l => isCitation l = Some true) cits.
Proof.
  revert ls. induction cls as [|c cls IH]; intros ls; simpl.
  - exists []. by rewrite app_nil_r.
  - unfold addCitation at 2. destruct (_ && _).
    + destruct (IH (ls ++ [ {| l_source := EpId (cl_source c);
                               l_target := EpId (cl_target c);
                               isCitation := Some true |} ])) as (cits & -> & Hc).
      eexists (_ :: cits). rewrite <- app_assoc. split; [done|].
      by constructor.
    + apply IH.
Qed.

(** The similarity edges of the built graph are the ones of the first
    loop. *)
Lemma similarity_of_build papers categories citationLinks maxCitations :
  List.filter isSimilarity
    (links (buildGraphData papers categories citationLinks maxCitations))
  = similarityLinks (idSet (buildNodes papers categories maxCitations)) papers
  ∧ simInv (similarityLinks (idSet (buildNodes papers categories maxCitations)) papers).
Proof.
  set (ids := idSet _).
  destruct (foldl_addSimilarity ids papers []) as (_ & Hinv & _).
  assert (simInv (similarityLinks ids papers)) as Hsim.
  { apply Hinv. split; [apply pairwiseDistinct_nil | constructor]. }
  split; [|done]. unfold buildGraphData; simpl. fold ids.
  destruct (foldl_addCitation ids citationLinks (similarityLinks ids papers))
    as (cits & -> & Hc).
  rewrite List.filter_app.
  assert (List.filter isSimilarity cits = []) as ->.
  { apply filter_none. intros y Hy.
    rewrite Forall_forall in Hc. unfold isSimilarity. by rewrite (Hc y Hy). }
  rewrite app_nil_r.
  destruct Hsim as [_ Hf]. clear -Hf.
  induction Hf as [|x ls Hx Hf IH]; simpl; [done|].
  unfold isSimilarity at 1. rewrite Hx. by f_equal.
Qed.

Lemma idSet_buildNodes papers categories maxCitations p :
  p ∈ papers → hasCoords p = true →
  arxiv_id p ∈ idSet (buildNodes papers categories maxCitations).
Proof.
  intros Hin Hc. unfold idSet. apply elem_of_list_to_set.
  apply list_elem_of_In, in_map_iff.
  exists (mkNode categories maxCitations p). split; [done|].
  apply list_elem_of_In. by apply buildNodes_elem.
Qed.

(** C4. In the graph built from any paper list, no two similarity edges join
    the same unordered pair of node ids; and when two papers A and B, both
    with valid coordinates, each list the other as a neighbour, exactly one
    similarity edge joins A and B. *)
Theorem similarity_edges_deduplicated
    (papers : list Paper) (categories : list Category)
    (citationLinks : list CitationLink) (maxCitations : N) :
  let g := buildGraphData papers categories citationLinks maxCitations in
  let sim := List.filter isSimilarity (links g) in
  pairwiseDistinct sim
  ∧ ∀ A B nsA nsB,
      A ∈ papers → B ∈ papers → hasCoords A = true → hasCoords B = true →
      neighbors A = Some nsA → arxiv_id B ∈ nsA →
      neighbors B = Some nsB → arxiv_id A ∈ nsB →
      length (List.filter (connects (arxiv_id A) (arxiv_id B)) sim) = 1%nat.
Proof.
  intros g sim.
  destruct (similarity_of_build papers categories citationLinks maxCitations)
    as [Heq [Hd Hf]].
  fold g in Heq. fold sim in Heq. rewrite Heq.
  split; [done|].
  intros A B nsA nsB HA HB HcA HcB HnA HBin _ _.
  pose proof (pairwiseDistinct_at_most_one (arxiv_id A) (arxiv_id B) _ Hd) as Hle.
  destruct (foldl_addSimilarity (idSet (buildNodes papers categories maxCitations))
              papers []) as (_ & _ & Hj).
  destruct (Hj A nsA (arxiv_id B) HA HnA HBin) as (l & Hl & Hc).
  { by apply idSet_buildNodes. }
  set (joining := List.filter (connects (arxiv_id A) (arxiv_id B)) _) in *.
  assert (l ∈ joining) as Hin.
  { apply list_elem_of_In, filter_In. split; [by apply list_elem_of_In | done]. }
  destruct joining as [|x [|y rest]]; simpl in *;
    [by apply elem_of_nil in Hin | done | lia].
Qed.

Lemma similarity_edges_deduplicated_witness :
  length (List.filter (connects "p1" "p2")
            (List.filter isSimilarity (links threeGraph))) = 1%nat.
Proof.
  destruct (similarity_edges_deduplicated threePapers twoCategories
              [ {| cl_source := "p3"; cl_target := "p1" |} ] 8) as [_ H].
  apply (H (samplePaper "p1" (Some 0%Z) None (Some (1, 2)%Q) (Some ["p2"]) 4)
           (samplePaper "p2" (Some 0%Z) None (Some (3, 4)%Q) (Some ["p1"]) 8)
           ["p2"] ["p1"]);
    try reflexivity; try (by left); try (by right; left).
Defined.

(** A neighbour listed twice, a pair listed from both sides and a paper
    that lists itself each yield a single edge. *)
Example dedup_sample :
  map (fun l => (endpointId (l_source l), endpointId (l_target l)))
    (links (buildGraphData
              [ samplePaper "a" None None (Some (0, 0)%Q) (Some ["b"; "b"; "a"]) 0;
                samplePaper "b" None None (Some (0, 0)%Q) (Some ["a"]) 0 ]
              [] [] 0))
  = [("a", "b"); ("a", "a")].
Proof. vm_compute. reflexivity. Qed.

(** ** Filter engine *)

(** Hiding cluster 1 (paper 3) removes the citation edge from paper 3 and
    keeps the edge between papers 1 and 2. *)
Example filter_sample :
  (fun g => (map n_id (nodes g),
             map (fun l => (endpointId (l_source l), endpointId (l_target l)))
                 (links g)))
    <$> filteredGraphData sampleParseDate (Some renderedGraph) {[0%Z]} None threePapers
  = Some (["p1"; "p2"], [("p1", "p2")]).
Proof. vm_compute. reflexivity. Qed.

Section FilterProperties.

Variable parseDate : string -> option Z.

Lemma linkVisible_spec (ns : list GraphNode) (l : GraphLink) :
  linkVisible (idSet ns) l = true ↔
  endpointId (l_source l) ∈ map n_id ns ∧ endpointId (l_target l) ∈ map n_id ns.
Proof.
  unfold linkVisible, idSet.
  by rewrite andb_true_iff, !bool_decide_eq_true, !elem_of_list_to_set.
Qed.

(** C1. For every full graph, every set of visible clusters and every
    optional date cutoff, each link of the filtered graph has its source
    and its target, taken as ids whether the link holds an id or a node
    reference, among the ids of the filtered nodes. *)
Theorem edge_validity
    (graphData : option GraphData) (visibleClusters : gset Z)
    (dateFilterCutoff : option Z) (papers : list Paper)
    (fg : GraphData) (l : GraphLink) :
  filteredGraphData parseDate graphData visibleClusters dateFilterCutoff papers
    = Some fg →
  l ∈ links fg →
  endpointId (l_source l) ∈ map n_id (nodes fg)
  ∧ endpointId (l_target l) ∈ map n_id (nodes fg).
Proof.
  unfold filteredGraphData. destruct graphData as [g|]; [|done].
  intros [= <-]; simpl. intros Hl.
  apply list_elem_of_In, filter_In in Hl as [_ Hv].
  by apply linkVisible_spec.
Qed.

(** The filtered graph is a view: its nodes and links are nodes and links
    of the full graph, and a visible link is kept. *)
Lemma filtered_is_view g visibleClusters dateFilterCutoff papers fg :
  filteredGraphData parseDate (Some g) visibleClusters dateFilterCutoff papers
    = Some fg →
  nodes fg ⊆ nodes g ∧ links fg ⊆ links g.
Proof.
  intros [= <-]; simpl. split; intros x Hx;
    apply list_elem_of_In, filter_In in Hx as [Hx _]; by apply list_elem_of_In.
Qed.

(** C10. With a date cutoff set, a node of the full graph whose id matches
    no paper of the current paper list is never excluded by the cutoff:
    when its cluster is visible it is in the filtered graph. *)
Theorem unmatched_node_ignores_cutoff
    (g : GraphData) (visibleClusters : gset Z) (cutoff : Z)
    (papers : list Paper) (node : GraphNode) :
  node ∈ nodes g →
  (∀ p, p ∈ papers → arxiv_id p ≠ n_id node) →
  clusterVisible visibleClusters (n_cluster node) = true →
  ∃ fg, filteredGraphData parseDate (Some g) visibleClusters (Some cutoff) papers
          = Some fg
        ∧ node ∈ nodes fg.
Proof.
  intros Hin Hno Hvis. eexists. split; [reflexivity|]. simpl.
  apply list_elem_of_In, filter_In. split; [by apply list_elem_of_In|].
  unfold nodeVisible. rewrite Hvis. simpl.
  destruct (List.find _ papers) as [p|] eqn:Hfind; [|done].
  apply find_some in Hfind as [Hp Heq].
  apply bool_decide_eq_true in Heq.
  exfalso. apply (Hno p); [by apply list_elem_of_In | done].
Qed.

End FilterProperties.

Lemma edge_validity_witness :
  ∃ fg l,
    filteredGraphData sampleParseDate (Some renderedGraph) {[0%Z]} None threePapers
      = Some fg
    ∧ l ∈ links fg
    ∧ endpointId (l_source l) ∈ map n_id (nodes fg)
    ∧ endpointId (l_target l) ∈ map n_id (nodes fg).
Proof.
  eexists _, _.
  assert (filteredGraphData sampleParseDate (Some renderedGraph) {[0%Z]} None
            threePapers = Some _) as Hf by (vm_compute; reflexivity).
  split; [exact Hf|]. split; [by left|].
  apply (edge_validity sampleParseDate _ _ _ _ _ _ Hf). by left.
Defined.

(** A node left over from an earlier search stays visible under a cutoff
    that excludes every current paper. *)
Lemma unmatched_node_ignores_cutoff_witness :
  ∃ fg node,
    filteredGraphData sampleParseDate (Some threeGraph) {[0%Z; 1%Z]} (Some 2030%Z)
      [samplePaper "p2" (Some 0%Z) None (Some (3, 4)%Q) (Some ["p1"]) 8] = Some fg
    ∧ n_id node = "p1" ∧ node ∈ nodes fg ∧ length (nodes fg) = 2.
Proof.
  destruct (unmatched_node_ignores_cutoff sampleParseDate threeGraph
              {[0%Z; 1%Z]} 2030
              [samplePaper "p2" (Some 0%Z) None (Some (3, 4)%Q) (Some ["p1"]) 8]
              (mkNode twoCategories 8
                 (samplePaper "p1" (Some 0%Z) None (Some (1, 2)%Q) (Some ["p2"]) 4)))
    as (fg & Hfg & Hin).
  - by left.
  - intros p Hp. apply list_elem_of_In in Hp. simpl in Hp.
    destruct Hp as [<-|[]]. discriminate.
  - vm_compute. reflexivity.
  - exists fg, (mkNode twoCategories 8
                  (samplePaper "p1" (Some 0%Z) None (Some (1, 2)%Q) (Some ["p2"]) 4)).
    split; [exact Hfg|]. split; [reflexivity|]. split; [exact Hin|].
    revert Hfg. vm_compute. intros [= <-]. reflexivity.
Defined.

(** ** Search coordinator *)

(** In [busyHome] the context paper and the two chat messages are still
    there when the collaborator is invoked. *)
Lemma searchClearsSession_fails : ¬ searchClearsSession.
Proof.
  intros H.
  destruct (H busyHome) as (_ & _ & _ & _ & _ & Hctx & _);
    [reflexivity | reflexivity | discriminate Hctx].
Qed.

Lemma handleSearch_after_keeps o h :
  dock (handleSearch_after o h) = dock h
  ∧ chat (handleSearch_after o h) = chat h
  ∧ parse (handleSearch_after o h) = parse h.
Proof.
  unfold handleSearch_after. destruct o as [e|r]; [done|].
  by destruct (_ =? _).
Qed.

(** C2, amended. For every invocation of the search operation with a
    non-blank query while no search is in flight, the graph, the papers, the
    categories, the expanded-query list and the date filter are cleared (the
    date filter is back to "all") before the search collaborator is invoked,
    and the loading flag is set; the context set and the chat transcript are
    left as they were, then and when the search has finished, whatever the
    collaborator answers. *)
Theorem search_resets_search_state
    (searchPapers : string → N → SearchOutcome) (h : Home) :
  JS.blank (query (search h)) = false → isLoading (search h) = false →
  let h' := handleSearch_before h in
  let h'' := handleSearch searchPapers h in
  h'' = handleSearch_after
          (searchPapers (query (search h)) (paperCount (search h))) h'
  ∧ isLoading (search h') = true
  ∧ graphData (search h') = None
  ∧ papers (search h') = []
  ∧ categories (search h') = []
  ∧ expandedQueries (search h') = []
  ∧ dateFilter (search h') = "all"
  ∧ contextPapers (dock h') = contextPapers (dock h)
  ∧ chatMessages (chat h') = chatMessages (chat h)
  ∧ contextPapers (dock h'') = contextPapers (dock h)
  ∧ chatMessages (chat h'') = chatMessages (chat h).
Proof.
  intros Hq Hl h' h''.
  assert (h'' = handleSearch_after
                  (searchPapers (query (search h)) (paperCount (search h))) h') as Heq.
  { unfold h'', handleSearch, searchRefused. by rewrite Hq, Hl. }
  split; [exact Heq|].
  repeat (split; [reflexivity|]).
  rewrite Heq.
  destruct (handleSearch_after_keeps
              (searchPapers (query (search h)) (paperCount (search h))) h')
    as (-> & -> & _).
  done.
Qed.

Lemma search_resets_search_state_witness :
  let h' := handleSearch_before busyHome in
  let h'' := handleSearch (fun _ _ => SearchResolved sampleResult) busyHome in
  graphData (search h') = None
  ∧ contextPapers (dock h') = [sampleNode "p1"]
  ∧ length (chatMessages (chat h'')) = 2.
Proof.
  destruct (search_resets_search_state (fun _ _ => SearchResolved sampleResult)
              busyHome) as (_ & _ & Hg & _ & _ & _ & _ & Hc & _ & _ & Hm);
    [reflexivity | reflexivity |].
  split; [exact Hg|]. split; [exact Hc|]. by rewrite Hm.
Defined.

(** A blank query or a search in flight leaves everything as it is. *)
Lemma handleSearch_refused searchPapers h :
  searchRefused h = true → handleSearch searchPapers h = h.
Proof. intros H. unfold handleSearch. by rewrite H. Qed.

(** What a finished search leaves: the loading flag is down, and a
    non-empty result shows every returned cluster. *)
Lemma handleSearch_after_result r h :
  r_papers r ≠ [] →
  let s := search (handleSearch_after (SearchResolved r) h) in
  isLoading s = false
  ∧ papers s = r_papers r
  ∧ graphData s = Some (buildGraphData (r_papers r) (r_categories r)
                          (r_citation_links r) (r_max_citations r))
  ∧ ∀ c, c ∈ r_categories r → c_id c ∈ visibleClusters s.
Proof.
  intros Hne. unfold handleSearch_after.
  destruct (r_papers r) as [|p ps] eqn:Hp; [done|]. simpl.
  rewrite Hp. repeat split.
  intros c Hc. apply elem_of_list_to_set, list_elem_of_In, in_map.
  by apply list_elem_of_In.
Qed.

(** ** Context dock *)

Lemma find_id_None (node : GraphNode) (ctx : list GraphNode) :
  List.find (fun p => bool_decide (n_id p = n_id node)) ctx = None ↔
  n_id node ∉ map n_id ctx.
Proof.
  induction ctx as [|p ctx IH]; simpl.
  - split; [intros _ H; by apply elem_of_nil in H | done].
  - case_bool_decide as Hp.
    + split; [done|]. intros H. exfalso. apply H. rewrite Hp. by left.
    + rewrite IH. split.
      * intros H Hin. apply elem_of_cons in Hin as [Heq|Hin]; [congruence|done].
      * intros H Hin. apply H. by right.
Qed.

Lemma addToContext_present node ctx :
  n_id node ∈ map n_id ctx → addToContext node ctx = ctx.
Proof.
  intros Hin. unfold addToContext.
  destruct (List.find _ ctx) eqn:Hf; [done|].
  by apply find_id_None in Hf.
Qed.

Lemma addToContext_absent node ctx :
  n_id node ∉ map n_id ctx → addToContext node ctx = ctx ++ [node].
Proof.
  intros Hin. unfold addToContext. by apply find_id_None in Hin as ->.
Qed.

Lemma addToContext_has node ctx : n_id node ∈ map n_id (addToContext node ctx).
Proof.
  destruct (decide (n_id node ∈ map n_id ctx)) as [Hin|Hin].
  - by rewrite addToContext_present.
  - rewrite addToContext_absent by done. rewrite map_app. simpl.
    apply elem_of_app. right. by left.
Qed.

Lemma addToContext_twice node ctx :
  addToContext node (addToContext node ctx) = addToContext node ctx.
Proof. apply addToContext_present, addToContext_has. Qed.

Lemma addToContext_NoDup node ctx :
  NoDup (map n_id ctx) → NoDup (map n_id (addToContext node ctx)).
Proof.
  intros Hnd. destruct (decide (n_id node ∈ map n_id ctx)) as [Hin|Hin].
  - by rewrite addToContext_present.
  - rewrite addToContext_absent by done. rewrite map_app. simpl.
    apply NoDup_app. split; [done|]. split.
    + intros x Hx Hx'. apply list_elem_of_singleton in Hx'. by subst x.
    + apply NoDup_singleton.
Qed.

(** In a list without duplicate ids, an id that occurs has one entry. *)
Lemma one_entry (id : string) (ctx : list GraphNode) :
  NoDup (map n_id ctx) → id ∈ map n_id ctx →
  length (List.filter (fun p => bool_decide (n_id p = id)) ctx) = 1.
Proof.
  induction ctx as [|p ctx IH]; simpl; intros Hnd Hin.
  - by apply elem_of_nil in Hin.
  - apply NoDup_cons in Hnd as [Hp Hnd]. case_bool_decide as Heq.
    + simpl. f_equal. rewrite filter_none; [done|].
      intros y Hy. apply bool_decide_eq_false. intros Hy'.
      apply Hp. rewrite Heq, <- Hy'.
      apply list_elem_of_In, in_map. by apply list_elem_of_In.
    + apply IH; [done|]. apply elem_of_cons in Hin as [Hin|Hin]; [congruence|done].
Qed.

Lemma onNodeDragEnd_context node coords h :
  contextPapers (dock (onNodeDragEnd node (Some coords) h))
  = if nearDock coords then addToContext node (contextPapers (dock h))
    else contextPapers (dock h).
Proof. unfold onNodeDragEnd; simpl. by destruct (nearDock coords). Qed.

Lemma handleMouseUp_context node h :
  draggingNodeRef (dock h) = Some node →
  contextPapers (dock (handleMouseUp h))
  = if isNearDockRef (dock h) then addToContext node (contextPapers (dock h))
    else contextPapers (dock h).
Proof.
  intros Href. unfold handleMouseUp. rewrite Href; simpl.
  by destruct (isNearDockRef (dock h)).
Qed.

(** C6. Adding a node to the context set is idempotent. For every state and
    every release in the dock zone of a node: when the id of the node is
    already in the context set, the set is unchanged, through the drag-end
    callback and through the mouse-up listener alike; a second release of the
    same node, through either handler, changes nothing after the first; and
    when the ids of the context set were distinct they stay distinct and the
    id of the node has exactly one entry. *)
Theorem context_add_idempotent (h : Home) (node : GraphNode) (coords : ScreenPos) :
  nearDock coords = true →
  let ctx := contextPapers (dock h) in
  let dragEnd := onNodeDragEnd node (Some coords) in
  let entries (h : Home) :=
    List.filter (fun p => bool_decide (n_id p = n_id node)) (contextPapers (dock h)) in
  (n_id node ∈ map n_id ctx →
     contextPapers (dock (dragEnd h)) = ctx
     ∧ (draggingNodeRef (dock h) = Some node → isNearDockRef (dock h) = true →
        contextPapers (dock (handleMouseUp h)) = ctx))
  ∧ contextPapers (dock (dragEnd (dragEnd h))) = contextPapers (dock (dragEnd h))
  ∧ (draggingNodeRef (dock h) = Some node → isNearDockRef (dock h) = true →
     contextPapers (dock (dragEnd (handleMouseUp h)))
     = contextPapers (dock (handleMouseUp h)))
  ∧ (NoDup (map n_id ctx) →
     NoDup (map n_id (contextPapers (dock (dragEnd (dragEnd h)))))
     ∧ length (entries (dragEnd (dragEnd h))) = 1).
Proof.
  intros Hnear ctx dragEnd entries. unfold dragEnd, entries.
  repeat split.
  - rewrite onNodeDragEnd_context, Hnear. by apply addToContext_present.
  - intros Href Hdock. rewrite (handleMouseUp_context node) by done.
    rewrite Hdock. by apply addToContext_present.
  - rewrite !onNodeDragEnd_context, Hnear. apply addToContext_twice.
  - intros Href Hdock. rewrite onNodeDragEnd_context, Hnear.
    rewrite (handleMouseUp_context node) by done. rewrite Hdock.
    apply addToContext_twice.
  - rewrite !onNodeDragEnd_context, Hnear. by do 2 apply addToContext_NoDup.
  - rewrite !onNodeDragEnd_context, Hnear. apply one_entry.
    + by do 2 apply addToContext_NoDup.
    + apply addToContext_has.
Qed.

Lemma context_add_idempotent_witness :
  let h2 := onNodeDragEnd (sampleNode "p1") (Some dockPos)
              (onNodeDragEnd (sampleNode "p1") (Some dockPos) busyHome) in
  contextPapers (dock h2) = [sampleNode "p1"]
  ∧ NoDup (map n_id (contextPapers (dock h2))).
Proof.
  destruct (context_add_idempotent busyHome (sampleNode "p1") dockPos)
    as (Hpresent & Htwice & _ & Hset); [reflexivity|].
  destruct Hpresent as [Hone _]; [by left|].
  destruct Hset as [Hnd _]; [apply NoDup_singleton|].
  split; [|exact Hnd].
  etrans; [exact Htwice | exact Hone].
Defined.

(** A drag into the dock, released: the mouse-up listener and the drag-end
    callback both fire, and the paper is added once. *)
Example drop_sample :
  map n_id
    (contextPapers
       (dock (onNodeDragEnd (sampleNode "p2") (Some dockPos)
                (handleMouseUp
                   (onNodeDrag (sampleNode "p2") (Some dockPos) busyHome)))))
  = ["p1"; "p2"].
Proof. reflexivity. Qed.

(** ** Membership diff *)

Lemma includes_spec ids id : includes ids id = true ↔ id ∈ ids.
Proof. unfold includes. apply bool_decide_eq_true. Qed.

(** C7. The membership diff is complete and correct: for every previous
    membership list and every current context set, the ids of the added
    papers are exactly the current ids that are not previous ones, and the
    removed ids are exactly the previous ids that are not current ones; the
    effect then records the current ids as the previous ones of its next
    run. *)
Theorem membership_diff_complete (h : Home) (id : string) :
  let ctx := contextPapers (dock h) in
  let currentIds := map n_id ctx in
  let prevIds := prevContextPapersRef (parse h) in
  (id ∈ map n_id (added ctx prevIds) ↔ id ∈ currentIds ∧ id ∉ prevIds)
  ∧ (id ∈ removed prevIds currentIds ↔ id ∈ prevIds ∧ id ∉ currentIds)
  ∧ prevContextPapersRef (parse (fst (contextEffect h))) = currentIds.
Proof.
  cbv zeta. split; [|split].
  - unfold added. rewrite !list_elem_of_In, !in_map_iff. split.
    + intros (p & <- & Hp). apply filter_In in Hp as [Hp Hnew].
      split.
      * by exists p.
      * intros Hprev. apply list_elem_of_In, includes_spec in Hprev.
        by rewrite Hprev in Hnew.
    + intros [(p & <- & Hp) Hnew].
      exists p. split; [done|]. apply filter_In. split; [done|].
      apply negb_true_iff, not_true_iff_false.
      by rewrite includes_spec, list_elem_of_In.
  - unfold removed. rewrite list_elem_of_In, filter_In, <- list_elem_of_In.
    rewrite negb_true_iff, <- not_true_iff_false, includes_spec. done.
  - reflexivity.
Qed.

(** Previous membership [A, B], current membership [B, C]. *)
Example diff_sample :
  let ctx := [sampleNode "B"; sampleNode "C"] in
  map n_id (added ctx ["A"; "B"]) = ["C"]
  ∧ removed ["A"; "B"] (map n_id ctx) = ["A"].
Proof. split; reflexivity. Qed.

(** ** Parse jobs *)

Lemma run_reachable es s s' : reachable s → run es s = Some s' → reachable s'.
Proof.
  revert s. induction es as [|e es IH]; simpl; intros s Hs Hrun.
  - by injection Hrun as <-.
  - destruct (step e s) as [s1|] eqn:Hstep; [|done].
    apply (IH s1); [|done]. by eapply reachable_step.
Qed.

(** The events of the search, of the chat and of the controls leave the
    dock, the status sets and the parse jobs as they are. *)
Lemma step_frame e s s' :
  sessionEvent e = true → step e s = Some s' →
  dock (home s') = dock (home s)
  ∧ parse (home s') = parse (home s)
  ∧ jobs s' = jobs s.
Proof.
  destruct e; try discriminate; intros _; simpl.
  - by intros [= <-].
  - by intros [= <-].
  - destruct (searchRefused (home s)); by intros [= <-].
  - destruct (searching s) as [[q n|q n]|]; try done. by intros [= <-].
  - destruct (searching s) as [[q n|q n]|]; try done. intros [= <-]; simpl.
    destruct o as [err|r]; simpl; [done|]. by destruct (length (r_papers r) =? 0).
  - by intros [= <-].
  - by intros [= <-].
  - by intros [= <-].
  - by intros [= <-].
  - by intros [= <-].
  - destruct (chatRefused _ (home s)); by intros [= <-].
  - destruct (chatting s); [|done]. intros [= <-]; simpl. by destruct o.
Qed.

(** The three events of a search do what [handleSearch] does with the
    answer of the collaborator, and the two events of a chat request what
    [sendChatMessage] does. *)
Lemma search_events_agree (o : SearchOutcome) (s : System) :
  searchRefused (home s) = false →
  home <$> run [EvSearch; EvSearchTimer; EvSearchAnswer o] s
  = Some (handleSearch (fun _ _ => o) (home s)).
Proof. intros Hg. unfold handleSearch. cbn [run step]. by rewrite Hg. Qed.

Lemma chat_events_agree (o : ChatOutcome) (s : System) :
  chatRefused (chatInput (chat (home s))) (home s) = false →
  home <$> run [EvSend; EvChatAnswer o] s
  = Some (sendChatMessage (fun _ => o) (chatInput (chat (home s))) (home s)).
Proof. intros Hg. unfold sendChatMessage. cbn [run step]. by rewrite Hg. Qed.

Example submitted_sample :
  (fun s => (statusSets s, jobs s)) <$> run dropP1 initialSystem
  = Some ((["p1"], []), [mkJob "p1" AwaitSubmit]).
Proof. vm_compute. reflexivity. Qed.

(** A cached submission marks the paper parsed with no poll. *)
Example cached_sample :
  (fun s => (statusSets s, jobs s))
    <$> run (dropP1 ++ [EvSubmit 0 cachedAnswer]) initialSystem
  = Some (([], ["p1"]), []).
Proof. vm_compute. reflexivity. Qed.

(** A first poll that reports a failure ends the job; the paper is in
    neither set. *)
Example failed_poll_sample :
  (fun s => (statusSets s, jobs s, length (console (home s))))
    <$> run (dropP1 ++ [EvSubmit 0 queuedAnswer; EvPoll 0 (PollJson "failed" "boom")])
          initialSystem
  = Some (([], []), [], 1).
Proof. vm_compute. reflexivity. Qed.

(** Only the two status sets matter for disjointness. *)
Lemma statusDisjoint_parse h h' :
  parsedPapers (parse h') = parsedPapers (parse h) →
  parsingPapers (parse h') = parsingPapers (parse h) →
  statusDisjoint h → statusDisjoint h'.
Proof. unfold statusDisjoint. by intros -> ->. Qed.

Lemma applyUpdates_dock us h : dock (applyUpdates us h) = dock h.
Proof.
  unfold applyUpdates. revert h.
  induction us as [|u us IH]; intros h; cbn [foldl]; [done|].
  rewrite IH. by destruct u.
Qed.

(** The updates the effect issues add to the parsing set only ids that the
    guard found outside the parsed set. *)
Lemma effectUpdates_guarded h :
  Forall (fun u => ∃ id, u = SetParsingAdd id ∧ id ∉ parsedPapers (parse h))
         (effectUpdates h).
Proof.
  unfold effectUpdates, effectStarts.
  induction (added _ _) as [|paper ps IH]; simpl; [constructor|].
  apply Forall_app. split; [|exact IH].
  unfold jobStart. destruct (_ || _) eqn:Hguard; simpl; [constructor|].
  apply orb_false_iff in Hguard as [Hparsed _].
  apply bool_decide_eq_false in Hparsed.
  constructor; [|constructor]. by exists (n_id paper).
Qed.

Lemma guarded_adds_disjoint (parsed : gset string) us h :
  Forall (fun u => ∃ id, u = SetParsingAdd id ∧ id ∉ parsed) us →
  parsedPapers (parse h) = parsed →
  statusDisjoint h →
  statusDisjoint (applyUpdates us h)
  ∧ parsedPapers (parse (applyUpdates us h)) = parsed.
Proof.
  intros Hus. revert h. induction Hus as [|u us (id & -> & Hid) _ IH];
    intros h Hparsed Hdis; simpl; [done|].
  apply IH; [done|].
  intros x [Hx1 Hx2]. simpl in *.
  apply elem_of_union in Hx1 as [Hx1|Hx1].
  - by apply (Hdis x).
  - apply elem_of_singleton in Hx1. subst x. by rewrite Hparsed in Hx2.
Qed.

Lemma contextEffect_disjoint h :
  statusDisjoint h → statusDisjoint (fst (contextEffect h)).
Proof.
  intros Hdis. unfold contextEffect; simpl.
  match goal with
  | |- statusDisjoint (withParse _ (applyUpdates _ ?h1)) =>
      destruct (guarded_adds_disjoint (parsedPapers (parse h)) (effectUpdates h) h1
                  (effectUpdates_guarded h) eq_refl Hdis) as [Hd _]
  end.
  revert Hd. by apply statusDisjoint_parse.
Qed.

(** Removing from the parsing set and logging keep the sets disjoint; so
    does adding to the parsed set when the removal from the parsing set
    follows. *)
Lemma delete_disjoint id h :
  statusDisjoint h → statusDisjoint (applyUpdate h (SetParsingDelete id)).
Proof.
  intros Hdis x [Hx1 Hx2]. simpl in *.
  apply elem_of_difference in Hx1 as [Hx1 _]. by apply (Hdis x).
Qed.

Lemma console_disjoint msg h :
  statusDisjoint h → statusDisjoint (applyUpdate h (ConsoleError msg)).
Proof. by apply statusDisjoint_parse. Qed.

Lemma parsed_then_delete_disjoint id h :
  statusDisjoint h →
  statusDisjoint (applyUpdate (applyUpdate h (SetParsedAdd id)) (SetParsingDelete id)).
Proof.
  intros Hdis x [Hx1 Hx2]. simpl in *.
  apply elem_of_difference in Hx1 as [Hx1 Hne].
  apply elem_of_union in Hx2 as [Hx2|Hx2]; [by apply (Hdis x) | done].
Qed.

Lemma onSubmit_disjoint id r h :
  statusDisjoint h → statusDisjoint (applyUpdates (fst (onSubmit id r)) h).
Proof.
  intros Hdis. unfold onSubmit, applyUpdates.
  destruct r as [e| |cached status job_id]; cbn [fst jobCatch jobFinally app foldl].
  - by apply delete_disjoint, console_disjoint.
  - by apply delete_disjoint, console_disjoint.
  - destruct (cached || _); cbn [fst app foldl].
    + by apply delete_disjoint, parsed_then_delete_disjoint.
    + destruct (0 <? maxPolls); cbn [fst foldl]; [done|].
      by apply delete_disjoint.
Qed.

Lemma onPoll_disjoint id jobId i r h :
  statusDisjoint h → statusDisjoint (applyUpdates (fst (onPoll id jobId i r)) h).
Proof.
  intros Hdis. unfold onPoll, applyUpdates.
  destruct r as [e| |status error]; cbn [fst jobCatch jobFinally app foldl].
  - by apply delete_disjoint, console_disjoint.
  - by apply delete_disjoint, console_disjoint.
  - destruct (bool_decide (status = "completed")); cbn [fst app foldl].
    + by apply parsed_then_delete_disjoint.
    + destruct (bool_decide (status = "failed")); cbn [fst app foldl].
      * by apply delete_disjoint, console_disjoint.
      * destruct (S i <? maxPolls); cbn [fst foldl]; [done|].
        by apply delete_disjoint.
Qed.

Lemma step_disjoint e s s' :
  step e s = Some s' → statusDisjoint (home s) → statusDisjoint (home s').
Proof.
  destruct (sessionEvent e) eqn:He.
  { intros Hstep. destruct (step_frame e s s' He Hstep) as (_ & Hp & _).
    apply statusDisjoint_parse; by rewrite Hp. }
  destruct e as [node coords| |node coords|paperId| |k r|k r| | | | | | | | | | | |];
    try discriminate He; simpl.
  - by intros [= <-].
  - intros [= <-]; simpl. unfold handleMouseUp.
    by destruct (draggingNodeRef _).
  - by intros [= <-].
  - by intros [= <-].
  - intros [= <-]; simpl. apply contextEffect_disjoint.
  - destruct (jobs s !! k) as [[id [|jobId i]]|]; [|done..].
    intros [= <-]; simpl. apply onSubmit_disjoint.
  - destruct (jobs s !! k) as [[id [|jobId i]]|]; [done| |done].
    intros [= <-]; simpl. apply onPoll_disjoint.
Qed.

(** C3. The two status sets are disjoint. For every paper id, at every
    observable point of the running component no id is in both the parsing
    set and the parsed set: in every state the event loop can reach, that
    is after the state updates of every submission, cached result, poll,
    completion, failure and cleanup, whatever the order in which searches,
    filter changes, drops, removals, effect runs, chat requests and the
    answers to the jobs of different papers interleave. *)
Theorem status_sets_disjoint (s : System) :
  reachable s →
  ∀ id : string,
    ¬ (id ∈ parsingPapers (parse (home s)) ∧ id ∈ parsedPapers (parse (home s))).
Proof.
  intros Hs. change (statusDisjoint (home s)).
  induction Hs as [|e s s' _ IH Hstep].
  - intros id [H _]. simpl in H. by apply not_elem_of_empty in H.
  - by eapply step_disjoint.
Qed.

Lemma status_sets_disjoint_witness :
  ∃ s, run (searchShown ++ dropP1 ++ askQuestion
            ++ [EvSubmit 0 cachedAnswer; EvChatAnswer (ChatJson "A summary.")])
         initialSystem = Some s
       ∧ statusSets s = ([], ["p1"])
       ∧ ¬ ("p1" ∈ parsingPapers (parse (home s))
            ∧ "p1" ∈ parsedPapers (parse (home s))).
Proof.
  match goal with
  | |- ∃ s, run ?es ?s0 = _ ∧ _ =>
      destruct (run es s0) as [s|] eqn:Hrun; [|by vm_compute in Hrun]
  end.
  exists s. split; [reflexivity|]. split.
  - revert Hrun. vm_compute. by intros [= <-].
  - apply (status_sets_disjoint s).
    eapply run_reachable; [apply reachable_init | exact Hrun].
Defined.

(** The ids of the context set of a running component are distinct. *)
Lemma reachable_context_NoDup s :
  reachable s → NoDup (map n_id (contextPapers (dock (home s)))).
Proof.
  induction 1 as [|e s s' _ IH Hstep]; [constructor|].
  destruct (sessionEvent e) eqn:He.
  { destruct (step_frame e s s' He Hstep) as (Hd & _). by rewrite Hd. }
  destruct e as [node coords| |node coords|paperId| |k r|k r| | | | | | | | | | | |];
    try discriminate He; simpl in Hstep.
  - injection Hstep as <-; simpl. by destruct coords.
  - injection Hstep as <-; simpl. unfold handleMouseUp.
    destruct (draggingNodeRef _) as [node|] eqn:Href; [|done]. simpl.
    destruct (isNearDockRef _); simpl; [by apply addToContext_NoDup | done].
  - injection Hstep as <-; simpl.
    destruct coords as [c|]; simpl; [|done].
    destruct (nearDock c); simpl; [by apply addToContext_NoDup | done].
  - injection Hstep as <-; simpl.
    clear -IH. induction (contextPapers _) as [|p ctx IHc]; simpl; [constructor|].
    apply NoDup_cons in IH as [Hp Hnd].
    destruct (negb _); simpl; [|by apply IHc].
    apply NoDup_cons. split; [|by apply IHc].
    intros Hin. apply Hp.
    apply list_elem_of_In, in_map_iff in Hin as (q & Hq & Hin).
    apply filter_In in Hin as [Hin _].
    apply list_elem_of_In, in_map_iff. by exists q.
  - injection Hstep as <-; simpl. by rewrite applyUpdates_dock.
  - destruct (jobs s !! k) as [[id [|jobId i]]|]; [|done..].
    injection Hstep as <-; simpl. by rewrite applyUpdates_dock.
  - destruct (jobs s !! k) as [[id [|jobId i]]|]; [done| |done].
    injection Hstep as <-; simpl. by rewrite applyUpdates_dock.
Qed.

Lemma foldl_pushMessage ms c :
  foldl (fun c m => pushMessage m c) c ms
  = {| chatOpen := chatOpen c; chatMessages := chatMessages c ++ ms;
       chatInput := chatInput c; chatLoading := chatLoading c;
       webSearchEnabled := webSearchEnabled c |}.
Proof.
  revert c. induction ms as [|m ms IH]; intros c; simpl.
  - rewrite app_nil_r. by destruct c.
  - rewrite IH. simpl. by rewrite <- app_assoc.
Qed.

Lemma applyUpdates_chat us h : chat (applyUpdates us h) = chat h.
Proof.
  unfold applyUpdates. revert h.
  induction us as [|u us IH]; intros h; cbn [foldl]; [done|].
  rewrite IH. by destruct u.
Qed.

Lemma applyUpdates_search us h : search (applyUpdates us h) = search h.
Proof.
  unfold applyUpdates. revert h.
  induction us as [|u us IH]; intros h; cbn [foldl]; [done|].
  rewrite IH. by destruct u.
Qed.

Lemma step_flagsInv e s s' : step e s = Some s' → flagsInv s → flagsInv s'.
Proof.
  unfold flagsInv.
  destruct e; simpl.
  - by intros [= <-].
  - intros [= <-]; simpl. unfold handleMouseUp. by destruct (draggingNodeRef _).
  - by intros [= <-].
  - by intros [= <-].
  - intros [= <-]; simpl. rewrite applyUpdates_search.
    match goal with
    | |- context [chat (applyUpdates ?us ?h)] => rewrite (applyUpdates_chat us h)
    end.
    simpl. by rewrite foldl_pushMessage.
  - destruct (jobs s !! k) as [[id [|jobId i]]|]; [|done..].
    intros [= <-]; simpl. by rewrite applyUpdates_search, applyUpdates_chat.
  - destruct (jobs s !! k) as [[id [|jobId i]]|]; [done| |done].
    intros [= <-]; simpl. by rewrite applyUpdates_search, applyUpdates_chat.
  - by intros [= <-].
  - by intros [= <-].
  - destruct (searchRefused (home s)); intros [= <-]; [done|]. simpl.
    intros [_ Hc]. split; [|done]. by split.
  - destruct (searching s) as [[q n|q n]|] eqn:Hs; try done. intros [= <-]; simpl.
    intros [Hl Hc]. split; [|done]. split; [done|]. intros _. by apply Hl.
  - destruct (searching s) as [[q n|q n]|]; try done. intros [= <-]; simpl.
    intros [_ Hc]. split.
    + destruct o as [err|r]; simpl; [done|]. by destruct (length (r_papers r) =? 0).
    + destruct o as [err|r]; simpl; [done|]. by destruct (length (r_papers r) =? 0).
  - by intros [= <-].
  - by intros [= <-].
  - by intros [= <-].
  - by intros [= <-].
  - by intros [= <-].
  - destruct (chatRefused _ (home s)); intros [= <-]; [done|]. simpl.
    intros [Hl _]. split; [done|]. by split.
  - destruct (chatting s); [|done]. intros [= <-]; simpl.
    intros [Hl _]. split; [by destruct o|]. by destruct o.
Qed.

(** In the running component a second search, or a second chat request, is
    refused exactly while the first is suspended. *)
Lemma reachable_flagsInv s : reachable s → flagsInv s.
Proof.
  induction 1 as [|e s s' _ IH Hstep].
  - split; simpl; split; done.
  - by eapply step_flagsInv.
Qed.

(** ** Chat session *)

Lemma sendChatMessage_accepted backend message h :
  chatRefused message h = false →
  sendChatMessage backend message h
  = sendChatMessage_after (backend (chatRequest message h))
      (sendChatMessage_before message h).
Proof. intros H. unfold sendChatMessage. by rewrite H. Qed.

(** The request carries the context papers, the last ten messages of the
    transcript as it was before the send, and the web-search flag. *)
Lemma chatRequest_history message h :
  length (req_history (chatRequest message h)) ≤ 10
  ∧ req_history (chatRequest message h) `suffix_of` chatMessages (chat h)
  ∧ map pc_arxiv_id (req_papers (chatRequest message h))
    = map n_id (contextPapers (dock h)).
Proof.
  simpl. unfold sliceLast. split; [|split].
  - rewrite length_drop. lia.
  - apply suffix_drop.
  - by rewrite map_map.
Qed.

(** C9. For every chat send that is not refused and whose backend call fails
    (a thrown error or a non-success response), the transcript grows by the
    user message followed by exactly one assistant message, which carries the
    fixed fallback text; one line is logged to the console; and the in-flight
    flag is cleared, so that a later send of a non-blank message with a
    non-empty context set is not refused. *)
Theorem chat_failure_recovers
    (backend : ChatRequest → ChatOutcome) (message : string) (h : Home) :
  chatRefused message h = false →
  chatFailed (backend (chatRequest message h)) = true →
  let h' := sendChatMessage backend message h in
  chatMessages (chat h')
  = chatMessages (chat h)
      ++ [ {| role := user; content := message |};
           {| role := assistant; content := fallbackReply |} ]
  ∧ length (console h') = S (length (console h))
  ∧ chatLoading (chat h') = false
  ∧ contextPapers (dock h') = contextPapers (dock h)
  ∧ ∀ message', JS.blank message' = false → contextPapers (dock h') ≠ [] →
      chatRefused message' h' = false.
Proof.
  intros Hacc Hfail h'. unfold h'. rewrite sendChatMessage_accepted by done.
  destruct (backend (chatRequest message h)) as [e|status|response];
    [| |discriminate Hfail]; simpl.
  - rewrite <- app_assoc, length_app; simpl.
    repeat split; [lia|].
    intros message' Hb Hctx. unfold chatRefused; simpl. rewrite Hb.
    by destruct (contextPapers (dock h)).
  - rewrite <- app_assoc, length_app; simpl.
    repeat split; [lia|].
    intros message' Hb Hctx. unfold chatRefused; simpl. rewrite Hb.
    by destruct (contextPapers (dock h)).
Qed.

Lemma chat_failure_recovers_witness :
  let h' := sendChatMessage (fun _ => ChatNotOk 503) "And the method?" busyHome in
  map role (chatMessages (chat h')) = [user; assistant; user; assistant]
  ∧ chatRefused "Again?" h' = false.
Proof.
  destruct (chat_failure_recovers (fun _ => ChatNotOk 503) "And the method?" busyHome)
    as (Hlog & _ & _ & _ & Hnext); [reflexivity | reflexivity |].
  split.
  - rewrite Hlog. reflexivity.
  - apply Hnext; [reflexivity | discriminate].
Defined.

(** On success the reply of the backend is the one message appended after
    the user message, and a send is refused while another is in flight or
    while the context set is empty. *)
Lemma chat_success backend message h response :
  chatRefused message h = false →
  backend (chatRequest message h) = ChatJson response →
  chatMessages (chat (sendChatMessage backend message h))
  = chatMessages (chat h)
      ++ [ {| role := user; content := message |};
           {| role := assistant; content := response |} ].
Proof.
  intros Hacc Hok. rewrite sendChatMessage_accepted by done. rewrite Hok; simpl.
  by rewrite <- app_assoc.
Qed.

Lemma chat_refused_noop backend message h :
  contextPapers (dock h) = [] ∨ chatLoading (chat h) = true →
  sendChatMessage backend message h = h.
Proof.
  intros H. unfold sendChatMessage, chatRefused.
  destruct H as [-> | ->]; simpl; by rewrite ?orb_true_r.
Qed.

(** * Further properties *)

(** ** Graph builder: shape of the link list *)

Lemma foldl_addCitation_exact nodeIds cls ls :
  foldl (addCitation nodeIds) ls cls
  = ls ++ map mkCitation (List.filter (citationKept nodeIds) cls).
Proof.
  revert ls. induction cls as [|c cls IH]; intros ls; simpl.
  - by rewrite app_nil_r.
  - rewrite IH. unfold addCitation, citationKept.
    destruct (_ && _); simpl; [|done]. by rewrite <- app_assoc.
Qed.

(** The links of the built graph: the similarity links, then one link per
    kept citation record. *)
Lemma build_links_split papers categories citationLinks maxCitations :
  let ids := idSet (buildNodes papers categories maxCitations) in
  links (buildGraphData papers categories citationLinks maxCitations)
  = similarityLinks ids papers
    ++ map mkCitation (List.filter (citationKept ids) citationLinks).
Proof. simpl. apply foldl_addCitation_exact. Qed.

Lemma filter_all {A} (f : A → bool) (ls : list A) :
  (∀ y, y ∈ ls → f y = true) → List.filter f ls = ls.
Proof.
  induction ls as [|y ls IH]; intros H; simpl; [done|].
  rewrite (H y) by (by left). f_equal. apply IH. intros z Hz. apply H. by right.
Qed.

(** X1. The citation edges of the built graph are, in the order of the
    input, exactly the citation records whose source and target are both
    node ids: nothing is dropped for being the reverse or a repetition of
    another record, or for joining a pair that a similarity edge joins. *)
Theorem citation_edges_exact
    (papers : list Paper) (categories : list Category)
    (citationLinks : list CitationLink) (maxCitations : N) :
  let g := buildGraphData papers categories citationLinks maxCitations in
  List.filter (fun l => negb (isSimilarity l)) (links g)
  = map mkCitation (List.filter (citationKept (idSet (nodes g))) citationLinks).
Proof.
  intros g. unfold g. rewrite build_links_split. simpl.
  destruct (similarity_of_build papers categories citationLinks maxCitations)
    as [_ [_ Hf]].
  rewrite List.filter_app, filter_none, filter_all; [done| |].
  - intros y Hy. apply list_elem_of_In, in_map_iff in Hy as (c & <- & _). done.
  - intros y Hy. rewrite Forall_forall in Hf.
    unfold isSimilarity. by rewrite (Hf y Hy).
Qed.

(** Two papers that cite each other and are neighbours: one similarity
    edge, two citation edges. *)
Example mutual_citation_sample :
  map (fun l => (idPair l, isCitation l))
      (links (buildGraphData threePapers twoCategories mutualCitations 8))
  = [ (("p1", "p2"), Some false);
      (("p1", "p2"), Some true);
      (("p2", "p1"), Some true) ].
Proof. vm_compute. reflexivity. Qed.

Lemma addNeighbor_asked papers nodeIds paper ns ls n :
  paper ∈ papers → neighbors paper = Some ns → n ∈ ns →
  Forall (asked papers nodeIds) ls →
  Forall (asked papers nodeIds) (addNeighbor nodeIds paper ls n).
Proof.
  intros Hp Hns Hn Hls. unfold addNeighbor.
  case_bool_decide as Hids; simpl; [|done].
  destruct (List.find _ ls); [done|].
  apply Forall_app. split; [done|]. constructor; [|constructor].
  by exists paper, ns, n.
Qed.

Lemma foldl_addNeighbor_asked papers nodeIds paper ns ms ls :
  paper ∈ papers → neighbors paper = Some ns → (∀ n, n ∈ ms → n ∈ ns) →
  Forall (asked papers nodeIds) ls →
  Forall (asked papers nodeIds) (foldl (addNeighbor nodeIds paper) ls ms).
Proof.
  intros Hp Hns. revert ls. induction ms as [|m ms IH]; intros ls Hms Hls; simpl.
  - done.
  - apply IH.
    + intros n Hn. apply Hms. by right.
    + eapply addNeighbor_asked; [done..| |done]. apply Hms. by left.
Qed.

Lemma foldl_addSimilarity_asked papers nodeIds ps ls :
  (∀ p, p ∈ ps → p ∈ papers) →
  Forall (asked papers nodeIds) ls →
  Forall (asked papers nodeIds) (foldl (addSimilarity nodeIds) ls ps).
Proof.
  revert ls. induction ps as [|p ps IH]; intros ls Hps Hls; simpl; [done|].
  apply IH; [intros q Hq; apply Hps; by right|].
  unfold addSimilarity. destruct (neighbors p) as [ns|] eqn:Hns; [|done].
  eapply foldl_addNeighbor_asked; [apply Hps; by left|done|done|done].
Qed.

Lemma similarityLinks_asked papers nodeIds :
  Forall (asked papers nodeIds) (similarityLinks nodeIds papers).
Proof. apply foldl_addSimilarity_asked; [done | constructor]. Qed.

Lemma elem_of_idSet ns id : id ∈ idSet ns ↔ id ∈ map n_id ns.
Proof. unfold idSet. apply elem_of_list_to_set. Qed.

Lemma elem_of_app_filter_isSimilarity l ls cs :
  l ∈ ls ++ map mkCitation cs →
  Forall (fun l => isCitation l = Some false) ls →
  if isSimilarity l then l ∈ ls else ∃ c, c ∈ cs ∧ l = mkCitation c.
Proof.
  intros Hl Hf. apply elem_of_app in Hl as [Hl|Hl].
  - rewrite Forall_forall in Hf. unfold isSimilarity. by rewrite (Hf l Hl).
  - apply list_elem_of_In, in_map_iff in Hl as (c & <- & Hc). simpl.
    exists c. split; [by apply list_elem_of_In | done].
Qed.

(** X2. No similarity edge is invented: each one goes from the id of an
    input paper to an id that this paper lists as a neighbour and that is
    the id of a node. *)
Theorem similarity_edges_sound
    (papers : list Paper) (categories : list Category)
    (citationLinks : list CitationLink) (maxCitations : N) (l : GraphLink) :
  let g := buildGraphData papers categories citationLinks maxCitations in
  l ∈ links g → isSimilarity l = true →
  ∃ p ns b, p ∈ papers ∧ neighbors p = Some ns ∧ b ∈ ns
            ∧ b ∈ map n_id (nodes g)
            ∧ l_source l = EpId (arxiv_id p) ∧ l_target l = EpId b.
Proof.
  intros g Hl Hsim. unfold g in Hl. rewrite build_links_split in Hl.
  destruct (similarity_of_build papers categories citationLinks maxCitations)
    as [_ [_ Hf]].
  pose proof (elem_of_app_filter_isSimilarity _ _ _ Hl Hf) as H.
  rewrite Hsim in H.
  pose proof (similarityLinks_asked papers
                (idSet (buildNodes papers categories maxCitations))) as Hasked.
  rewrite Forall_forall in Hasked.
  destruct (Hasked l H) as (p & ns & b & Hp & Hns & Hb & Hids & Hs & Ht).
  exists p, ns, b. repeat split; try done. by apply elem_of_idSet.
Qed.

Lemma similarity_edges_sound_witness :
  ∃ l p ns b,
    l ∈ links threeGraph ∧ p ∈ threePapers ∧ neighbors p = Some ns ∧ b ∈ ns
    ∧ idPair l = (arxiv_id p, b) ∧ idPair l = ("p1", "p2").
Proof.
  pose (l := {| l_source := EpId "p1"; l_target := EpId "p2";
                isCitation := Some false |}).
  destruct (similarity_edges_sound threePapers twoCategories
              [ {| cl_source := "p3"; cl_target := "p1" |} ] 8 l)
    as (p & ns & b & Hp & Hns & Hb & _ & Hs & Ht).
  - change (l ∈ links threeGraph). rewrite threeGraph_links. by left.
  - reflexivity.
  - exists l, p, ns, b. repeat split; try done.
    + rewrite threeGraph_links. by left.
    + unfold idPair. by rewrite Hs, Ht.
Defined.

(** X3. Every link of the built graph points at a node: its target is a
    node id, and so is the source of every citation edge. *)
Theorem link_targets_are_nodes
    (papers : list Paper) (categories : list Category)
    (citationLinks : list CitationLink) (maxCitations : N) (l : GraphLink) :
  let g := buildGraphData papers categories citationLinks maxCitations in
  l ∈ links g →
  endpointId (l_target l) ∈ map n_id (nodes g)
  ∧ (isSimilarity l = false → endpointId (l_source l) ∈ map n_id (nodes g)).
Proof.
  intros g Hl. unfold g in Hl. rewrite build_links_split in Hl.
  destruct (similarity_of_build papers categories citationLinks maxCitations)
    as [_ [_ Hf]].
  pose proof (elem_of_app_filter_isSimilarity _ _ _ Hl Hf) as H.
  destruct (isSimilarity l) eqn:Hsim.
  - split; [|done].
    pose proof (similarityLinks_asked papers
                  (idSet (buildNodes papers categories maxCitations))) as Hasked.
    rewrite Forall_forall in Hasked.
    destruct (Hasked l H) as (p & ns & b & _ & _ & _ & Hids & _ & ->).
    by apply elem_of_idSet.
  - destruct H as (c & Hc & ->).
    apply list_elem_of_In, filter_In in Hc as [_ Hkept].
    apply andb_true_iff in Hkept as [Hs Ht].
    apply bool_decide_eq_true, elem_of_idSet in Hs, Ht. by split.
Qed.

Lemma link_targets_are_nodes_witness :
  Forall (fun l => endpointId (l_target l) ∈ map n_id (nodes threeGraph))
         (links threeGraph).
Proof.
  apply Forall_forall. intros l Hl.
  apply (link_targets_are_nodes threePapers twoCategories
           [ {| cl_source := "p3"; cl_target := "p1" |} ] 8 l Hl).
Defined.

(** X4. A listed neighbour that is a node is always joined to the paper that
    lists it by a similarity edge, also when the listing paper has no
    coordinate and hence no node: the edge then starts at an id that is not
    a node id. *)
Theorem listed_neighbour_is_joined
    (papers : list Paper) (categories : list Category)
    (citationLinks : list CitationLink) (maxCitations : N)
    (p : Paper) (ns : list string) (b : string) :
  let g := buildGraphData papers categories citationLinks maxCitations in
  p ∈ papers → neighbors p = Some ns → b ∈ ns → b ∈ map n_id (nodes g) →
  (∃ l, l ∈ links g ∧ isSimilarity l = true
        ∧ connects (arxiv_id p) b l = true)
  ∧ (arxiv_id p ∉ map n_id (nodes g) →
     ∃ l, l ∈ links g ∧ idPair l = (arxiv_id p, b)
          ∧ endpointId (l_source l) ∉ map n_id (nodes g)).
Proof.
  intros g Hp Hns Hb Hnode.
  set (ids := idSet (buildNodes papers categories maxCitations)).
  destruct (foldl_addSimilarity ids papers []) as (_ & _ & Hj).
  destruct (Hj p ns b Hp Hns Hb) as (l & Hl & Hc); [by apply elem_of_idSet|].
  destruct (similarity_of_build papers categories citationLinks maxCitations)
    as [_ [_ Hf]].
  assert (l ∈ links g) as Hlg.
  { unfold g. rewrite build_links_split. apply elem_of_app. by left. }
  assert (isSimilarity l = true) as Hsim.
  { rewrite Forall_forall in Hf. unfold isSimilarity. by rewrite (Hf l Hl). }
  split; [by exists l|].
  intros Hdangling. exists l. split; [done|].
  pose proof (similarityLinks_asked papers ids) as Hasked.
  rewrite Forall_forall in Hasked.
  destruct (Hasked l Hl) as (p' & ns' & b' & _ & _ & _ & Hb' & Hs & Ht).
  apply connects_spec in Hc. rewrite Hs, Ht in Hc. simpl in Hc.
  destruct Hc as [[Hc1 Hc2]|[Hc1 Hc2]].
  - unfold idPair. rewrite Hs, Ht. simpl. rewrite Hc1, Hc2.
    split; [done | exact Hdangling].
  - exfalso. apply Hdangling. rewrite <- Hc2. by apply elem_of_idSet.
Qed.

Lemma listed_neighbour_is_joined_witness :
  let g := buildGraphData (withoutCoords :: threePapers) twoCategories [] 8 in
  ∃ l, l ∈ links g ∧ idPair l = ("q0", "p1")
       ∧ endpointId (l_source l) ∉ map n_id (nodes g).
Proof.
  destruct (listed_neighbour_is_joined (withoutCoords :: threePapers) twoCategories
              [] 8 withoutCoords ["p1"] "p1") as [_ H].
  - by left.
  - reflexivity.
  - by left.
  - simpl. by left.
  - apply H. simpl. intros Hin.
    apply list_elem_of_In in Hin. simpl in Hin.
    destruct Hin as [Hin|[Hin|[Hin|[]]]]; discriminate Hin.
Defined.

(** ** Graph builder: category table *)

Lemma foldl_insert_other (f : Category → string) categories (m : gmap Z string) k :
  (∀ c, c ∈ categories → c_id c ≠ k) →
  foldl (fun m c => <[c_id c := f c]> m) m categories !! k = m !! k.
Proof.
  revert m. induction categories as [|c cs IH]; intros m Hne; simpl; [done|].
  rewrite IH by (intros c' Hc'; apply Hne; by right).
  apply lookup_insert_ne. apply Hne. by left.
Qed.

Lemma foldl_insert_last (f : Category → string) cs1 c cs2 (m : gmap Z string) :
  (∀ c', c' ∈ cs2 → c_id c' ≠ c_id c) →
  foldl (fun m c => <[c_id c := f c]> m) m (cs1 ++ c :: cs2) !! c_id c
  = Some (f c).
Proof.
  intros Hne. rewrite foldl_app. simpl.
  rewrite foldl_insert_other by done. apply lookup_insert_eq.
Qed.

(** X5. When several categories share an id the last one decides: a node
    whose cluster is that id takes the color of the last such category
    ("#666" if that color is empty), and, unless the paper carries a
    non-empty cluster name of its own, its name ("Unknown" if that name is
    empty). *)
Theorem category_last_wins
    (cs1 cs2 : list Category) (c : Category) (maxCitations : N) (p : Paper) :
  p_cluster p = Some (c_id c) →
  (∀ c', c' ∈ cs2 → c_id c' ≠ c_id c) →
  let n := mkNode (cs1 ++ c :: cs2) maxCitations p in
  n_color n = (if bool_decide (c_color c = "") then "#666" else c_color c)
  ∧ (JS.truthy (p_cluster_name p) = false →
     n_cluster_name n
     = if bool_decide (c_name c = "") then "Unknown" else c_name c).
Proof.
  intros Hcl Hlast n. unfold n, mkNode, colorMap, nameMap; simpl.
  rewrite Hcl; simpl. rewrite !foldl_insert_last by done. split; [done|].
  intros Hown. unfold JS.or. by rewrite Hown.
Qed.

Lemma category_last_wins_witness :
  let cats := [ sampleCategory 0 "Vision" "#f00"; sampleCategory 1 "Language" "#0f0";
                sampleCategory 0 "Robotics" "#00f" ] in
  let n := mkNode cats 8 (samplePaper "p1" (Some 0%Z) None (Some (1, 2)%Q) None 4) in
  n_color n = "#00f" ∧ n_cluster_name n = "Robotics".
Proof.
  destruct (category_last_wins
              [ sampleCategory 0 "Vision" "#f00"; sampleCategory 1 "Language" "#0f0" ]
              [] (sampleCategory 0 "Robotics" "#00f") 8
              (samplePaper "p1" (Some 0%Z) None (Some (1, 2)%Q) None 4))
    as [Hcolor Hname].
  - reflexivity.
  - intros c' Hc'. by apply elem_of_nil in Hc'.
  - split; [exact Hcolor | by apply Hname].
Defined.

(** ** The first revision of the builder *)

Lemma connects1_idPair a b l l1 :
  idPair l = idPair1 l1 → connects a b l = connects1 a b l1.
Proof. unfold idPair, idPair1, connects, connects1. by intros [= -> ->]. Qed.

Lemma find_idPair a b ls ls1 :
  map idPair ls = map idPair1 ls1 →
  List.find (connects a b) ls = None ↔ List.find (connects1 a b) ls1 = None.
Proof.
  revert ls1. induction ls as [|l ls IH]; intros [|l1 ls1] Heq; simpl in *;
    try done.
  injection Heq as Hs Ht Hls.
  rewrite (connects1_idPair a b l l1) by (unfold idPair, idPair1; congruence).
  destruct (connects1 a b l1); [done|]. by apply IH.
Qed.

Lemma addNeighbor1_idPair ids paper ls ls1 n :
  map idPair ls = map idPair1 ls1 →
  map idPair (addNeighbor ids paper ls n)
  = map idPair1 (addNeighbor1 ids paper ls1 n).
Proof.
  intros Heq. unfold addNeighbor, addNeighbor1. destruct (negb _); [done|].
  pose proof (find_idPair (arxiv_id paper) n ls ls1 Heq) as Hfind.
  destruct (List.find _ ls) as [x|], (List.find _ ls1) as [x1|].
  - done.
  - discriminate (proj2 Hfind eq_refl).
  - discriminate (proj1 Hfind eq_refl).
  - by rewrite !map_app, Heq.
Qed.

Lemma foldl_addSimilarity1_idPair ids papers ls ls1 :
  map idPair ls = map idPair1 ls1 →
  map idPair (foldl (addSimilarity ids) ls papers)
  = map idPair1 (foldl (addSimilarity1 ids) ls1 papers).
Proof.
  revert ls ls1. induction papers as [|p ps IH]; intros ls ls1 Heq; simpl; [done|].
  apply IH. unfold addSimilarity, addSimilarity1.
  destruct (neighbors p) as [ns|]; [|done].
  revert ls ls1 Heq. induction ns as [|n ns IHn]; intros ls ls1 Heq; simpl; [done|].
  by apply IHn, addNeighbor1_idPair.
Qed.

(** X6. The first revision of the builder, which knows no citations, and the
    current one agree on the papers they keep and on the similarity edges:
    the same node ids in the same order, and the same edges, with the same
    direction, in the same order. In the first revision every node is pinned
    at its position. *)
Theorem first_revision_agrees
    (papers : list Paper) (categories : list Category)
    (citationLinks : list CitationLink) (maxCitations : N) :
  let g1 := buildGraphData1 papers categories in
  let g := buildGraphData papers categories citationLinks maxCitations in
  map n1_id (nodes1 g1) = map n_id (nodes g)
  ∧ map idPair1 (links1 g1) = map idPair (List.filter isSimilarity (links g))
  ∧ Forall (fun n => n1_fx n = n1_x n ∧ n1_fy n = n1_y n) (nodes1 g1).
Proof.
  cbv zeta.
  assert (map n1_id (nodes1 (buildGraphData1 papers categories))
          = map n_id (nodes (buildGraphData papers categories citationLinks
                               maxCitations))) as Hids.
  { unfold buildGraphData1, buildGraphData, buildNodes; simpl.
    by rewrite !map_map. }
  split; [exact Hids|]. split.
  - destruct (similarity_of_build papers categories citationLinks maxCitations)
      as [-> _].
    unfold buildGraphData1, similarityLinks; simpl.
    symmetry.
    assert (list_to_set (map n1_id (map (mkNode1 categories)
                                      (List.filter hasCoords papers)))
            = idSet (buildNodes papers categories maxCitations)) as ->.
    { unfold idSet. f_equal. exact Hids. }
    by apply foldl_addSimilarity1_idPair.
  - apply Forall_forall. intros n Hn. simpl in Hn.
    apply list_elem_of_In, in_map_iff in Hn as (p & <- & _). done.
Qed.

(** ** Filter engine: the view *)

Lemma filter_sublist {A} (f : A → bool) (l : list A) :
  List.filter f l `sublist_of` l.
Proof.
  induction l as [|x l IH]; simpl; [done|].
  destruct (f x); [by apply sublist_skip | by apply sublist_cons].
Qed.

Lemma filter_filter_same {A} (f : A → bool) (l : list A) :
  List.filter f (List.filter f l) = List.filter f l.
Proof.
  apply filter_all. intros y Hy.
  by apply list_elem_of_In, filter_In in Hy as [_ Hy].
Qed.

Lemma filter_ext_in' {A} (f g : A → bool) (l : list A) :
  (∀ y, y ∈ l → f y = g y) → List.filter f l = List.filter g l.
Proof.
  intros H. apply filter_ext_in. intros y Hy. apply H. by apply list_elem_of_In.
Qed.

Lemma filter_filter_and {A} (f g : A → bool) (l : list A) :
  List.filter f (List.filter g l) = List.filter (fun y => g y && f y) l.
Proof.
  induction l as [|x l IH]; simpl; [done|].
  destruct (g x); simpl; [|done]. destruct (f x); by rewrite IH.
Qed.

Section ViewProperties.

Variable parseDate : string -> option Z.

(** X7. The filtered graph is a view of the full graph that loses no valid
    edge: its nodes and its links are sub-lists of those of the full graph,
    in their order, and every link of the full graph whose two endpoint ids
    are ids of visible nodes is in it. *)
Theorem filter_is_complete_view
    (g fg : GraphData) (visibleClusters : gset Z) (dateFilterCutoff : option Z)
    (papers : list Paper) :
  filteredGraphData parseDate (Some g) visibleClusters dateFilterCutoff papers
    = Some fg →
  nodes fg `sublist_of` nodes g
  ∧ links fg `sublist_of` links g
  ∧ ∀ l, l ∈ links g →
      endpointId (l_source l) ∈ map n_id (nodes fg) →
      endpointId (l_target l) ∈ map n_id (nodes fg) →
      l ∈ links fg.
Proof.
  intros [= <-]; simpl. split; [apply filter_sublist|].
  split; [apply filter_sublist|].
  intros l Hl Hs Ht. apply list_elem_of_In, filter_In.
  split; [by apply list_elem_of_In|]. by apply linkVisible_spec.
Qed.

(** X8. Filtering is idempotent: the view of a view, under the same visible
    clusters, cutoff and paper list, is the view itself. *)
Theorem filter_idempotent
    (graphData : option GraphData) (visibleClusters : gset Z)
    (dateFilterCutoff : option Z) (papers : list Paper) :
  filteredGraphData parseDate
    (filteredGraphData parseDate graphData visibleClusters dateFilterCutoff papers)
    visibleClusters dateFilterCutoff papers
  = filteredGraphData parseDate graphData visibleClusters dateFilterCutoff papers.
Proof.
  destruct graphData as [g|]; [|done]. unfold filteredGraphData; simpl.
  by rewrite !filter_filter_same.
Qed.

Lemma nodeVisible_mono vc vc' cutoff papers n :
  vc ⊆ vc' →
  nodeVisible parseDate vc cutoff papers n = true →
  nodeVisible parseDate vc' cutoff papers n = true.
Proof.
  intros Hsub. unfold nodeVisible, clusterVisible.
  destruct (n_cluster n) as [c|]; simpl; [|done].
  case_bool_decide as Hc; simpl; [|done].
  rewrite bool_decide_eq_true_2; [done|]. by apply Hsub.
Qed.

Lemma nodeVisible_no_cutoff vc cutoff papers n :
  nodeVisible parseDate vc cutoff papers n = true →
  nodeVisible parseDate vc None papers n = true.
Proof.
  unfold nodeVisible. destruct (negb _); [done|]. by destruct cutoff.
Qed.

Lemma nodeVisible_earlier vc c c' papers n :
  (c ≤ c')%Z →
  nodeVisible parseDate vc (Some c') papers n = true →
  nodeVisible parseDate vc (Some c) papers n = true.
Proof.
  intros Hle. unfold nodeVisible. destruct (negb _); [done|].
  destruct (List.find _ papers) as [p|]; [|done].
  unfold beforeCutoff. destruct (parseDate (p_published p)) as [t|]; [|done].
  destruct (Z.ltb_spec t c'); [done|]. intros _.
  destruct (Z.ltb_spec t c); [lia|done].
Qed.

Lemma filtered_mono (f f' : GraphNode → bool) g :
  (∀ n, f n = true → f' n = true) →
  let ns := List.filter f (nodes g) in
  let ns' := List.filter f' (nodes g) in
  ns ⊆ ns'
  ∧ List.filter (linkVisible (idSet ns)) (links g)
    ⊆ List.filter (linkVisible (idSet ns')) (links g).
Proof.
  intros Hff ns ns'.
  assert (ns ⊆ ns') as Hns.
  { intros n Hn. apply list_elem_of_In, filter_In in Hn as [Hn Hv].
    apply list_elem_of_In, filter_In. split; [done|]. by apply Hff. }
  split; [exact Hns|].
  intros l Hl. apply list_elem_of_In, filter_In in Hl as [Hl Hv].
  apply list_elem_of_In, filter_In. split; [done|].
  apply linkVisible_spec in Hv as [Hs Ht]. apply linkVisible_spec.
  assert (∀ id, id ∈ map n_id ns → id ∈ map n_id ns') as Hids.
  { intros id Hid. apply list_elem_of_In, in_map_iff in Hid as (n & <- & Hn).
    apply list_elem_of_In, in_map. apply list_elem_of_In, Hns.
    by apply list_elem_of_In. }
  split; by apply Hids.
Qed.

(** X9. The view grows with the filter: showing more clusters, moving the
    cutoff to an earlier date or lifting it never hides a node or a link
    that was visible. *)
Theorem filter_monotone
    (g fg fg' : GraphData) (vc vc' : gset Z) (cutoff cutoff' : option Z)
    (papers : list Paper) :
  vc ⊆ vc' →
  match cutoff', cutoff with
  | None, _ => True
  | Some c', Some c => (c' ≤ c)%Z
  | Some _, None => False
  end →
  filteredGraphData parseDate (Some g) vc cutoff papers = Some fg →
  filteredGraphData parseDate (Some g) vc' cutoff' papers = Some fg' →
  nodes fg ⊆ nodes fg' ∧ links fg ⊆ links fg'.
Proof.
  intros Hvc Hcut [= <-] [= <-]; simpl.
  apply filtered_mono. intros n Hn.
  apply (nodeVisible_mono vc vc' cutoff' papers n Hvc).
  destruct cutoff' as [c'|], cutoff as [c|]; try done.
  - by apply (nodeVisible_earlier vc c' c).
  - by apply (nodeVisible_no_cutoff vc (Some c)).
Qed.

End ViewProperties.

Lemma filter_is_complete_view_witness :
  ∃ fg, filteredGraphData sampleParseDate (Some renderedGraph) {[0%Z]} None
          threePapers = Some fg
        ∧ links fg `sublist_of` links renderedGraph.
Proof.
  eexists. split; [reflexivity|].
  eapply (filter_is_complete_view sampleParseDate renderedGraph _ {[0%Z]} None
            threePapers eq_refl).
Defined.

Lemma filter_monotone_witness :
  ∃ fg fg',
    filteredGraphData sampleParseDate (Some threeGraph) {[0%Z]} (Some 2025%Z)
      threePapers = Some fg
    ∧ filteredGraphData sampleParseDate (Some threeGraph) {[0%Z; 1%Z]} (Some 2020%Z)
        threePapers = Some fg'
    ∧ nodes fg ⊆ nodes fg' ∧ links fg ⊆ links fg'.
Proof.
  eexists _, _. split; [reflexivity|]. split; [reflexivity|].
  apply (filter_monotone sampleParseDate threeGraph _ _ {[0%Z]} {[0%Z; 1%Z]}
           (Some 2025%Z) (Some 2020%Z) threePapers).
  - intros x Hx. apply elem_of_union. by left.
  - simpl. lia.
  - reflexivity.
  - reflexivity.
Defined.

(** ** The view after a search and under the filter controls *)

Section ControlProperties.

Variable yearsAgo : Z -> Z.
Variable parseDate : string -> option Z.

Lemma nodeVisible_all vc papers n :
  nodeVisible parseDate vc None papers n = clusterVisible vc (n_cluster n).
Proof. unfold nodeVisible. by destruct (clusterVisible _ _). Qed.

Lemma clusterVisible_categories categories n :
  clusterVisible (list_to_set (map c_id categories)) (n_cluster n) = true
  ↔ categorised categories n.
Proof.
  unfold clusterVisible, categorised. destruct (n_cluster n) as [z|].
  - rewrite bool_decide_eq_true, elem_of_list_to_set, list_elem_of_In, in_map_iff.
    split.
    + intros (c & <- & Hc). exists c. split; [by apply list_elem_of_In | done].
    + intros (c & Hc & [= ->]). exists c. split; [done | by apply list_elem_of_In].
  - split; [done|]. by intros (c & _ & ?).
Qed.

(** X10. Right after a search that returned papers, the view shows exactly
    the nodes of the new graph whose cluster is the id of a returned
    category, whatever their dates: the date filter is back to "all" and
    the visible clusters are the returned categories. A node whose cluster
    no category describes is built but hidden. *)
Theorem fresh_search_view
    (searchPapers : string → N → SearchOutcome) (h : Home) (r : SearchResult) :
  searchRefused h = false →
  searchPapers (query (search h)) (paperCount (search h)) = SearchResolved r →
  r_papers r ≠ [] →
  let built := buildGraphData (r_papers r) (r_categories r)
                 (r_citation_links r) (r_max_citations r) in
  ∃ fg, visibleGraph yearsAgo parseDate (handleSearch searchPapers h) = Some fg
        ∧ ∀ n, n ∈ nodes fg ↔ n ∈ nodes built ∧ categorised (r_categories r) n.
Proof.
  intros Hacc Hres Hne built. unfold handleSearch. rewrite Hacc, Hres.
  unfold handleSearch_after.
  destruct (r_papers r) as [|p ps] eqn:Hps; [done|]. simpl length. simpl Nat.eqb.
  cbv iota. unfold visibleGraph. simpl.
  eexists. split; [reflexivity|]. simpl. intros n.
  rewrite list_elem_of_In, filter_In, <- list_elem_of_In.
  rewrite nodeVisible_all, clusterVisible_categories. by rewrite Hps.
Qed.

Lemma clusterVisible_without vc id c :
  clusterVisible (vc ∖ {[id]}) c
  = clusterVisible vc c && negb (bool_decide (c = Some id)).
Proof.
  unfold clusterVisible. destruct c as [z|]; [|done].
  destruct (decide (z = id)) as [->|Hne].
  - rewrite (bool_decide_eq_true_2 (Some id = Some id)) by done.
    rewrite andb_false_r. apply bool_decide_eq_false.
    intros H. apply elem_of_difference in H as [_ H]. apply H.
    by apply elem_of_singleton.
  - rewrite (bool_decide_eq_false_2 (Some z = Some id)) by congruence.
    rewrite andb_true_r. apply bool_decide_ext.
    rewrite elem_of_difference, elem_of_singleton. tauto.
Qed.

(** X11. Clicking the row of a visible cluster hides exactly the nodes of
    that cluster: the new view keeps, in order, the visible nodes of the
    other clusters, and its links are among the links visible before. *)
Theorem cluster_toggle_hides (id : Z) (h : Home) (fg : GraphData) :
  id ∈ visibleClusters (search h) →
  visibleGraph yearsAgo parseDate h = Some fg →
  ∃ fg', visibleGraph yearsAgo parseDate (onClusterClick id h) = Some fg'
         ∧ nodes fg'
           = List.filter (fun n => negb (bool_decide (n_cluster n = Some id)))
               (nodes fg)
         ∧ links fg' ⊆ links fg.
Proof.
  intros Hin. unfold visibleGraph, onClusterClick, toggleCluster; simpl.
  rewrite bool_decide_eq_true_2 by done.
  destruct (graphData (search h)) as [g|]; [|done]. simpl.
  intros [= <-]. eexists. split; [reflexivity|]. simpl.
  set (cutoff := dateFilterCutoff yearsAgo (dateFilter (search h))).
  set (vc := visibleClusters (search h)).
  assert (∀ n, nodeVisible parseDate (vc ∖ {[id]}) cutoff (papers (search h)) n
               = nodeVisible parseDate vc cutoff (papers (search h)) n
                 && negb (bool_decide (n_cluster n = Some id))) as Hnv.
  { intros n. unfold nodeVisible. rewrite clusterVisible_without.
    destruct (clusterVisible vc (n_cluster n)); simpl; [|done].
    destruct (bool_decide (n_cluster n = Some id)); simpl.
    - by rewrite andb_false_r.
    - by rewrite andb_true_r. }
  split.
  - rewrite filter_filter_and. by apply filter_ext_in'.
  - apply filtered_mono. intros n. rewrite Hnv. by intros [? _]%andb_true_iff.
Qed.

(** X13. The counter of the filter panel never shows more visible nodes
    than nodes, and shows 0 of 0 while there is no graph. *)
Theorem visible_count_bounded (h : Home) :
  visibleCount yearsAgo parseDate h ≤ totalCount h
  ∧ (graphData (search h) = None →
     visibleCount yearsAgo parseDate h = 0 ∧ totalCount h = 0).
Proof.
  unfold visibleCount, totalCount, visibleGraph.
  destruct (graphData (search h)) as [g|]; simpl.
  - split; [|done]. apply sublist_length, filter_sublist.
  - done.
Qed.

End ControlProperties.

(** X12. The cluster row is a toggle: a click flips the visibility of its
    cluster and of no other, and two clicks restore the visible set. The
    checkbox of the first revision instead sets the visibility to its
    checked state. *)
Theorem cluster_toggle_round_trip (id : Z) (h : Home) :
  let vc (h : Home) := visibleClusters (search h) in
  vc (onClusterClick id (onClusterClick id h)) = vc h
  ∧ (id ∈ vc (onClusterClick id h) ↔ id ∉ vc h)
  ∧ (∀ id', id' ≠ id → id' ∈ vc (onClusterClick id h) ↔ id' ∈ vc h)
  ∧ (∀ checked, id ∈ vc (onClusterChecked id checked h) ↔ checked = true).
Proof.
  simpl. unfold toggleCluster. set (vc := visibleClusters (search h)).
  repeat split.
  - apply set_eq. intros x.
    destruct (decide (id ∈ vc)) as [Hin|Hin].
    + rewrite (bool_decide_eq_true_2 (id ∈ vc)) by done.
      rewrite bool_decide_eq_false_2.
      * rewrite elem_of_union, elem_of_difference, elem_of_singleton.
        destruct (decide (x = id)) as [->|]; tauto.
      * rewrite elem_of_difference, elem_of_singleton. tauto.
    + rewrite (bool_decide_eq_false_2 (id ∈ vc)) by done.
      rewrite bool_decide_eq_true_2.
      * rewrite elem_of_difference, elem_of_union, elem_of_singleton.
        destruct (decide (x = id)) as [->|]; tauto.
      * rewrite elem_of_union, elem_of_singleton. tauto.
  - case_bool_decide as Hin.
    + rewrite elem_of_difference, elem_of_singleton. tauto.
    + done.
  - case_bool_decide as Hin.
    + done.
    + intros _. rewrite elem_of_union, elem_of_singleton. tauto.
  - case_bool_decide; rewrite ?elem_of_difference, ?elem_of_union, elem_of_singleton;
      tauto.
  - case_bool_decide; rewrite ?elem_of_difference, ?elem_of_union, elem_of_singleton;
      tauto.
  - destruct checked; [done|].
    rewrite elem_of_difference, elem_of_singleton. tauto.
  - intros ->. rewrite elem_of_union, elem_of_singleton. tauto.
Qed.

Lemma fresh_search_view_witness :
  ∃ fg, visibleGraph sampleYearsAgo sampleParseDate
          (handleSearch (fun _ _ => SearchResolved strayResult) busyHome) = Some fg
        ∧ map n_id (nodes fg) = ["p1"; "p2"; "p3"].
Proof.
  destruct (fresh_search_view sampleYearsAgo sampleParseDate
              (fun _ _ => SearchResolved strayResult) busyHome strayResult)
    as (fg & Hfg & _); [reflexivity | reflexivity | discriminate |].
  exists fg. split; [exact Hfg|].
  revert Hfg. vm_compute. by intros [= <-].
Defined.

Lemma cluster_toggle_hides_witness :
  ∃ fg', visibleGraph sampleYearsAgo sampleParseDate
           (onClusterClick 1 (onDateFilterClick "all" busyHome)) = Some fg'
         ∧ map n_id (nodes fg') = ["p1"; "p2"] ∧ map idPair (links fg') = [("p1", "p2")].
Proof.
  destruct (visibleGraph sampleYearsAgo sampleParseDate
              (onDateFilterClick "all" busyHome)) as [fg|] eqn:Hfg;
    [|by vm_compute in Hfg].
  destruct (cluster_toggle_hides sampleYearsAgo sampleParseDate 1
              (onDateFilterClick "all" busyHome) fg) as (fg' & Hfg' & _ & _).
  - apply elem_of_union. right. by apply elem_of_singleton.
  - exact Hfg.
  - exists fg'. split; [exact Hfg'|].
    revert Hfg'. vm_compute. by intros [= <-].
Defined.

(** ** Tooltip: the neighbours of the hovered node *)

Lemma find_by_id_Some (visible : list GraphNode) cid node :
  List.find (fun n => bool_decide (n_id n = cid)) visible = Some node →
  node ∈ visible ∧ n_id node = cid.
Proof.
  intros H. apply find_some in H as [Hin Hid].
  split; [by apply list_elem_of_In | by apply bool_decide_eq_true in Hid].
Qed.

Lemma find_by_id_None (visible : list GraphNode) cid n :
  List.find (fun n => bool_decide (n_id n = cid)) visible = None →
  n ∈ visible → n_id n ≠ cid.
Proof.
  intros H Hn. apply list_elem_of_In in Hn.
  pose proof (find_none _ _ H n Hn) as Hf. by apply bool_decide_eq_false in Hf.
Qed.

(** Listing one more node, in either list, whose id was not seen. *)
Lemma connInv_push hov visible all c node link (citation : bool) :
  connInv hov visible all c →
  node ∈ visible → n_id node ∉ seenIds c →
  link ∈ all → connects (n_id hov) (n_id node) link = true →
  connInv hov visible all
    (if citation
     then {| connectedSimilar := connectedSimilar c;
             connectedCitations := connectedCitations c ++ [node];
             seenIds := seenIds c ∪ {[n_id node]} |}
     else {| connectedSimilar := connectedSimilar c ++ [node];
             connectedCitations := connectedCitations c;
             seenIds := seenIds c ∪ {[n_id node]} |}).
Proof.
  intros (Hnd & Hl & Hs) Hvis Hnew Hlink Hc.
  assert (n_id node ∉ map n_id (listed c)) as Hfresh.
  { intros Hin. apply list_elem_of_In, in_map_iff in Hin as (m & Hm & Hin).
    apply list_elem_of_In in Hin. destruct (Hl m Hin) as (_ & Hseen & _).
    apply Hnew. by rewrite <- Hm. }
  assert (∀ c', listed c' ≡ₚ node :: listed c →
                seenIds c' = seenIds c ∪ {[n_id node]} →
                connInv hov visible all c') as Hgen.
  { intros c' Hperm Hseen'. split; [|split].
    - rewrite Hperm. simpl. by apply NoDup_cons.
    - intros n Hn. rewrite Hperm in Hn. rewrite Hseen'.
      apply elem_of_cons in Hn as [->|Hn].
      + split; [done|]. split; [|by exists link].
        apply elem_of_union. right. by apply elem_of_singleton.
      + destruct (Hl n Hn) as (H1 & H2 & H3).
        split; [done|]. split; [|done]. apply elem_of_union. by left.
    - intros n Hn. rewrite Hseen', Hperm. simpl.
      rewrite elem_of_union, elem_of_singleton. intros [Hseen|Heq].
      + right. by apply Hs.
      + rewrite Heq. by left. }
  destruct citation; apply Hgen; unfold listed; simpl; try done.
  - rewrite app_assoc. by rewrite <- Permutation_cons_append.
  - rewrite <- app_assoc. simpl. by rewrite <- Permutation_middle.
Qed.

Lemma connectStep_inv hov visible all c link :
  link ∈ all → connInv hov visible all c →
  connInv hov visible all (connectStep hov visible c link)
  ∧ seenIds c ⊆ seenIds (connectStep hov visible c link)
  ∧ ∀ n, n ∈ visible → n_id n ≠ "" →
      connects (n_id hov) (n_id n) link = true →
      n_id n ∈ seenIds (connectStep hov visible c link).
Proof.
  intros Hlink Hinv. unfold connectStep.
  set (src := endpointId (l_source link)). set (tgt := endpointId (l_target link)).
  set (cid := if bool_decide (src = n_id hov) then Some tgt
              else if bool_decide (tgt = n_id hov) then Some src else None).
  assert (∀ n, connects (n_id hov) (n_id n) link = true → cid = Some (n_id n))
    as Hcid.
  { intros n Hc. apply connects_spec in Hc. fold src tgt in Hc. unfold cid.
    destruct Hc as [[H1 H2]|[H1 H2]].
    - by rewrite bool_decide_eq_true_2, H2.
    - case_bool_decide as Hsrc; [congruence|].
      by rewrite bool_decide_eq_true_2, H1. }
  assert (∀ x, cid = Some x → connects (n_id hov) x link = true) as Hconn.
  { intros x. unfold cid. repeat case_bool_decide; intros [= <-];
      apply connects_spec; fold src tgt; [left|right]; done. }
  destruct cid as [x|] eqn:Hx; [|].
  2:{ split; [done|]. split; [done|]. intros n _ _ Hc. by specialize (Hcid n Hc). }
  unfold JS.truthy.
  destruct (decide (x = "")) as [->|Hnonempty].
  { simpl. split; [done|]. split; [done|].
    intros n _ Hne Hc. specialize (Hcid n Hc). congruence. }
  rewrite (bool_decide_eq_false_2 (x = "")) by done. simpl.
  case_bool_decide as Hseen; simpl.
  { split; [done|]. split; [done|].
    intros n _ _ Hc. specialize (Hcid n Hc). by injection Hcid as <-. }
  destruct (List.find _ visible) as [node|] eqn:Hfind.
  - apply find_by_id_Some in Hfind as [Hvis Hid]. subst x.
    pose proof (connInv_push hov visible all c node link
                  (match isCitation link with Some true => true | _ => false end)
                  Hinv Hvis Hseen Hlink (Hconn _ eq_refl)) as Hpush.
    assert (∀ c', seenIds c' = seenIds c ∪ {[n_id node]} →
              seenIds c ⊆ seenIds c'
              ∧ ∀ n, n ∈ visible → n_id n ≠ "" →
                  connects (n_id hov) (n_id n) link = true → n_id n ∈ seenIds c')
      as Hrest.
    { intros c' ->. split.
      - intros y Hy. apply elem_of_union. by left.
      - intros n _ _ Hc. specialize (Hcid n Hc). injection Hcid as ->.
        apply elem_of_union. right. by apply elem_of_singleton. }
    destruct (isCitation link) as [[|]|]; (split; [exact Hpush | by apply Hrest]).
  - destruct Hinv as (Hnd & Hl & Hs). split; [|split].
    + split; [done|]. split.
      * intros n Hn. destruct (Hl n Hn) as (H1 & H2 & H3).
        split; [done|]. split; [|done]. simpl. apply elem_of_union. by left.
      * intros n Hn. simpl. rewrite elem_of_union, elem_of_singleton.
        intros [H|H]; [by apply Hs|].
        by destruct (find_by_id_None visible x n Hfind Hn).
    + intros y Hy. simpl. apply elem_of_union. by left.
    + intros n _ _ Hc. specialize (Hcid n Hc). injection Hcid as ->.
      simpl. apply elem_of_union. right. by apply elem_of_singleton.
Qed.

Lemma foldl_connectStep hov visible all ls c :
  (∀ l, l ∈ ls → l ∈ all) → connInv hov visible all c →
  let r := foldl (connectStep hov visible) c ls in
  connInv hov visible all r
  ∧ seenIds c ⊆ seenIds r
  ∧ ∀ l n, l ∈ ls → n ∈ visible → n_id n ≠ "" →
      connects (n_id hov) (n_id n) l = true → n_id n ∈ seenIds r.
Proof.
  revert c. induction ls as [|l ls IH]; intros c Hall Hinv; simpl.
  - split; [done|]. split; [done|]. intros l n Hl. by apply elem_of_nil in Hl.
  - destruct (connectStep_inv hov visible all c l) as (Hinv1 & Hsub1 & Hseen1);
      [apply Hall; by left | done |].
    destruct (IH (connectStep hov visible c l)) as (Hinv2 & Hsub2 & Hseen2);
      [intros l' Hl'; apply Hall; by right | done |].
    split; [done|]. split; [by etrans|].
    intros l' n Hl' Hn Hne Hc. apply elem_of_cons in Hl' as [->|Hl'].
    + apply Hsub2. by apply Hseen1.
    + by eapply Hseen2.
Qed.

(** X14. The tooltip lists each neighbour of the hovered node once: the ids
    of the listed nodes, similar and citing together, are distinct; each
    listed node is a visible node joined to the hovered node by a visible
    link; and every visible node with a non-empty id that a visible link
    joins to the hovered node is listed. *)
Theorem tooltip_neighbours (hoveredNode : GraphNode) (fg : GraphData) :
  let c := connectedNodes hoveredNode (Some fg) in
  NoDup (map n_id (connectedSimilar c ++ connectedCitations c))
  ∧ (∀ n, n ∈ connectedSimilar c ++ connectedCitations c →
       n ∈ nodes fg
       ∧ ∃ l, l ∈ links fg ∧ connects (n_id hoveredNode) (n_id n) l = true)
  ∧ (∀ l n, l ∈ links fg → n ∈ nodes fg → n_id n ≠ "" →
       connects (n_id hoveredNode) (n_id n) l = true →
       n_id n ∈ map n_id (connectedSimilar c ++ connectedCitations c)).
Proof.
  intros c.
  destruct (foldl_connectStep hoveredNode (nodes fg) (links fg) (links fg)
              noConnections) as ((Hnd & Hl & Hs) & _ & Hseen).
  - done.
  - split; [constructor|]. split.
    + intros n Hn. by apply elem_of_nil in Hn.
    + intros n _ Hn. by apply not_elem_of_empty in Hn.
  - fold (connectedNodes hoveredNode (Some fg)) in Hnd, Hl, Hs, Hseen. fold c in Hnd, Hl, Hs, Hseen.
    split; [exact Hnd|]. split.
    + intros n Hn. destruct (Hl n Hn) as (H1 & _ & H3). by split.
    + intros l n Hlk Hn Hne Hc. apply Hs; [done|]. by eapply Hseen.
Qed.

(** Paper 1 is joined to paper 2 by a similarity link and to paper 3 by a
    citation; a second link to paper 2 adds nothing. *)
Example tooltip_sample :
  let c := connectedNodes (sampleNode "p1") (Some doubledGraph) in
  (map n_id (connectedSimilar c), map n_id (connectedCitations c))
  = (["p2"], ["p3"]).
Proof. vm_compute. reflexivity. Qed.

Lemma tooltip_neighbours_witness :
  let c := connectedNodes (sampleNode "p1") (Some doubledGraph) in
  "p2" ∈ map n_id (connectedSimilar c ++ connectedCitations c)
  ∧ NoDup (map n_id (connectedSimilar c ++ connectedCitations c)).
Proof.
  destruct (tooltip_neighbours (sampleNode "p1") doubledGraph) as (Hnd & _ & Hall).
  split; [|exact Hnd].
  apply (Hall (mkCitation {| cl_source := "p2"; cl_target := "p1" |})
              (mkNode twoCategories 8
                 (samplePaper "p2" (Some 0%Z) None (Some (3, 4)%Q) (Some ["p1"]) 8))).
  - apply elem_of_app. right. by left.
  - right. by left.
  - discriminate.
  - reflexivity.
Defined.

Lemma cluster_toggle_round_trip_witness :
  1%Z ∈ visibleClusters (search (onClusterClick 0 busyHome))
  ↔ 1%Z ∈ visibleClusters (search busyHome).
Proof.
  destruct (cluster_toggle_round_trip 0 busyHome) as (_ & _ & Hother & _).
  apply Hother. discriminate.
Defined.

Lemma visible_count_bounded_witness :
  visibleCount sampleYearsAgo sampleParseDate initialHome = 0
  ∧ totalCount initialHome = 0.
Proof.
  destruct (visible_count_bounded sampleYearsAgo sampleParseDate initialHome)
    as [_ H].
  by apply H.
Defined.

(** ** Context dock: release, removal, drag state *)

Lemma Qltb_spec a b : Qltb a b = true ↔ (a < b)%Q.
Proof. unfold Qltb, Qlt. apply Z.ltb_lt. Qed.

Lemma nearDock_spec c : nearDock c = true ↔ (sy c < 150)%Q.
Proof.
  unfold nearDock. rewrite Qltb_spec.
  assert (dockZoneHeight + 50 == 150)%Q as -> by reflexivity. done.
Qed.

(** X15. A release adds the dragged node exactly when it happens above
    screen height 150 (the dock zone of 100 plus 50): for a node that is not
    in the context set, the drag-end callback puts it there, as the last
    entry, if and only if the release point is above that line; below or on
    the line, and when the graph reports no screen position, the context set
    is unchanged. Either way the drag state is idle afterwards. *)
Theorem release_adds_iff_near_dock
    (node : GraphNode) (coords : option ScreenPos) (h : Home) :
  n_id node ∉ map n_id (contextPapers (dock h)) →
  let h' := onNodeDragEnd node coords h in
  (contextPapers (dock h')
   = match coords with
     | Some c => if Qlt_le_dec (sy c) 150
                 then contextPapers (dock h) ++ [node]
                 else contextPapers (dock h)
     | None => contextPapers (dock h)
     end)
  ∧ dragIdle (dock h').
Proof.
  intros Hnew. cbv zeta. split; [|done].
  destruct coords as [c|]; [|done].
  rewrite (onNodeDragEnd_context node c h).
  destruct (Qlt_le_dec (sy c) 150) as [Hlt|Hge].
  - rewrite (proj2 (nearDock_spec c) Hlt). by apply addToContext_absent.
  - destruct (nearDock c) eqn:Hn; [|done].
    apply nearDock_spec in Hn. by apply Qlt_not_le in Hn.
Qed.

Lemma release_adds_iff_near_dock_witness :
  map n_id (contextPapers (dock (onNodeDragEnd (sampleNode "p2") (Some dockPos) busyHome)))
  = ["p1"; "p2"]
  ∧ map n_id (contextPapers (dock (onNodeDragEnd (sampleNode "p2") (Some farPos) busyHome)))
    = ["p1"].
Proof.
  split.
  - destruct (release_adds_iff_near_dock (sampleNode "p2") (Some dockPos) busyHome)
      as [-> _]; [|reflexivity].
    simpl. intros H. apply list_elem_of_In in H. simpl in H.
    destruct H as [H|[]]. discriminate H.
  - destruct (release_adds_iff_near_dock (sampleNode "p2") (Some farPos) busyHome)
      as [-> _]; [|reflexivity].
    simpl. intros H. apply list_elem_of_In in H. simpl in H.
    destruct H as [H|[]]. discriminate H.
Defined.




Lemma step_dockInv e s s' :
  step e s = Some s' → dockInv (dock (home s)) → dockInv (dock (home s')).
Proof.
  assert (∀ d : DockState,
            draggingNode d = None → dragScreenPos d = None →
            isNearDock d = false → draggingNodeRef d = None →
            isNearDockRef d = false → dockInv d) as Hidle.
  { intros d H1 H2 H3 H4 H5. unfold dockInv, dragIdle.
    rewrite H1, H3, H4, H5. by repeat split. }
  destruct (sessionEvent e) eqn:He.
  { intros Hstep. destruct (step_frame e s s' He Hstep) as (Hd & _). by rewrite Hd. }
  destruct e as [node coords| |node coords|paperId| |k r|k r| | | | | | | | | | | |];
    try discriminate He; simpl.
  - intros [= <-] (H1 & H2 & H3); simpl.
    destruct coords as [c|]; simpl; (split; [done|]; split; [done|]; intros [=]).
  - intros [= <-] Hinv; simpl. unfold handleMouseUp.
    destruct (draggingNodeRef (dock (home s))) eqn:Href; simpl; [|done].
    by apply Hidle.
  - intros [= <-] _; simpl. by apply Hidle.
  - intros [= <-] (H1 & H2 & H3); simpl.
    split; [done|]. split; [done|]. intros Hnone.
    destruct (H3 Hnone) as (? & ? & ? & ? & ?). by repeat split.
  - intros [= <-]; simpl. unfold withParse; simpl. by rewrite applyUpdates_dock.
  - destruct (jobs s !! k) as [[id [|jobId i]]|]; [|done..].
    intros [= <-]; simpl. by rewrite applyUpdates_dock.
  - destruct (jobs s !! k) as [[id [|jobId i]]|]; [done| |done].
    intros [= <-]; simpl. by rewrite applyUpdates_dock.
Qed.

(** X17. In every state the running component can reach, through searches,
    filter changes, drags, removals, chat requests and parse jobs, the refs
    read by the mouse-up listener agree with the drag state that is
    rendered, and when no node is being dragged the drag state is idle; so
    a mouse-up always leaves the drag state idle, and without a drag in
    progress it changes nothing at all. *)
Theorem drag_refs_mirror_state (s : System) :
  reachable s →
  let d := dock (home s) in
  draggingNodeRef d = draggingNode d
  ∧ isNearDockRef d = isNearDock d
  ∧ dragIdle (dock (handleMouseUp (home s)))
  ∧ (draggingNode d = None → handleMouseUp (home s) = home s).
Proof.
  intros Hs. simpl.
  assert (dockInv (dock (home s))) as (H1 & H2 & H3).
  { induction Hs as [|e s s' _ IH Hstep].
    - by repeat split.
    - by eapply step_dockInv. }
  split; [done|]. split; [done|]. split.
  - unfold handleMouseUp. destruct (draggingNodeRef (dock (home s))) eqn:Href.
    + by repeat split.
    + by apply H3.
  - intros Hnone. unfold handleMouseUp. by rewrite H1, Hnone.
Qed.

Lemma drag_refs_mirror_state_witness :
  ∃ s, run (searchShown ++ [EvDrag (sampleNode "p1") (Some dockPos)]) initialSystem
       = Some s
       ∧ (nodes <$> graphData (search (home s))) = Some (nodes threeGraph)
       ∧ nodes threeGraph !! 0 = Some (sampleNode "p1")
       ∧ draggingNode (dock (home s)) = Some (sampleNode "p1")
       ∧ draggingNodeRef (dock (home s)) = draggingNode (dock (home s))
       ∧ dragIdle (dock (handleMouseUp (home s))).
Proof.
  match goal with
  | |- ∃ s, run ?es ?s0 = _ ∧ _ =>
      destruct (run es s0) as [s|] eqn:Hrun; [|by vm_compute in Hrun]
  end.
  exists s. split; [reflexivity|].
  destruct (drag_refs_mirror_state s) as (H1 & _ & H3 & _).
  - eapply run_reachable; [apply reachable_init | exact Hrun].
  - split; [|split; [|split; [|by split]]].
    + revert Hrun. vm_compute. by intros [= <-].
    + reflexivity.
    + revert Hrun. vm_compute. by intros [= <-].
Defined.

(** ** Context effect: announcements and reruns *)



Lemma added_nothing (ctx : list GraphNode) : added ctx (map n_id ctx) = [].
Proof.
  unfold added. apply filter_none. intros p Hp.
  apply negb_false_iff, includes_spec, list_elem_of_In, in_map.
  by apply list_elem_of_In.
Qed.

Lemma removed_nothing (ids : list string) : removed ids ids = [].
Proof.
  unfold removed. apply filter_none. intros id Hid.
  by apply negb_false_iff, includes_spec.
Qed.

(** X19. The effect is idempotent between membership changes: once it has
    run, running it again, as React does whenever the papers, the
    transcript length, the panel or a status set changes, announces nothing,
    starts no job and leaves the whole state as it is. *)
Theorem effect_rerun_is_noop (h : Home) :
  let h1 := fst (contextEffect h) in
  contextEffect h1 = (h1, [])
  ∧ ∀ h2, prevContextPapersRef (parse h2) = map n_id (contextPapers (dock h2)) →
          contextEffect h2 = (h2, []).
Proof.
  assert (∀ h2, prevContextPapersRef (parse h2) = map n_id (contextPapers (dock h2)) →
                contextEffect h2 = (h2, [])) as Hgen.
  { intros h2 Href. unfold contextEffect, effectUpdates, effectStarts.
    rewrite Href, added_nothing, removed_nothing. simpl.
    assert (announcements h2 [] [] = []) as ->.
    { unfold announcements. by destruct (_ || _). }
    simpl. f_equal. unfold withParse, withChat, setPrevContextPapersRef; simpl.
    rewrite <- Href. by destruct h2 as [? ? [] [] ?]. }
  split; [|exact Hgen].
  apply Hgen. unfold contextEffect; simpl. by rewrite applyUpdates_dock.
Qed.

(** Paper 2 dropped and paper 1 removed while the chat is open. *)
Example announcements_sample :
  map content (chatMessages (chat (fst (contextEffect swappedHome))))
  = [ "Summarise."; "A summary.";
      "📄 **Paper added to context:** Title of p2";
      "📄 **Paper removed from context:** Title of p1" ].
Proof. vm_compute. reflexivity. Qed.

Lemma effect_rerun_is_noop_witness : contextEffect busyHome = (busyHome, []).
Proof. apply (proj2 (effect_rerun_is_noop busyHome) busyHome). reflexivity. Defined.

(** ** Parse jobs: what the event loop maintains *)

Ltac sets :=
  simpl;
  repeat (rewrite elem_of_difference || rewrite elem_of_union
          || rewrite elem_of_singleton);
  intuition congruence.

Lemma effectStarts_jobs h :
  map job_paper (omap (fun s => mkJob (fst s) <$> snd (snd s)) (effectStarts h))
  = startedIds h
  ∧ Forall (fun j => job_phase j = AwaitSubmit)
      (omap (fun s => mkJob (fst s) <$> snd (snd s)) (effectStarts h))
  ∧ effectUpdates h = map SetParsingAdd (startedIds h).
Proof.
  unfold effectUpdates, effectStarts, startedIds.
  induction (added _ _) as [|p ps (IH1 & IH2 & IH3)]; csimpl; [done|].
  assert (jobStart h p = if guarded h (n_id p) then ([], None)
                         else ([SetParsingAdd (n_id p)], Some AwaitSubmit)) as ->.
  { reflexivity. }
  destruct (guarded h (n_id p)); csimpl.
  - done.
  - rewrite IH1, IH3. split; [done|]. split; [|done]. by constructor.
Qed.

Lemma applyUpdates_adds ids h :
  parsedPapers (parse (applyUpdates (map SetParsingAdd ids) h))
  = parsedPapers (parse h)
  ∧ ∀ x, x ∈ parsingPapers (parse (applyUpdates (map SetParsingAdd ids) h))
         ↔ x ∈ parsingPapers (parse h) ∨ x ∈ ids.
Proof.
  unfold applyUpdates. revert h.
  induction ids as [|id ids IH]; intros h; cbn [map foldl].
  - split; [done|]. intros x. rewrite elem_of_nil. tauto.
  - destruct (IH (applyUpdate h (SetParsingAdd id))) as [-> Hx].
    split; [done|]. intros x. rewrite Hx, elem_of_cons. sets.
Qed.

Lemma NoDup_map_filter (f : GraphNode → bool) (l : list GraphNode) :
  NoDup (map n_id l) → NoDup (map n_id (List.filter f l)).
Proof.
  induction l as [|x l IH]; simpl; [done|].
  intros [Hx Hl]%NoDup_cons. destruct (f x); simpl; [|by apply IH].
  apply NoDup_cons. split; [|by apply IH].
  intros Hin. apply Hx.
  apply list_elem_of_In, in_map_iff in Hin as (y & Hy & Hin).
  apply filter_In in Hin as [Hin _].
  apply list_elem_of_In, in_map_iff. by exists y.
Qed.

Lemma NoDup_filter_list {A} (f : A → bool) (l : list A) :
  NoDup l → NoDup (List.filter f l).
Proof.
  induction l as [|x l IH]; simpl; [done|].
  intros [Hx Hl]%NoDup_cons. destruct (f x); [|by apply IH].
  apply NoDup_cons. split; [|by apply IH].
  intros Hin. apply Hx. by apply list_elem_of_In, filter_In in Hin as [?%list_elem_of_In _].
Qed.

Lemma startedIds_spec h :
  NoDup (map n_id (contextPapers (dock h))) →
  NoDup (startedIds h)
  ∧ ∀ id, id ∈ startedIds h →
      (id ∉ parsedPapers (parse h)) ∧ (id ∉ parsingPapers (parse h)).
Proof.
  intros Hnd. unfold startedIds. split.
  - apply NoDup_filter_list. unfold added. by apply NoDup_map_filter.
  - intros id Hid. apply list_elem_of_In, filter_In in Hid as [_ Hg].
    apply negb_true_iff, orb_false_iff in Hg as [H1 H2].
    by apply bool_decide_eq_false in H1, H2.
Qed.

Lemma jobIds_delete (js : list Job) k j :
  js !! k = Some j → NoDup (map job_paper js) →
  NoDup (map job_paper (delete k js))
  ∧ ∀ x, x ∈ map job_paper (delete k js)
         ↔ x ∈ map job_paper js ∧ x ≠ job_paper j.
Proof.
  revert k. induction js as [|j0 js IH]; intros [|k] Hk Hnd; simpl in *; try done.
  - injection Hk as ->. apply NoDup_cons in Hnd as [Hj Hnd].
    split; [done|]. intros x. rewrite elem_of_cons. split.
    + intros Hx. split; [by right|]. by intros ->.
    + intros [[?|?] ?]; done.
  - apply NoDup_cons in Hnd as [Hj Hnd].
    destruct (IH k Hk Hnd) as [Hnd' Hx]. split.
    + apply NoDup_cons. split; [|done]. rewrite Hx. by intros [? _].
    + assert (job_paper j ∈ map job_paper js) as Hjin.
      { apply list_elem_of_In, in_map, list_elem_of_In.
        by eapply list_elem_of_lookup_2. }
      intros x. rewrite !elem_of_cons, Hx. split.
      * intros [->|[Hin Hne]].
        -- split; [by left|]. intros Heq. apply Hj. by rewrite Heq.
        -- split; [by right | done].
      * intros [[->|Hin] Hne]; [by left|]. right. by split.
Qed.

Lemma elem_of_delete_job (js : list Job) k (j : Job) :
  j ∈ delete k js → j ∈ js.
Proof.
  revert k. induction js as [|j0 js IH]; intros [|k]; simpl; try done.
  - intros H. by right.
  - rewrite !elem_of_cons. intros [->|H]; [by left|]. right. by eapply IH.
Qed.

Lemma jobs_insert (js : list Job) k j id ph :
  js !! k = Some j → job_paper j = id →
  map job_paper (<[k := mkJob id ph]> js) = map job_paper js
  ∧ ∀ j', j' ∈ <[k := mkJob id ph]> js → j' = mkJob id ph ∨ j' ∈ js.
Proof.
  revert k. induction js as [|j0 js IH]; intros [|k] Hk Hid; simpl in *; try done.
  - injection Hk as ->. rewrite Hid. split; [done|].
    intros j'. rewrite elem_of_cons. intros [->|H]; [by left|]. right. by right.
  - destruct (IH k Hk Hid) as [-> Hin]. split; [done|].
    intros j'. rewrite !elem_of_cons. intros [->|H]; [right; by left|].
    destruct (Hin j' H) as [->|?]; [by left|]. right. by right.
Qed.

Lemma resume_end_inv s k id ph us :
  jobsInv s → jobs s !! k = Some (mkJob id ph) → endsJob id us (home s) →
  jobsInv (resume s k id (us, None)).
Proof.
  intros (Hnd & Hparsing & Hparsed & Hpoll) Hk [Hing Hed].
  destruct (jobIds_delete (jobs s) k (mkJob id ph) Hk Hnd) as [Hnd' Hdel].
  unfold jobsInv, jobIds, resume; simpl. split; [done|]. split; [|split].
  - intros x. rewrite Hing, Hdel, Hparsing. done.
  - intros x Hx Hxp. apply Hdel in Hx as [Hx Hne]. simpl in Hne.
    destruct (Hed x Hxp) as [Hold|Heq]; [by apply (Hparsed x)|done].
  - intros id' jobId i Hin. apply (Hpoll id' jobId i).
    by eapply elem_of_delete_job.
Qed.

Lemma resume_continue_inv s k id ph ph' :
  jobsInv s → jobs s !! k = Some (mkJob id ph) →
  (∀ jobId i, ph' = Polling jobId i → i < maxPolls) →
  jobsInv (resume s k id ([], Some ph')).
Proof.
  intros (Hnd & Hparsing & Hparsed & Hpoll) Hk Hph'.
  destruct (jobs_insert (jobs s) k (mkJob id ph) id ph' Hk eq_refl) as [Hids Hin].
  unfold jobsInv, jobIds, resume; simpl. rewrite Hids.
  split; [done|]. split; [done|]. split; [done|].
  intros id' jobId i Hj. destruct (Hin _ Hj) as [Heq|Hold].
  - injection Heq as _ Heq. by eapply Hph'.
  - by eapply Hpoll.
Qed.

Lemma endsJob_finally id h : endsJob id (jobFinally id) h.
Proof. split; intros x; sets. Qed.

Lemma endsJob_caught id e h : endsJob id (jobCatch id e ++ jobFinally id) h.
Proof. split; intros x; sets. Qed.

Lemma endsJob_logged id msg h : endsJob id ([ConsoleError msg] ++ jobFinally id) h.
Proof. split; intros x; sets. Qed.

Lemma endsJob_parsed id h : endsJob id ([SetParsedAdd id] ++ jobFinally id) h.
Proof. split; intros x; sets. Qed.

Lemma endsJob_cached id h :
  endsJob id ([SetParsedAdd id; SetParsingDelete id] ++ jobFinally id) h.
Proof. split; intros x; sets. Qed.

Lemma onSubmit_inv s k id r :
  jobsInv s → jobs s !! k = Some (mkJob id AwaitSubmit) →
  jobsInv (resume s k id (onSubmit id r)).
Proof.
  intros Hinv Hk. unfold onSubmit.
  destruct r as [e| |cached status job_id].
  - eapply resume_end_inv; [done..|apply endsJob_caught].
  - eapply resume_end_inv; [done..|apply endsJob_caught].
  - destruct (cached || _).
    + eapply resume_end_inv; [done..|apply endsJob_cached].
    + destruct (0 <? maxPolls) eqn:Hmax.
      * eapply resume_continue_inv; [done..|].
        intros jobId i [= _ <-]. by apply Nat.ltb_lt.
      * eapply resume_end_inv; [done..|apply endsJob_finally].
Qed.

Lemma onPoll_inv s k id jobId i r :
  jobsInv s → jobs s !! k = Some (mkJob id (Polling jobId i)) →
  jobsInv (resume s k id (onPoll id jobId i r)).
Proof.
  intros Hinv Hk. unfold onPoll.
  destruct r as [e| |status error].
  - eapply resume_end_inv; [done..|apply endsJob_caught].
  - eapply resume_end_inv; [done..|apply endsJob_caught].
  - destruct (bool_decide (status = "completed")).
    + eapply resume_end_inv; [done..|apply endsJob_parsed].
    + destruct (bool_decide (status = "failed")).
      * eapply resume_end_inv; [done..|apply endsJob_logged].
      * destruct (S i <? maxPolls) eqn:Hmax.
        -- eapply resume_continue_inv; [done..|].
           intros jobId' i' [= _ <-]. by apply Nat.ltb_lt.
        -- eapply resume_end_inv; [done..|apply endsJob_finally].
Qed.

Lemma contextEffect_inv s :
  NoDup (map n_id (contextPapers (dock (home s)))) → jobsInv s →
  jobsInv {| home := fst (contextEffect (home s));
             jobs := jobs s ++ snd (contextEffect (home s));
             searching := searching s; chatting := chatting s |}.
Proof.
  intros Hctx (Hnd & Hparsing & Hparsed & Hpoll).
  destruct (effectStarts_jobs (home s)) as (Hids & Hphase & Hus).
  destruct (startedIds_spec (home s) Hctx) as [Hsnd Hsfresh].
  unfold jobsInv, jobIds, contextEffect; simpl.
  rewrite map_app, Hids, Hus.
  match goal with
  | |- context [applyUpdates _ ?h1] =>
      destruct (applyUpdates_adds (startedIds (home s)) h1) as [Hp Hx]
  end.
  simpl in Hp. rewrite Hp. split; [|split; [|split]].
  - apply NoDup_app. split; [done|]. split; [|done].
    intros x Hx1 Hx2. apply (Hsfresh x Hx2). by apply Hparsing.
  - intros x. rewrite Hx, elem_of_app. simpl. by rewrite Hparsing.
  - intros x [Hx1|Hx2]%elem_of_app.
    + by apply Hparsed.
    + by apply Hsfresh.
  - intros id jobId i [Hin|Hin]%elem_of_app.
    + by eapply Hpoll.
    + rewrite Forall_forall in Hphase. by specialize (Hphase _ Hin).
Qed.

Lemma step_jobsInv e s s' :
  NoDup (map n_id (contextPapers (dock (home s)))) →
  step e s = Some s' → jobsInv s → jobsInv s'.
Proof.
  intros Hctx.
  destruct (sessionEvent e) eqn:He.
  { intros Hstep. destruct (step_frame e s s' He Hstep) as (_ & Hp & Hj).
    unfold jobsInv, jobIds. by rewrite Hp, Hj. }
  destruct e as [node coords| |node coords|paperId| |k r|k r| | | | | | | | | | | |];
    try discriminate He; simpl.
  - by intros [= <-].
  - intros [= <-]. unfold jobsInv, jobIds; simpl. unfold handleMouseUp.
    by destruct (draggingNodeRef _).
  - by intros [= <-].
  - by intros [= <-].
  - intros [= <-]. by apply contextEffect_inv.
  - destruct (jobs s !! k) as [[id [|jobId i]]|] eqn:Hk; [|done..].
    intros [= <-] Hinv. by apply onSubmit_inv.
  - destruct (jobs s !! k) as [[id [|jobId i]]|] eqn:Hk; [done| |done].
    intros [= <-] Hinv. by apply onPoll_inv.
Qed.

Lemma reachable_jobsInv s : reachable s → jobsInv s.
Proof.
  induction 1 as [|e s s' Hs IH Hstep].
  - split; [constructor|]. split; [|split].
    + intros id. simpl. rewrite elem_of_nil. split; [|done].
      intros H. by apply not_elem_of_empty in H.
    + intros id H. by apply elem_of_nil in H.
    + intros id jobId i H. by apply elem_of_nil in H.
  - eapply step_jobsInv; [|done..]. by apply reachable_context_NoDup.
Qed.

Lemma applyUpdates_parsed_mono us h :
  parsedPapers (parse h) ⊆ parsedPapers (parse (applyUpdates us h)).
Proof.
  unfold applyUpdates. revert h.
  induction us as [|u us IH]; intros h; cbn [foldl]; [done|].
  etrans; [|apply IH]. destruct u; simpl; try done.
  intros x Hx. apply elem_of_union. by left.
Qed.

Lemma step_parsed_mono e s s' :
  step e s = Some s' →
  parsedPapers (parse (home s)) ⊆ parsedPapers (parse (home s')).
Proof.
  destruct (sessionEvent e) eqn:He.
  { intros Hstep. destruct (step_frame e s s' He Hstep) as (_ & Hp & _). by rewrite Hp. }
  destruct e as [node coords| |node coords|paperId| |k r|k r| | | | | | | | | | | |];
    try discriminate He; simpl.
  - by intros [= <-].
  - intros [= <-]; simpl. unfold handleMouseUp. by destruct (draggingNodeRef _).
  - by intros [= <-].
  - by intros [= <-].
  - intros [= <-]; simpl.
    match goal with
    | |- _ ⊆ parsedPapers (parse (applyUpdates ?us ?h1)) =>
        apply (applyUpdates_parsed_mono us h1)
    end.
  - destruct (jobs s !! k) as [[id [|jobId i]]|]; [|done..].
    intros [= <-]; simpl. apply applyUpdates_parsed_mono.
  - destruct (jobs s !! k) as [[id [|jobId i]]|]; [done| |done].
    intros [= <-]; simpl. apply applyUpdates_parsed_mono.
Qed.

Lemma run_parsed_mono es s s' :
  run es s = Some s' →
  parsedPapers (parse (home s)) ⊆ parsedPapers (parse (home s')).
Proof.
  revert s. induction es as [|e es IH]; simpl; intros s Hrun.
  - by injection Hrun as <-.
  - destruct (step e s) as [s1|] eqn:Hstep; [|done].
    etrans; [by eapply step_parsed_mono | by apply IH].
Qed.

(** X20. At most one job per paper is alive, and the parsing set is exactly
    the set of papers with a live job: in every state the running component
    can reach, searches and chat requests included, the papers of the
    suspended jobs are distinct, and an id is in the parsing set if and
    only if one of these jobs belongs to it. *)
Theorem one_live_job_per_paper (s : System) :
  reachable s →
  NoDup (map job_paper (jobs s))
  ∧ ∀ id, id ∈ parsingPapers (parse (home s)) ↔ id ∈ map job_paper (jobs s).
Proof.
  intros Hs. destruct (reachable_jobsInv s Hs) as (Hnd & Hparsing & _). by split.
Qed.

(** X21. Parsed is final. Once a paper is in the parsed set it stays there,
    whatever happens next (a new search, a filter change, a removal and a
    new drop, a chat request, the answer to any job), it is not in the
    parsing set, and no job for it is alive or will be started: the guard
    of the effect skips it. *)
Theorem parsed_is_final (s s' : System) (es : list Event) (id : string) :
  reachable s → id ∈ parsedPapers (parse (home s)) → run es s = Some s' →
  id ∈ parsedPapers (parse (home s'))
  ∧ (id ∉ parsingPapers (parse (home s')))
  ∧ (id ∉ map job_paper (jobs s'))
  ∧ ∀ paper, n_id paper = id → jobStart (home s') paper = ([], None).
Proof.
  intros Hs Hparsed Hrun.
  assert (id ∈ parsedPapers (parse (home s'))) as Hparsed'.
  { by apply (run_parsed_mono es s s' Hrun). }
  destruct (reachable_jobsInv s' (run_reachable es s s' Hs Hrun))
    as (_ & Hparsing & Hfresh & _).
  assert (id ∉ map job_paper (jobs s')) as Hnojob.
  { intros Hin. by apply (Hfresh id Hin). }
  split; [done|]. split; [by rewrite Hparsing|]. split; [done|].
  intros paper <-. unfold jobStart. by rewrite bool_decide_eq_true_2.
Qed.

Lemma one_live_job_per_paper_witness :
  ∃ s, run (searchShown ++ dropTwo ++ searchAgain (SearchThrew "offline"))
         initialSystem = Some s
       ∧ map job_paper (jobs s) = ["p1"; "p2"]
       ∧ ("p2" ∈ parsingPapers (parse (home s)) ↔ "p2" ∈ map job_paper (jobs s)).
Proof.
  match goal with
  | |- ∃ s, run ?es ?s0 = _ ∧ _ =>
      destruct (run es s0) as [s|] eqn:Hrun; [|by vm_compute in Hrun]
  end.
  exists s. split; [done|]. split.
  - revert Hrun. vm_compute. by intros [= <-].
  - apply (one_live_job_per_paper s).
    eapply run_reachable; [apply reachable_init | exact Hrun].
Defined.

Lemma parsed_is_final_witness :
  ∃ s s',
    run (searchShown ++ dropP1 ++ [EvSubmit 0 cachedAnswer]) initialSystem = Some s
    ∧ run (searchAgain (SearchResolved strayResult)
           ++ [EvRemove "p1"; EvEffect;
               EvDragEnd (sampleNode "p1") (Some dockPos); EvEffect])
        s = Some s'
    ∧ length (papers (search (home s'))) = 4
    ∧ "p1" ∈ parsedPapers (parse (home s')) ∧ jobs s' = [].
Proof.
  match goal with
  | |- ∃ s s', run ?es ?s0 = _ ∧ _ =>
      destruct (run es s0) as [s|] eqn:Hrun; [|by vm_compute in Hrun]
  end.
  pose proof (run_reachable _ _ _ reachable_init Hrun) as Hs.
  exists s. vm_compute in Hrun. injection Hrun as <-.
  match goal with
  | |- ∃ s', _ ∧ run ?es ?s = _ ∧ _ =>
      destruct (run es s) as [s'|] eqn:Hrun'; [|by vm_compute in Hrun']
  end.
  exists s'. split; [done|]. split; [done|].
  match type of Hrun' with
  | run ?es _ = _ => destruct (parsed_is_final _ s' es "p1" Hs) as (Hp & _ & Hjobs & _)
  end.
  - apply elem_of_elements.
    match goal with
    | |- _ ∈ elements ?X =>
        assert (elements X = ["p1"]) as -> by (vm_compute; reflexivity)
    end.
    by left.
  - exact Hrun'.
  - split; [|split; [exact Hp|]].
    + vm_compute in Hrun'. by injection Hrun' as <-.
    + vm_compute in Hrun'. by injection Hrun' as <-.
Defined.

(** ** Parse jobs: answers of the backend *)

Lemma lookup_delete_gone (js : list Job) k id ph :
  js !! k = Some (mkJob id ph) → NoDup (map job_paper js) →
  id ∉ map job_paper (delete k js).
Proof.
  intros Hk Hnd Hin.
  destruct (jobIds_delete js k _ Hk Hnd) as [_ Hdel].
  apply Hdel in Hin as [_ Hne]. done.
Qed.

(** X22. A cached or already completed submission marks the paper parsed
    without a single poll: in every state the running component can reach,
    the job ends with the answer to its submission,
    the paper is in the parsed set and no longer in the parsing set, and
    nothing is logged. *)
Theorem cached_submission_skips_polling
    (s : System) (k : nat) (id : string)
    (cached : bool) (status job_id : string) :
  reachable s → jobs s !! k = Some (mkJob id AwaitSubmit) →
  cached = true ∨ status = "completed" →
  ∃ s', step (EvSubmit k (SubmitJson cached status job_id)) s = Some s'
        ∧ jobs s' = delete k (jobs s)
        ∧ id ∈ parsedPapers (parse (home s'))
        ∧ (id ∉ parsingPapers (parse (home s')))
        ∧ (id ∉ map job_paper (jobs s'))
        ∧ console (home s') = console (home s).
Proof.
  intros Hs Hk Hdone.
  destruct (reachable_jobsInv s Hs) as (Hnd & _).
  assert (cached || bool_decide (status = "completed") = true) as Hc.
  { destruct Hdone as [-> | ->]; [done|]. by rewrite orb_true_r. }
  eexists. simpl. rewrite Hk. split; [reflexivity|].
  unfold resume, onSubmit. rewrite Hc. simpl.
  split; [done|]. split; [sets|]. split; [sets|]. split; [|done].
  by eapply lookup_delete_gone.
Qed.

Lemma cached_submission_skips_polling_witness :
  ∃ s s', run (searchShown ++ dropTwo ++ askQuestion) initialSystem = Some s
          ∧ step (EvSubmit 1 cachedAnswer) s = Some s'
          ∧ "p2" ∈ parsedPapers (parse (home s'))
          ∧ map job_paper (jobs s') = ["p1"].
Proof.
  match goal with
  | |- ∃ s s', run ?es ?s0 = _ ∧ _ =>
      destruct (run es s0) as [s|] eqn:Hrun; [|by vm_compute in Hrun]
  end.
  assert (jobs s = [mkJob "p1" AwaitSubmit; mkJob "p2" AwaitSubmit]) as Hjobs.
  { revert Hrun. vm_compute. by intros [= <-]. }
  destruct (cached_submission_skips_polling s 1 "p2" true "completed" "job-1")
    as (s' & Hstep & Hjobs' & Hparsed & _).
  - eapply run_reachable; [apply reachable_init | exact Hrun].
  - by rewrite Hjobs.
  - by left.
  - exists s, s'. split; [done|]. split; [exact Hstep|]. split; [exact Hparsed|].
    by rewrite Hjobs', Hjobs.
Defined.



Lemma failure_resume s k id ph msg :
  reachable s → jobs s !! k = Some (mkJob id ph) →
  let s' := resume s k id (([ConsoleError msg] ++ jobFinally id)%list, None) in
  jobs s' = delete k (jobs s)
  ∧ length (console (home s')) = S (length (console (home s)))
  ∧ (id ∉ parsingPapers (parse (home s')))
  ∧ (id ∉ parsedPapers (parse (home s')))
  ∧ guarded (home s') id = false
  ∧ ∀ x, x ≠ id →
      (x ∈ parsingPapers (parse (home s')) ↔ x ∈ parsingPapers (parse (home s)))
      ∧ (x ∈ parsedPapers (parse (home s')) ↔ x ∈ parsedPapers (parse (home s))).
Proof.
  intros Hs Hk.
  destruct (reachable_jobsInv s Hs) as (Hnd & Hparsing & Hfresh & Hpoll).
  assert (id ∉ parsedPapers (parse (home s))) as Hnotparsed.
  { apply Hfresh. apply list_elem_of_In, in_map_iff. exists (mkJob id ph).
    split; [done|]. by eapply list_elem_of_In, list_elem_of_lookup_2. }
  unfold resume; simpl.
  split; [done|]. split; [rewrite length_app; simpl; lia|].
  split; [sets|]. split; [done|]. split.
  - unfold guarded; simpl. rewrite !bool_decide_eq_false_2; [done|sets|done].
  - intros x Hx. split; [sets | done].
Qed.

(** X24. A failure stays local. In every state the running component can
    reach, when the submission or a poll of a job throws, gets a non-success response, or a poll reports "failed", that
    job ends, one line is logged, and its paper is in neither status set,
    so that a later re-add passes the guard and starts a new job. The other
    jobs and the status of every other paper are untouched. *)
Theorem job_failure_is_local
    (s s' : System) (e : Event) (k : nat) (id : string) (ph : JobPhase) :
  reachable s → jobs s !! k = Some (mkJob id ph) →
  failureOf e = Some k → step e s = Some s' →
  jobs s' = delete k (jobs s)
  ∧ length (console (home s')) = S (length (console (home s)))
  ∧ (id ∉ parsingPapers (parse (home s')))
  ∧ (id ∉ parsedPapers (parse (home s')))
  ∧ guarded (home s') id = false
  ∧ ∀ x, x ≠ id →
      (x ∈ parsingPapers (parse (home s')) ↔ x ∈ parsingPapers (parse (home s)))
      ∧ (x ∈ parsedPapers (parse (home s')) ↔ x ∈ parsedPapers (parse (home s))).
Proof.
  intros Hs Hk Hfail Hstep.
  assert (∃ msg, s' = resume s k id (([ConsoleError msg] ++ jobFinally id)%list, None))
    as [msg ->]; [|by eapply failure_resume].
  destruct e as [| | | | |k' r|k' r| | | | | | | | | | | |]; simpl in Hfail; try done.
  - destruct r as [err| |]; try done; injection Hfail as ->;
      simpl in Hstep; rewrite Hk in Hstep;
      (destruct ph; [|done]); injection Hstep as <-; by eexists.
  - destruct r as [err| |status err].
    + injection Hfail as ->. simpl in Hstep. rewrite Hk in Hstep.
      destruct ph; [done|]. injection Hstep as <-. by eexists.
    + injection Hfail as ->. simpl in Hstep. rewrite Hk in Hstep.
      destruct ph; [done|]. injection Hstep as <-. by eexists.
    + case_bool_decide as Hc; [done|]. case_bool_decide as Hf; [|done].
      injection Hfail as ->. simpl in Hstep. rewrite Hk in Hstep.
      destruct ph; [done|]. injection Hstep as <-.
      unfold onPoll. rewrite bool_decide_eq_false_2, bool_decide_eq_true_2 by done.
      by eexists.
Qed.

Lemma job_failure_is_local_witness :
  ∃ s s', run (searchShown ++ dropTwo ++ searchAgain (SearchResolved strayResult))
            initialSystem = Some s
          ∧ step (EvSubmit 0 SubmitNotOk) s = Some s'
          ∧ map job_paper (jobs s') = ["p2"]
          ∧ ("p2" ∈ parsingPapers (parse (home s'))
             ↔ "p2" ∈ parsingPapers (parse (home s))).
Proof.
  match goal with
  | |- ∃ s s', run ?es ?s0 = _ ∧ _ =>
      destruct (run es s0) as [s|] eqn:Hrun; [|by vm_compute in Hrun]
  end.
  assert (jobs s = [mkJob "p1" AwaitSubmit; mkJob "p2" AwaitSubmit]) as Hjobs.
  { revert Hrun. vm_compute. by intros [= <-]. }
  destruct (step (EvSubmit 0 SubmitNotOk) s) as [s'|] eqn:Hstep;
    [|simpl in Hstep; by rewrite Hjobs in Hstep].
  destruct (job_failure_is_local s s' (EvSubmit 0 SubmitNotOk) 0 "p1" AwaitSubmit)
    as (Hjobs' & _ & _ & _ & _ & Hother).
  - eapply run_reachable; [apply reachable_init | exact Hrun].
  - by rewrite Hjobs.
  - reflexivity.
  - exact Hstep.
  - exists s, s'. split; [done|]. split; [done|]. split.
    + by rewrite Hjobs', Hjobs.
    + apply Hother. discriminate.
Defined.

(** X25. Removing a paper does not cancel its job. After the removal and the
    run of the effect that follows it, the paper is out of the context set
    while its job is still suspended where it was and the paper is still in
    the parsing set; the parsed set is unchanged. *)
Theorem removal_does_not_cancel
    (s : System) (k : nat) (id : string) (ph : JobPhase) :
  jobs s !! k = Some (mkJob id ph) →
  ∃ s', run [EvRemove id; EvEffect] s = Some s'
        ∧ (id ∉ map n_id (contextPapers (dock (home s'))))
        ∧ jobs s' !! k = Some (mkJob id ph)
        ∧ (id ∈ parsingPapers (parse (home s)) →
           id ∈ parsingPapers (parse (home s')))
        ∧ parsedPapers (parse (home s')) = parsedPapers (parse (home s)).
Proof.
  intros Hk. eexists. split; [reflexivity|]. simpl.
  set (h1 := removeFromContext id (home s)).
  destruct (effectStarts_jobs h1) as (_ & _ & Hus). rewrite Hus.
  match goal with
  | |- context [applyUpdates _ ?h2] =>
      destruct (applyUpdates_adds (startedIds h1) h2) as [Hp Hx]
  end.
  split; [|split; [|split]].
  - rewrite applyUpdates_dock. simpl. intros Hin.
    apply list_elem_of_In, in_map_iff in Hin as (n & Hid & Hn).
    apply filter_In in Hn as [_ Hn].
    by apply negb_true_iff, bool_decide_eq_false in Hn.
  - by apply lookup_app_l_Some.
  - intros Hin. apply Hx. by left.
  - exact Hp.
Qed.

Lemma removal_does_not_cancel_witness :
  ∃ s s', run dropP1 initialSystem = Some s
          ∧ run [EvRemove "p1"; EvEffect] s = Some s'
          ∧ contextPapers (dock (home s')) = []
          ∧ jobs s' !! 0 = Some (mkJob "p1" AwaitSubmit).
Proof.
  destruct (run dropP1 initialSystem) as [s|] eqn:Hrun; [|by vm_compute in Hrun].
  assert (jobs s = [mkJob "p1" AwaitSubmit]) as Hjobs.
  { revert Hrun. vm_compute. by intros [= <-]. }
  assert (map n_id (contextPapers (dock (home s))) = ["p1"]) as Hctx.
  { revert Hrun. vm_compute. by intros [= <-]. }
  destruct (removal_does_not_cancel s 0 "p1" AwaitSubmit)
    as (s' & Hrun' & Hout & Hjob & _).
  - by rewrite Hjobs.
  - exists s, s'. split; [done|]. split; [exact Hrun'|]. split; [|exact Hjob].
    injection Hrun' as <-. simpl. rewrite applyUpdates_dock. simpl.
    destruct (contextPapers (dock (home s))) as [|n [|n' ctx]]; try done.
    injection Hctx as Hn. simpl. by rewrite bool_decide_eq_true_2.
Defined.

(** ** Chat session: one request at a time *)

(** X26. One chat request at a time. While a request is in flight every
    further send is refused and changes nothing, and so is a send with a
    blank message or with an empty context set. *)
Theorem chat_single_flight
    (backend : ChatRequest → ChatOutcome) (message message' : string) (h : Home) :
  sendChatMessage backend message' (sendChatMessage_before message h)
  = sendChatMessage_before message h
  ∧ (JS.blank message = true ∨ contextPapers (dock h) = []
     ∨ chatLoading (chat h) = true →
     sendChatMessage backend message h = h).
Proof.
  split.
  - unfold sendChatMessage, chatRefused; simpl. by rewrite orb_true_r.
  - intros H. unfold sendChatMessage, chatRefused.
    destruct H as [-> | [-> | ->]]; simpl; by rewrite ?orb_true_r.
Qed.

Lemma chat_single_flight_witness :
  sendChatMessage (fun _ => ChatJson "never sent") "   " busyHome = busyHome.
Proof.
  apply (proj2 (chat_single_flight (fun _ => ChatJson "never sent") "   " "" busyHome)).
  left. reflexivity.
Defined.

(** X27. The transcript is append-only under a send: whatever the backend
    does, an accepted send leaves the earlier messages in place and appends
    exactly two, the user message and one assistant message, which is the
    reply of the backend on success; it clears the input when it starts and
    the in-flight flag when it ends, and does not touch the context set. *)
Theorem chat_send_appends_two
    (backend : ChatRequest → ChatOutcome) (message : string) (h : Home) :
  chatRefused message h = false →
  let h' := sendChatMessage backend message h in
  ∃ reply,
    chatMessages (chat h')
    = chatMessages (chat h)
        ++ [ {| role := user; content := message |};
             {| role := assistant; content := reply |} ]
    ∧ (∀ response, backend (chatRequest message h) = ChatJson response →
       reply = response)
    ∧ chatLoading (chat h') = false
    ∧ chatInput (chat h') = ""
    ∧ dock h' = dock h ∧ parse h' = parse h ∧ search h' = search h.
Proof.
  intros Hacc. cbv zeta. rewrite sendChatMessage_accepted by done.
  destruct (backend (chatRequest message h)) as [e|status|response]; simpl.
  - exists fallbackReply. rewrite <- app_assoc. by repeat split.
  - exists fallbackReply. rewrite <- app_assoc. by repeat split.
  - exists response. rewrite <- app_assoc. repeat split; try done.
    by intros ? [= ->].
Qed.

Lemma chat_send_appends_two_witness :
  map content
    (chatMessages (chat (sendChatMessage (fun _ => ChatJson "By induction.")
                           "And the method?" busyHome)))
  = ["Summarise."; "A summary."; "And the method?"; "By induction."].
Proof.
  destruct (chat_send_appends_two (fun _ => ChatJson "By induction.")
              "And the method?" busyHome) as (reply & Hmsgs & Hreply & _);
    [reflexivity|].
  rewrite Hmsgs, (Hreply "By induction." eq_refl). reflexivity.
Defined.





(** A context paper that the current result does not contain gets the
    arXiv default. *)
Example default_url_sample :
  map pc_pdf_url (req_papers (chatRequest "q" swappedHome))
  = ["https://arxiv.org/pdf/p2.pdf"].
Proof. reflexivity. Qed.

(** ** Search coordinator: outcomes *)

(** X29. A search always comes to an end with the loading flag down, and
    while it is in flight a second search is refused. A thrown error leaves
    no graph and no papers, the status "Search failed" and one logged line;
    an empty result leaves no graph, the status "No papers found" and the
    visible clusters as they were; a result with papers stores the papers,
    categories, expanded queries and maximum citation count, builds the
    graph from them, makes every returned category visible and clears the
    status. The query and the requested paper count are never changed. *)
Theorem search_outcomes
    (searchPapers searchPapers' : string → N → SearchOutcome) (h : Home) :
  searchRefused h = false →
  let o := searchPapers (query (search h)) (paperCount (search h)) in
  let h' := handleSearch searchPapers h in
  isLoading (search h') = false
  ∧ dateFilter (search h') = "all"
  ∧ query (search h') = query (search h)
  ∧ paperCount (search h') = paperCount (search h)
  ∧ searchLeaves o h h'
  ∧ handleSearch searchPapers' (handleSearch_before h) = handleSearch_before h.
Proof.
  intros Hacc. cbv zeta. unfold handleSearch at 1 2 3 4 5. rewrite Hacc.
  split; [|split; [|split; [|split; [|split]]]].
  6:{ unfold handleSearch, searchRefused; simpl. by rewrite orb_true_r. }
  all: unfold handleSearch_after, searchLeaves;
    destruct (searchPapers _ _) as [e|r]; simpl;
    [|destruct (r_papers r) as [|p ps] eqn:Hps; simpl; rewrite ?Hps];
    repeat split; try done.
  rewrite length_app. simpl. lia.
Qed.

Lemma search_outcomes_witness :
  let h' := handleSearch (fun _ _ => SearchThrew "timeout") busyHome in
  isLoading (search h') = false
  ∧ loadingStatus (search h') = "Search failed"
  ∧ contextPapers (dock h') = [sampleNode "p1"].
Proof.
  destruct (search_outcomes (fun _ _ => SearchThrew "timeout")
              (fun _ _ => SearchThrew "timeout") busyHome)
    as (Hload & _ & _ & _ & (Hstatus & _) & _); [reflexivity|].
  split; [exact Hload|]. split; [exact Hstatus | reflexivity].
Defined.

(** ** Time window *)

Lemma windowRank_cutoff yearsAgo v v' :
  (yearsAgo 5 ≤ yearsAgo 2)%Z → (yearsAgo 2 ≤ yearsAgo 1)%Z →
  windowRank v ≤ windowRank v' →
  cutoffLe (dateFilterCutoff yearsAgo v') (dateFilterCutoff yearsAgo v).
Proof.
  intros H52 H21. unfold windowRank, dateFilterCutoff, cutoffLe.
  repeat case_bool_decide; simpl; lia.
Qed.

(** X30. A wider time window never hides anything: if the calendar puts five
    years ago no later than two years ago and two years ago no later than
    one year ago, then going from "1y" to "2y" to "5y" to "all" (or to any
    value that is none of the three windows) keeps every visible node and
    every visible link. *)
Theorem wider_time_window_shows_more
    (yearsAgo : Z → Z) (parseDate : string → option Z)
    (h : Home) (v v' : string) (fg fg' : GraphData) :
  (yearsAgo 5 ≤ yearsAgo 2)%Z → (yearsAgo 2 ≤ yearsAgo 1)%Z →
  windowRank v ≤ windowRank v' →
  visibleGraph yearsAgo parseDate (onDateFilterClick v h) = Some fg →
  visibleGraph yearsAgo parseDate (onDateFilterClick v' h) = Some fg' →
  nodes fg ⊆ nodes fg' ∧ links fg ⊆ links fg'.
Proof.
  intros H52 H21 Hrank. unfold visibleGraph; simpl.
  pose proof (windowRank_cutoff yearsAgo v v' H52 H21 Hrank) as Hle.
  destruct (graphData (search h)) as [g|]; [|done]. simpl.
  intros [= <-] [= <-]; simpl. apply filtered_mono. intros n Hn.
  destruct (dateFilterCutoff yearsAgo v') as [c'|],
           (dateFilterCutoff yearsAgo v) as [c|]; simpl in Hle; try done.
  - by apply (nodeVisible_earlier parseDate _ c' c).
  - by apply (nodeVisible_no_cutoff parseDate _ (Some c)).
Qed.

Lemma wider_time_window_shows_more_witness :
  ∃ fg fg',
    visibleGraph sampleYearsAgo sampleParseDate (onDateFilterClick "1y" busyHome)
      = Some fg
    ∧ visibleGraph sampleYearsAgo sampleParseDate (onDateFilterClick "5y" busyHome)
        = Some fg'
    ∧ nodes fg ⊆ nodes fg' ∧ length (nodes fg) = 0 ∧ length (nodes fg') = 3.
Proof.
  eexists _, _. split; [reflexivity|]. split; [reflexivity|].
  split; [|split; vm_compute; reflexivity].
  apply (wider_time_window_shows_more sampleYearsAgo sampleParseDate busyHome
           "1y" "5y" _ _); try reflexivity; try (vm_compute; lia).
  - unfold sampleYearsAgo. lia.
  - unfold sampleYearsAgo. lia.
Defined.
